(** * pons: the contract-ABI object model ([pons/_contract_abi.py])

    A shallow embedding of the signature, entity and [ContractABI] classes,
    followed by the properties of error resolution, output decoding, event
    filters and log decoding.

    Conventions of the embedding:
    - a Python [str] is a [string] holding its UTF-8 bytes, so [s.encode()]
      is the list of its bytes;
    - [bytes] is [list byte];
    - a Python [dict] is an insertion-ordered association list;
    - a function that can raise returns a [result]; statements are
      sequenced with the bind of that monad, so the first exception raised
      is the one returned. *)

From Stdlib Require Import ZArith NArith List String Ascii Lia.
From Stdlib.Strings Require Import Byte.
From stdpp Require Import base decidable option list strings gmap pretty.

Open Scope string_scope.
Open Scope list_scope.
Open Scope nat_scope.

Abbreviation bytes := (list byte).

#[global] Instance byte_eq_decision : EqDecision byte := byte_eq_dec.

(** ** Exceptions and the result monad *)

Inductive exn : Type :=
| ValueError (msg : string)
| TypeError (msg : string)
| KeyError (key : string)
| IndexError (msg : string)
| UnknownError (msg : string).

Inductive result (A : Type) : Type :=
| Ok (a : A)
| Raise (e : exn).

Arguments Ok {A} a.
Arguments Raise {A} e.

#[global] Instance result_ret : MRet result := λ A a, Ok a.

#[global] Instance result_bind : MBind result := λ A B f m,
  match m with
  | Ok a => f a
  | Raise e => Raise e
  end.

#[global] Instance result_fmap : FMap result := λ A B f m,
  match m with
  | Ok a => Ok (f a)
  | Raise e => Raise e
  end.

Definition is_ok {A} (r : result A) : bool :=
  match r with
  | Ok _ => true
  | Raise _ => false
  end.

(** ** Python dictionaries

    Insertion-ordered; assigning to a key that is present replaces the value
    and keeps the key's position. *)

Section dict.
Context {K V : Type} `{EqDecision K}.

Definition dict : Type := list (K * V).

Fixpoint dict_get (k : K) (d : dict) : option V :=
  match d with
  | [] => None
  | (k', v) :: d' => if decide (k = k') then Some v else dict_get k d'
  end.

Fixpoint dict_setitem (k : K) (v : V) (d : dict) : dict :=
  match d with
  | [] => [(k, v)]
  | (k', v') :: d' =>
      if decide (k = k') then (k', v) :: d' else (k', v') :: dict_setitem k v d'
  end.

(** [k in d] *)
Definition dict_contains (k : K) (d : dict) : bool :=
  match dict_get k d with
  | Some _ => true
  | None => false
  end.

Definition dict_keys (d : dict) : list K := map fst d.

Definition dict_values (d : dict) : list V := map snd d.

(** [dict(pairs)], and the dict comprehension [{k: v for ...}] over the
    pairs it generates: items are assigned one after the other. *)
Definition dict_of_pairs (pairs : list (K * V)) : dict :=
  fold_left (λ d kv, dict_setitem kv.1 kv.2 d) pairs [].

End dict.

Arguments dict K V : clear implicits.

(** [d[k]] on a dictionary with string keys *)
Definition dict_getitem {V} (k : string) (d : dict string V) : result V :=
  match dict_get k d with
  | Some v => Ok v
  | None => Raise (KeyError k)
  end.

(** ** Bytes and strings *)

(** [s.encode()] *)
Definition encode (s : string) : bytes := list_byte_of_string s.

Definition hexdigit (n : N) : ascii :=
  match n with
  | 0 => "0" | 1 => "1" | 2 => "2" | 3 => "3" | 4 => "4" | 5 => "5"
  | 6 => "6" | 7 => "7" | 8 => "8" | 9 => "9" | 10 => "a" | 11 => "b"
  | 12 => "c" | 13 => "d" | 14 => "e" | _ => "f"
  end%N%char.

(** [b.hex()] *)
Fixpoint hex (b : bytes) : string :=
  match b with
  | [] => EmptyString
  | x :: b' =>
      String (hexdigit (Byte.to_N x / 16))
        (String (hexdigit (Byte.to_N x mod 16)) (hex b'))
  end.

(** The byte of a number below 256 *)
Definition byte_of_N (n : N) : byte :=
  match Byte.of_N (n mod 256) with
  | Some b => b
  | None => x00
  end.

(** [bytes.fromhex] for lower-case digits *)
Definition hexval (c : ascii) : N :=
  let n := N_of_ascii c in
  (if (48 <=? n) && (n <=? 57) then n - 48
   else if (97 <=? n) && (n <=? 102) then n - 87
   else 0)%N.

Fixpoint fromhex (s : string) : bytes :=
  match s with
  | String hi (String lo s') =>
      byte_of_N (16 * hexval hi + hexval lo) :: fromhex s'
  | _ => []
  end.

(** [keyword.kwlist] *)
Definition kwlist : list string :=
  [ "False"; "None"; "True"; "and"; "as"; "assert"; "async"; "await";
    "break"; "class"; "continue"; "def"; "del"; "elif"; "else"; "except";
    "finally"; "for"; "from"; "global"; "if"; "import"; "in"; "is";
    "lambda"; "nonlocal"; "not"; "or"; "pass"; "raise"; "return"; "try";
    "while"; "with"; "yield" ].

Definition iskeyword (name : string) : bool :=
  bool_decide (name ∈ kwlist).

Definition make_name_safe (name : string) : string :=
  if iskeyword name then name +:+ "_" else name.

(** ** JSON values *)

#[local] Set Warnings "-register-all".

Inductive JSON : Type :=
| JNull
| JBool (b : bool)
| JInt (n : Z)
| JStr (s : string)
| JList (l : list JSON)
| JDict (d : list (string * JSON)).

(** Truth value of a JSON value in a condition. *)
Definition truthy (j : JSON) : bool :=
  match j with
  | JNull => false
  | JBool b => b
  | JInt n => negb (n =? 0)%Z
  | JStr s => negb (String.eqb s EmptyString)
  | JList l => match l with [] => false | _ => true end
  | JDict d => match d with [] => false | _ => true end
  end.

(** [j == s] for a string literal [s] *)
Definition json_eq_str (j : JSON) (s : string) : bool :=
  match j with
  | JStr s' => String.eqb s' s
  | _ => false
  end.

(** The entries the model reads as strings, lists or dictionaries: a value
    of another shape raises [TypeError]. *)
Definition as_str (j : JSON) : result string :=
  match j with
  | JStr s => Ok s
  | _ => Raise (TypeError "expected a string")
  end.

Definition as_list (j : JSON) : result (list JSON) :=
  match j with
  | JList l => Ok l
  | _ => Raise (TypeError "expected a list")
  end.

Definition as_dict (j : JSON) : result (dict string JSON) :=
  match j with
  | JDict d => Ok d
  | _ => Raise (TypeError "expected a dictionary")
  end.

#[local] Set Warnings "register-all".

(** ** Collaborators

    What [_contract_abi.py] imports from the rest of the package and from
    the Python runtime, and only uses through these operations: the ABI
    types of [_abi_types] with their codec, the hash function, the two types
    [abi.uint(256)] and [abi.string] of the built-in errors, and
    [str.isidentifier] (consulted by [inspect.Parameter]). *)

(** [Union[Mapping[str, Type], Sequence[Type]]] *)
Inductive Params (T : Type) : Type :=
| Named (m : dict string T)
| Positional (ts : list T).

Arguments Named {T} m.
Arguments Positional {T} ts.

(** The types of a parameter list, in order *)
Definition Params_types {T} (ps : Params T) : list T :=
  match ps with
  | Named m => dict_values m
  | Positional ts => ts
  end.

Class Collaborators : Type := {
  ABIType : Type;
  Value : Type;
  canonical_form : ABIType → string;
  encode_to_topic : ABIType → Value → result bytes;
  decode_from_topic : ABIType → bytes → result Value;
  decode_args : list ABIType → bytes → result (list Value);
  dispatch_type : JSON → result ABIType;
  dispatch_types : JSON → result (Params ABIType);
  keccak : bytes → bytes;
  abi_uint : N → ABIType;
  abi_string : ABIType;
  isidentifier : string → bool;
}.

(** [_abi_types.encode_args], given the pairs of a type and a value *)
Class Encoder `{!Collaborators} : Type := {
  encode_args : list (ABIType * Value) → result bytes;
}.

(** [_entities.LogTopic]: the topic bytes under a type of their own,
    compared by value; [_entities.LogEntry] as far as it is read here. *)
Record LogTopic : Type := { LogTopic_bytes : bytes }.

#[global] Instance LogTopic_eq_decision : EqDecision LogTopic.
Proof. solve_decision. Defined.

Module LogEntry.

Record t : Type := { topics : list LogTopic; data : bytes }.

End LogEntry.

(** ** [inspect.Signature], as far as it is used *)

Inductive ParameterKind : Type :=
| POSITIONAL_ONLY
| POSITIONAL_OR_KEYWORD.

Record Param : Type := {
  Param_name : string;
  Param_kind : ParameterKind;
}.

(** [inspect.Parameter(name, kind)]: the name has to be an identifier, and
    no keyword unless the parameter is positional-only. *)
Definition inspect_Parameter `{!Collaborators}
    (name : string) (kind : ParameterKind) : result Param :=
  let is_keyword :=
    iskeyword name && match kind with POSITIONAL_ONLY => false | _ => true end in
  if is_keyword || negb (isidentifier name)
  then Raise (ValueError ("'" +:+ name +:+ "' is not a valid parameter name"))
  else Ok {| Param_name := name; Param_kind := kind |}.

(** [inspect.Signature(parameters=...)]: parameter names are distinct.
    (All parameters of one signature have the same kind and no default, so
    the checks on their order pass.) *)
Fixpoint check_duplicates (seen : list string) (parameters : list Param)
    : result unit :=
  match parameters with
  | [] => Ok ()
  | p :: parameters' =>
      if bool_decide (Param_name p ∈ seen)
      then Raise (ValueError
                    ("duplicate parameter name: '" +:+ Param_name p +:+ "'"))
      else check_duplicates (Param_name p :: seen) parameters'
  end.

Definition inspect_Signature (parameters : list Param)
    : result (list Param) :=
  _ ← check_duplicates [] parameters; Ok parameters.

(** An argument of an event filter: a plain value or an [Either]. *)
Inductive Arg (V : Type) : Type :=
| Plain (v : V)
| Either (items : list V).

Arguments Plain {V} v.
Arguments Either {V} items.

(** [inspect.Signature.bind_partial] for parameters that are all
    positional-or-keyword: positional arguments fill the parameters from
    the left, keyword arguments the remaining ones by name; parameters
    without an argument are left out of the result. *)
Fixpoint bind_positional {V} (parameters : list Param) (args : list V)
    (kwargs : dict string V) (arguments : dict string V) {struct args}
    : result (dict string V * list Param) :=
  match args with
  | [] => Ok (arguments, parameters)
  | arg_val :: args' =>
      match parameters with
      | [] => Raise (TypeError "too many positional arguments")
      | param :: parameters' =>
          if dict_contains (Param_name param) kwargs
          then Raise (TypeError ("multiple values for argument '"
                                 +:+ Param_name param +:+ "'"))
          else bind_positional parameters' args' kwargs
                 (dict_setitem (Param_name param) arg_val arguments)
      end
  end.

Fixpoint bind_keywords {V} (parameters : list Param)
    (kwargs : dict string V) (arguments : dict string V)
    : dict string V * dict string V :=
  match parameters with
  | [] => (arguments, kwargs)
  | param :: parameters' =>
      match dict_get (Param_name param) kwargs with
      | Some arg_val =>
          bind_keywords parameters'
            (filter (λ kv, kv.1 ≠ Param_name param) kwargs)
            (dict_setitem (Param_name param) arg_val arguments)
      | None => bind_keywords parameters' kwargs arguments
      end
  end.

Definition bind_partial {V} (parameters : list Param) (args : list V)
    (kwargs : dict string V) : result (dict string V) :=
  '(arguments, rest) ← bind_positional parameters args kwargs [];
  let '(arguments, kwargs) := bind_keywords rest kwargs arguments in
  match kwargs with
  | [] => Ok arguments
  | (name, _) :: _ =>
      Raise (TypeError ("got an unexpected keyword argument '" +:+ name +:+ "'"))
  end.

(** [inspect.Signature.bind]: as [bind_partial], for parameters of either
    kind, and every parameter has to receive an argument. A positional-only
    parameter takes no keyword argument. *)
Fixpoint bind_args {V} (parameters : list Param) (args : list V)
    (kwargs : dict string V) (arguments : dict string V) {struct args}
    : result (dict string V * list Param) :=
  match args with
  | [] => Ok (arguments, parameters)
  | arg_val :: args' =>
      match parameters with
      | [] => Raise (TypeError "too many positional arguments")
      | param :: parameters' =>
          if dict_contains (Param_name param) kwargs
             && match Param_kind param with POSITIONAL_ONLY => false | _ => true end
          then Raise (TypeError ("multiple values for argument '"
                                 +:+ Param_name param +:+ "'"))
          else bind_args parameters' args' kwargs
                 (dict_setitem (Param_name param) arg_val arguments)
      end
  end.

Fixpoint bind_kwargs {V} (parameters : list Param)
    (kwargs : dict string V) (arguments : dict string V)
    : result (dict string V * dict string V) :=
  match parameters with
  | [] => Ok (arguments, kwargs)
  | param :: parameters' =>
      match dict_get (Param_name param) kwargs with
      | Some arg_val =>
          match Param_kind param with
          | POSITIONAL_ONLY =>
              Raise (TypeError ("'" +:+ Param_name param
                                +:+ "' parameter is positional only, but was passed as a keyword"))
          | POSITIONAL_OR_KEYWORD =>
              bind_kwargs parameters'
                (filter (λ kv, kv.1 ≠ Param_name param) kwargs)
                (dict_setitem (Param_name param) arg_val arguments)
          end
      | None =>
          Raise (TypeError ("missing a required argument: '"
                            +:+ Param_name param +:+ "'"))
      end
  end.

Definition bind {V} (parameters : list Param) (args : list V)
    (kwargs : dict string V) : result (dict string V) :=
  '(arguments, rest) ← bind_args parameters args kwargs [];
  '(arguments, kwargs) ← bind_kwargs rest kwargs arguments;
  match kwargs with
  | [] => Ok arguments
  | (name, _) :: _ =>
      Raise (TypeError ("got an unexpected keyword argument '" +:+ name +:+ "'"))
  end.

(** [BoundArguments.args]: the arguments in the order of the parameters, up
    to the first parameter without one. *)
Fixpoint BoundArguments_args {V} (parameters : list Param)
    (arguments : dict string V) : list V :=
  match parameters with
  | [] => []
  | param :: parameters' =>
      match dict_get (Param_name param) arguments with
      | Some arg => arg :: BoundArguments_args parameters' arguments
      | None => []
      end
  end.

(** ** [Signature] *)

Module Signature.

Record t_ {T : Type} : Type := {
  _signature : list Param;
  _types : list T;
  _named_parameters : bool;
}.

Arguments t_ : clear implicits.

Abbreviation t := (t_ ABIType).

Definition __init__ `{!Collaborators} (parameters : Params ABIType) : result t :=
  match parameters with
  | Named m =>
      ps ← mapM (λ '(name, tp),
                  inspect_Parameter (make_name_safe name) POSITIONAL_OR_KEYWORD) m;
      sig ← inspect_Signature ps;
      Ok {| _signature := sig;
            _types := dict_values m;
            _named_parameters := true |}
  | Positional ts =>
      ps ← mapM (λ i : nat, inspect_Parameter ("_" +:+ pretty i) POSITIONAL_ONLY)
             (seq 0 (length ts));
      sig ← inspect_Signature ps;
      Ok {| _signature := sig;
            _types := ts;
            _named_parameters := false |}
  end.

Definition empty `{!Collaborators} (self : t) : bool :=
  match _types self with
  | [] => true
  | _ => false
  end.

Definition canonical_form `{!Collaborators} (self : t) : string :=
  "(" +:+ String.concat "," (map canonical_form (_types self)) +:+ ")".

Definition decode_into_tuple `{!Collaborators} (self : t) (value_bytes : bytes)
    : result (list Value) :=
  decode_args (_types self) value_bytes.

Definition decode_into_dict `{!Collaborators} (self : t) (value_bytes : bytes)
    : result (dict string Value) :=
  decoded ← decode_into_tuple self value_bytes;
  Ok (dict_of_pairs (zip (map Param_name (_signature self)) decoded)).

Definition encode `{!Collaborators, !Encoder} (self : t) (args : list Value)
    (kwargs : dict string Value) : result bytes :=
  bound_args ← bind (_signature self) args kwargs;
  encode_args (zip (_types self) (BoundArguments_args (_signature self) bound_args)).

End Signature.

(** ** [EventSignature] *)

Module EventSignature.

Record t_ {T : Type} : Type := {
  _signature : list Param;
  _types : dict string T;
  _types_nonindexed : dict string T;
  _indexed : gset string;
}.

Arguments t_ : clear implicits.

Abbreviation t := (t_ ABIType).

Definition __init__ `{!Collaborators}
    (parameters : dict string ABIType) (indexed : gset string) : result t :=
  let parameters :=
    dict_of_pairs (map (λ '(name, val), (make_name_safe name, val)) parameters) in
  let indexed : gset string := set_map make_name_safe indexed in
  ps ← mapM (λ '(name, tp), inspect_Parameter name POSITIONAL_OR_KEYWORD)
         (filter (λ kv, kv.1 ∈ indexed) parameters);
  sig ← inspect_Signature ps;
  types_nonindexed ←
    mapM (λ name, tp ← dict_getitem name parameters; Ok (name, tp))
      (filter (λ name, name ∉ indexed) (dict_keys parameters));
  Ok {| _signature := sig;
        _types := parameters;
        _types_nonindexed := dict_of_pairs types_nonindexed;
        _indexed := indexed |}.

(** The loop of [encode_to_topics] over the parameters of the signature,
    appending to [encoded_topics]. *)
Fixpoint encode_loop `{!Collaborators} (types : dict string ABIType)
    (arguments : dict string (Arg Value)) (parameters : list Param)
    (encoded_topics : list (option (list bytes)))
    : result (list (option (list bytes))) :=
  match parameters with
  | [] => Ok encoded_topics
  | param :: parameters' =>
      let param_name := Param_name param in
      match dict_get param_name arguments with
      | None => encode_loop types arguments parameters' (encoded_topics ++ [None])
      | Some bound_val =>
          tp ← dict_getitem param_name types;
          encoded_val ←
            match bound_val with
            | Either items => mapM (encode_to_topic tp) items
            | Plain v => elem ← encode_to_topic tp v; Ok [elem]
            end;
          encode_loop types arguments parameters'
            (encoded_topics ++ [Some encoded_val])
      end
  end.

(** [while encoded_topics and encoded_topics[-1] is None: encoded_topics.pop()];
    the list is at most [fuel] long. *)
Fixpoint pop_trailing_None {A} (fuel : nat) (encoded_topics : list (option A))
    : list (option A) :=
  match fuel with
  | O => encoded_topics
  | S fuel' =>
      match last encoded_topics with
      | Some None => pop_trailing_None fuel' (removelast encoded_topics)
      | _ => encoded_topics
      end
  end.

Definition encode_to_topics `{!Collaborators} (self : t)
    (args : list (Arg Value)) (kwargs : dict string (Arg Value))
    : result (list (option (list bytes))) :=
  bound_args ← bind_partial (_signature self) args kwargs;
  encoded_topics ← encode_loop (_types self) bound_args (_signature self) [];
  Ok (pop_trailing_None (length encoded_topics) encoded_topics).

(** The last loop of [decode_log_entry], over the names of all fields. *)
Fixpoint merge_decoded {V} (names : list string)
    (decoded_topics decoded_data : dict string V) (result_ : dict string V)
    : result (dict string V) :=
  match names with
  | [] => Ok result_
  | name :: names' =>
      match dict_get name decoded_topics with
      | Some v => merge_decoded names' decoded_topics decoded_data
                    (dict_setitem name v result_)
      | None =>
          v ← dict_getitem name decoded_data;
          merge_decoded names' decoded_topics decoded_data
            (dict_setitem name v result_)
      end
  end.

Definition decode_log_entry `{!Collaborators} (self : t)
    (topics : list bytes) (data : bytes) : result (dict string Value) :=
  if bool_decide (length topics ≠ size (_indexed self))
  then Raise (ValueError
         ("The number of topics in the log entry (" +:+ pretty (length topics)
          +:+ ") does not match the number of indexed fields in the event ("
          +:+ pretty (size (_indexed self)) +:+ ")"))
  else
    decoded_topics ←
      mapM (λ '(name, topic),
              tp ← dict_getitem name (_types self);
              v ← decode_from_topic tp topic;
              Ok (name, v))
        (zip (map Param_name (_signature self)) topics);
    let decoded_topics := dict_of_pairs decoded_topics in
    decoded_data_tuple ← decode_args (dict_values (_types_nonindexed self)) data;
    let decoded_data :=
      dict_of_pairs (zip (dict_keys (_types_nonindexed self)) decoded_data_tuple) in
    merge_decoded (dict_keys (_types self)) decoded_topics decoded_data [].

Definition canonical_form `{!Collaborators} (self : t) : string :=
  "(" +:+ String.concat ","
            (map canonical_form (dict_values (_types self))) +:+ ")".

End EventSignature.

(** ** [ConstructorCall] and [MethodCall] *)

Module ConstructorCall.

Record t : Type := { input_bytes : bytes }.

End ConstructorCall.

Module MethodCall.

Record t : Type := { data_bytes : bytes }.

End MethodCall.

(** ** [Constructor] *)

Module Constructor.

Record t_ {T : Type} : Type := {
  inputs : Signature.t_ T;
  payable : bool;
}.

Arguments t_ : clear implicits.

Abbreviation t := (t_ ABIType).

Definition __init__ `{!Collaborators}
    (inputs : Params ABIType) (payable : bool) : result t :=
  inputs ← Signature.__init__ inputs;
  Ok {| inputs := inputs; payable := payable |}.

Definition from_json `{!Collaborators} (method_entry : dict string JSON)
    : result t :=
  type ← dict_getitem "type" method_entry;
  if negb (json_eq_str type "constructor")
  then Raise (ValueError
    "Constructor object must be created from a JSON entry with type='constructor'")
  else if dict_contains "name" method_entry
  then Raise (ValueError "Constructor's JSON entry cannot have a `name`")
  else if match dict_get "outputs" method_entry with
          | Some outputs => truthy outputs
          | None => false
          end
  then Raise (ValueError "Constructor's JSON entry cannot have non-empty `outputs`")
  else
    stateMutability ← dict_getitem "stateMutability" method_entry;
    if negb (json_eq_str stateMutability "nonpayable"
             || json_eq_str stateMutability "payable")
    then Raise (ValueError
      "Constructor's JSON entry state mutability must be `nonpayable` or `payable`")
    else
      inputs ← dispatch_types (default (JList []) (dict_get "inputs" method_entry));
      let payable := json_eq_str stateMutability "payable" in
      __init__ inputs payable.

Definition __call__ `{!Collaborators, !Encoder} (self : t) (args : list Value)
    (kwargs : dict string Value) : result ConstructorCall.t :=
  input_bytes ← Signature.encode (inputs self) args kwargs;
  Ok {| ConstructorCall.input_bytes := input_bytes |}.

End Constructor.

(** ** [Mutability] *)

Module Mutability.

Inductive t : Type :=
| PURE
| VIEW
| NONPAYABLE
| PAYABLE.

Definition from_json (entry : JSON) : result t :=
  if json_eq_str entry "pure" then Ok PURE
  else if json_eq_str entry "view" then Ok VIEW
  else if json_eq_str entry "nonpayable" then Ok NONPAYABLE
  else if json_eq_str entry "payable" then Ok PAYABLE
  else Raise (ValueError "Unknown mutability identifier").

Definition payable (self : t) : bool :=
  match self with
  | PAYABLE => true
  | _ => false
  end.

Definition mutating (self : t) : bool :=
  match self with
  | PAYABLE | NONPAYABLE => true
  | _ => false
  end.

(** The value of a member of the enumeration *)
Definition value (self : t) : string :=
  match self with
  | PURE => "pure"
  | VIEW => "view"
  | NONPAYABLE => "nonpayable"
  | PAYABLE => "payable"
  end.

End Mutability.

(** ** [Method] *)

(** [Union[Mapping[str, Type], Sequence[Type], Type, None]], the [outputs]
    argument of [Method]: [isinstance(outputs, Type)] is the second case. *)
Inductive Outputs (T : Type) : Type :=
| OutputsNone
| OutputsType (tp : T)
| OutputsParams (ps : Params T).

Arguments OutputsNone {T}.
Arguments OutputsType {T} tp.
Arguments OutputsParams {T} ps.

(** What [decode_output] returns: the tuple of the decoded values or,
    unwrapped, one of them. *)
Inductive Output (V : Type) : Type :=
| Tuple (values : list V)
| Bare (value : V).

Arguments Tuple {V} values.
Arguments Bare {V} value.

Module Method.

Record t_ {T : Type} : Type := {
  _name : string;
  _inputs : Signature.t_ T;
  _mutability : Mutability.t;
  payable : bool;
  mutating : bool;
  _single_output : bool;
  outputs : Signature.t_ T;
}.

Arguments t_ : clear implicits.

Abbreviation t := (t_ ABIType).

Definition __init__ `{!Collaborators} (name : string)
    (mutability : Mutability.t) (inputs : Params ABIType)
    (outputs : Outputs ABIType) : result t :=
  inputs ← Signature.__init__ inputs;
  let outputs :=
    match outputs with
    | OutputsNone => OutputsParams (Positional [])
    | _ => outputs
    end in
  let '(outputs, single_output) :=
    match outputs return Params ABIType * bool with
    | OutputsType tp => (Positional [tp], true)
    | OutputsParams ps => (ps, false)
    | OutputsNone => (Positional [], false)
    end in
  outputs ← Signature.__init__ outputs;
  Ok {| _name := name;
        _inputs := inputs;
        _mutability := mutability;
        payable := Mutability.payable mutability;
        mutating := Mutability.mutating mutability;
        _single_output := single_output;
        outputs := outputs |}.

(** [all(entry["name"] == "" for entry in outputs)], which stops at the
    first entry with a name. *)
Fixpoint all_unnamed (outputs : list JSON) : result bool :=
  match outputs with
  | [] => Ok true
  | entry :: outputs' =>
      entry ← as_dict entry;
      name ← dict_getitem "name" entry;
      if json_eq_str name EmptyString then all_unnamed outputs' else Ok false
  end.

Definition from_json `{!Collaborators} (method_entry : dict string JSON)
    : result t :=
  type ← dict_getitem "type" method_entry;
  if negb (json_eq_str type "function")
  then Raise (ValueError
    "Method object must be created from a JSON entry with type='function'")
  else
    name ← dict_getitem "name" method_entry ≫= as_str;
    inputs ← dict_getitem "inputs" method_entry ≫= dispatch_types;
    mutability ← dict_getitem "stateMutability" method_entry ≫= Mutability.from_json;
    outputs ←
      match dict_get "outputs" method_entry with
      | None => Ok (Positional [])
      | Some outputs =>
          entries ← as_list outputs;
          unnamed ← all_unnamed entries;
          if (unnamed : bool)
          then tps ← mapM dispatch_type entries; Ok (Positional tps)
          else dispatch_types outputs
      end;
    __init__ name mutability inputs (OutputsParams outputs).

Definition name `{!Collaborators} (self : t) : string := _name self.

Definition inputs `{!Collaborators} (self : t) : Signature.t := _inputs self.

Definition selector `{!Collaborators} (self : t) : bytes :=
  take 4 (keccak (encode (name self)
                  ++ encode (Signature.canonical_form (inputs self)))).

Definition decode_output `{!Collaborators} (self : t) (output_bytes : bytes)
    : result (Output Value) :=
  results ← Signature.decode_into_tuple (outputs self) output_bytes;
  if _single_output self
  then
    match results with
    | value :: _ => Ok (Bare value)
    | [] => Raise (IndexError "tuple index out of range")
    end
  else Ok (Tuple results).

Definition _encode_call `{!Collaborators, !Encoder} (self : t) (args : list Value)
    (kwargs : dict string Value) : result bytes :=
  input_bytes ← Signature.encode (inputs self) args kwargs;
  Ok (selector self ++ input_bytes).

Definition __call__ `{!Collaborators, !Encoder} (self : t) (args : list Value)
    (kwargs : dict string Value) : result MethodCall.t :=
  data_bytes ← _encode_call self args kwargs;
  Ok {| MethodCall.data_bytes := data_bytes |}.

End Method.

(** ** [Event] and [EventFilter] *)

Module EventFilter.

Record t : Type := { topics : list (option (list LogTopic)) }.

End EventFilter.

Module Event.

Record t_ {T : Type} : Type := {
  name : string;
  indexed : gset string;
  fields : EventSignature.t_ T;
  anonymous : bool;
}.

Arguments t_ : clear implicits.

Abbreviation t := (t_ ABIType).

Definition __init__ `{!Collaborators} (name : string)
    (fields : dict string ABIType) (indexed : gset string) (anonymous : bool)
    : result t :=
  if anonymous && bool_decide (4 < size indexed)
  then Raise (ValueError "Anonymous events can have at most 4 indexed fields")
  else if negb anonymous && bool_decide (3 < size indexed)
  then Raise (ValueError "Non-anonymous events can have at most 3 indexed fields")
  else
    fields_ ← EventSignature.__init__ fields indexed;
    Ok {| name := name;
          indexed := indexed;
          fields := fields_;
          anonymous := anonymous |}.

(** [{input_["name"] for input_ in inputs if input_["indexed"]}] *)
Fixpoint indexed_names (inputs : list JSON) : result (gset string) :=
  match inputs with
  | [] => Ok ∅
  | input_ :: inputs' =>
      input_ ← as_dict input_;
      is_indexed ← dict_getitem "indexed" input_;
      if truthy is_indexed
      then
        name ← dict_getitem "name" input_ ≫= as_str;
        names ← indexed_names inputs';
        Ok ({[ name ]} ∪ names)
      else indexed_names inputs'
  end.

Definition from_json `{!Collaborators} (event_entry : dict string JSON)
    : result t :=
  type ← dict_getitem "type" event_entry;
  if negb (json_eq_str type "event")
  then Raise (ValueError
    "Event object must be created from a JSON entry with type='event'")
  else
    name ← dict_getitem "name" event_entry ≫= as_str;
    fields ← dict_getitem "inputs" event_entry ≫= dispatch_types;
    match fields with
    | Positional _ => Raise (ValueError "Event fields must be named")
    | Named fields =>
        inputs ← dict_getitem "inputs" event_entry ≫= as_list;
        indexed ← indexed_names inputs;
        anonymous ← dict_getitem "anonymous" event_entry;
        __init__ name fields indexed (truthy anonymous)
    end.

Definition _topic `{!Collaborators} (self : t) : LogTopic :=
  {| LogTopic_bytes :=
       keccak (encode (name self)
               ++ encode (EventSignature.canonical_form (fields self))) |}.

Definition __call__ `{!Collaborators} (self : t)
    (args : list (Arg Value)) (kwargs : dict string (Arg Value))
    : result EventFilter.t :=
  encoded_topics ← EventSignature.encode_to_topics (fields self) args kwargs;
  let log_topics : list (option (list LogTopic)) := [] in
  let log_topics :=
    if negb (anonymous self) then log_topics ++ [Some [_topic self]]
    else log_topics in
  let log_topics :=
    fold_left
      (λ log_topics topic,
         match topic with
         | None => log_topics ++ [None]
         | Some elems => log_topics ++ [Some (map Build_LogTopic elems)]
         end)
      encoded_topics log_topics in
  Ok {| EventFilter.topics := log_topics |}.

Definition decode_log_entry `{!Collaborators} (self : t) (log_entry : LogEntry.t)
    : result (dict string Value) :=
  let topics := LogEntry.topics log_entry in
  topics ←
    (if negb (anonymous self)
     then
       topic0 ← match topics with
                | topic0 :: _ => Ok topic0
                | [] => Raise (IndexError "tuple index out of range")
                end;
       if bool_decide (topic0 ≠ _topic self)
       then Raise (ValueError "This log entry belongs to a different event")
       else Ok (drop 1 topics)
     else Ok topics);
  EventSignature.decode_log_entry (fields self)
    (map LogTopic_bytes topics) (LogEntry.data log_entry).

End Event.

(** ** [Error] *)

Module Error.

Record t_ {T : Type} : Type := {
  name : string;
  fields : Signature.t_ T;
}.

Arguments t_ : clear implicits.

Abbreviation t := (t_ ABIType).

Definition __init__ `{!Collaborators} (name : string)
    (fields : dict string ABIType) : result t :=
  fields_ ← Signature.__init__ (Named fields);
  Ok {| name := name; fields := fields_ |}.

Definition from_json `{!Collaborators} (error_entry : dict string JSON)
    : result t :=
  type ← dict_getitem "type" error_entry;
  if negb (json_eq_str type "error")
  then Raise (ValueError
    "Error object must be created from a JSON entry with type='error'")
  else
    name ← dict_getitem "name" error_entry ≫= as_str;
    fields ← dict_getitem "inputs" error_entry ≫= dispatch_types;
    match fields with
    | Positional _ => Raise (ValueError "Error fields must be named")
    | Named fields => __init__ name fields
    end.

Definition selector `{!Collaborators} (self : t) : bytes :=
  take 4 (keccak (encode (name self)
                  ++ encode (Signature.canonical_form (fields self)))).

Definition decode_fields `{!Collaborators} (self : t) (data_bytes : bytes)
    : result (dict string Value) :=
  Signature.decode_into_dict (fields self) data_bytes.

End Error.

(** ** [Fallback] and [Receive] *)

Module Fallback.

Record t : Type := { payable : bool }.

Definition from_json (method_entry : dict string JSON) : result t :=
  type ← dict_getitem "type" method_entry;
  if negb (json_eq_str type "fallback")
  then Raise (ValueError
    "Fallback object must be created from a JSON entry with type='fallback'")
  else
    stateMutability ← dict_getitem "stateMutability" method_entry;
    if negb (json_eq_str stateMutability "nonpayable"
             || json_eq_str stateMutability "payable")
    then Raise (ValueError
      "Fallback method's JSON entry state mutability must be `nonpayable` or `payable`")
    else Ok {| payable := json_eq_str stateMutability "payable" |}.

End Fallback.

Module Receive.

Record t : Type := { payable : bool }.

Definition from_json (method_entry : dict string JSON) : result t :=
  type ← dict_getitem "type" method_entry;
  if negb (json_eq_str type "receive")
  then Raise (ValueError
    "Receive object must be created from a JSON entry with type='fallback'")
  else
    stateMutability ← dict_getitem "stateMutability" method_entry;
    if negb (json_eq_str stateMutability "nonpayable"
             || json_eq_str stateMutability "payable")
    then Raise (ValueError
      "Receive method's JSON entry state mutability must be `nonpayable` or `payable`")
    else Ok {| payable := json_eq_str stateMutability "payable" |}.

End Receive.

(** ** [Methods]: named entities, iterated in the order of the dictionary *)

Module Methods.

Record t (MethodType : Type) : Type := {
  _methods_dict : dict string MethodType;
}.

Arguments _methods_dict {MethodType} _.

Definition __getattr__ {MethodType} (self : t MethodType) (method_name : string)
    : result MethodType :=
  dict_getitem method_name (_methods_dict self).

Definition __iter__ {MethodType} (self : t MethodType) : list MethodType :=
  dict_values (_methods_dict self).

End Methods.

(** ** The built-in errors

    [Error("Panic", dict(code=abi.uint(256)))] and
    [Error("Error", dict(message=abi.string))], the values the two module
    constants hold once the module is loaded. *)

Definition PANIC_ERROR `{!Collaborators} : Error.t :=
  {| Error.name := "Panic";
     Error.fields :=
       {| Signature._signature :=
            [ {| Param_name := "code"; Param_kind := POSITIONAL_OR_KEYWORD |} ];
          Signature._types := [abi_uint 256];
          Signature._named_parameters := true |} |}.

Definition LEGACY_ERROR `{!Collaborators} : Error.t :=
  {| Error.name := "Error";
     Error.fields :=
       {| Signature._signature :=
            [ {| Param_name := "message"; Param_kind := POSITIONAL_OR_KEYWORD |} ];
          Signature._types := [abi_string];
          Signature._named_parameters := true |} |}.

(** ** [ContractABI] *)

(** The value of [Constructor(inputs=[])]: no parameters, not payable. *)
Definition default_constructor `{!Collaborators} : Constructor.t :=
  {| Constructor.inputs :=
       {| Signature._signature := [];
          Signature._types := [];
          Signature._named_parameters := false |};
     Constructor.payable := false |}.

Module ContractABI.

Record t_ {T : Type} : Type := {
  constructor : Constructor.t_ T;
  fallback : option Fallback.t;
  receive : option Receive.t;
  method : Methods.t (Method.t_ T);
  event : Methods.t (Event.t_ T);
  error : Methods.t (Error.t_ T);
  _error_by_selector : dict bytes (Error.t_ T);
}.

Arguments t_ : clear implicits.

Abbreviation t := (t_ ABIType).

Definition __init__ `{!Collaborators}
    (constructor : option Constructor.t) (fallback : option Fallback.t)
    (receive : option Receive.t) (methods : option (list Method.t))
    (events : option (list Event.t)) (errors : option (list Error.t))
    : result t :=
  constructor ←
    match constructor with
    | None => Constructor.__init__ (Positional []) false
    | Some constructor => Ok constructor
    end;
  let method :=
    {| Methods._methods_dict :=
         dict_of_pairs (map (λ method, (Method.name method, method))
                          (default [] methods)) |} in
  let event :=
    {| Methods._methods_dict :=
         dict_of_pairs (map (λ event, (Event.name event, event))
                          (default [] events)) |} in
  let error :=
    {| Methods._methods_dict :=
         dict_of_pairs (map (λ error, (Error.name error, error))
                          (default [] errors)) |} in
  Ok {| constructor := constructor;
        fallback := fallback;
        receive := receive;
        method := method;
        event := event;
        error := error;
        _error_by_selector :=
          dict_of_pairs
            (map (λ error, (Error.selector error, error))
               ([PANIC_ERROR; LEGACY_ERROR] ++ Methods.__iter__ error)) |}.

(** The state of the loop of [from_json]. *)
Record parsed_ {T : Type} : Type := {
  p_constructor : option (Constructor.t_ T);
  p_fallback : option Fallback.t;
  p_receive : option Receive.t;
  p_methods : dict string (Method.t_ T);
  p_events : dict string (Event.t_ T);
  p_errors : dict string (Error.t_ T);
}.

Arguments parsed_ : clear implicits.

Abbreviation parsed := (parsed_ ABIType).

(** [str(j)] inside a message; a list or dictionary is abbreviated. *)
Definition str (j : JSON) : string :=
  match j with
  | JNull => "None"
  | JBool true => "True"
  | JBool false => "False"
  | JInt n => pretty n
  | JStr s => s
  | JList _ => "[...]"
  | JDict _ => "{...}"
  end.

Definition duplicate_name (name : string) : exn :=
  ValueError ("JSON ABI contains more than one declarations of `" +:+ name +:+ "`").

(** One iteration of the loop of [from_json]. *)
Definition from_json_entry `{!Collaborators} (st : parsed)
    (entry : dict string JSON) : result parsed :=
  type ← dict_getitem "type" entry;
  if json_eq_str type "constructor" then
    if bool_decide (is_Some (p_constructor st))
    then Raise (ValueError "JSON ABI contains more than one constructor declarations")
    else
      constructor ← Constructor.from_json entry;
      Ok {| p_constructor := Some constructor; p_fallback := p_fallback st;
            p_receive := p_receive st; p_methods := p_methods st;
            p_events := p_events st; p_errors := p_errors st |}
  else if json_eq_str type "function" then
    name ← dict_getitem "name" entry ≫= as_str;
    if dict_contains name (p_methods st)
    then Raise (duplicate_name name)
    else
      method ← Method.from_json entry;
      Ok {| p_constructor := p_constructor st; p_fallback := p_fallback st;
            p_receive := p_receive st;
            p_methods := dict_setitem name method (p_methods st);
            p_events := p_events st; p_errors := p_errors st |}
  else if json_eq_str type "fallback" then
    if bool_decide (is_Some (p_fallback st))
    then Raise (ValueError "JSON ABI contains more than one fallback declarations")
    else
      fallback ← Fallback.from_json entry;
      Ok {| p_constructor := p_constructor st; p_fallback := Some fallback;
            p_receive := p_receive st; p_methods := p_methods st;
            p_events := p_events st; p_errors := p_errors st |}
  else if json_eq_str type "receive" then
    if bool_decide (is_Some (p_receive st))
    then Raise (ValueError
      "JSON ABI contains more than one receive method declarations")
    else
      receive ← Receive.from_json entry;
      Ok {| p_constructor := p_constructor st; p_fallback := p_fallback st;
            p_receive := Some receive; p_methods := p_methods st;
            p_events := p_events st; p_errors := p_errors st |}
  else if json_eq_str type "event" then
    name ← dict_getitem "name" entry ≫= as_str;
    if dict_contains name (p_events st)
    then Raise (duplicate_name name)
    else
      event ← Event.from_json entry;
      Ok {| p_constructor := p_constructor st; p_fallback := p_fallback st;
            p_receive := p_receive st; p_methods := p_methods st;
            p_events := dict_setitem name event (p_events st);
            p_errors := p_errors st |}
  else if json_eq_str type "error" then
    name ← dict_getitem "name" entry ≫= as_str;
    if dict_contains name (p_errors st)
    then Raise (duplicate_name name)
    else
      error ← Error.from_json entry;
      Ok {| p_constructor := p_constructor st; p_fallback := p_fallback st;
            p_receive := p_receive st; p_methods := p_methods st;
            p_events := p_events st;
            p_errors := dict_setitem name error (p_errors st) |}
  else Raise (ValueError ("Unknown ABI entry type: " +:+ str type)).

Fixpoint from_json_loop `{!Collaborators} (json_abi : list (dict string JSON))
    (st : parsed) : result parsed :=
  match json_abi with
  | [] => Ok st
  | entry :: json_abi' =>
      st' ← from_json_entry st entry;
      from_json_loop json_abi' st'
  end.

Definition from_json `{!Collaborators} (json_abi : list (dict string JSON))
    : result t :=
  st ← from_json_loop json_abi
         {| p_constructor := None; p_fallback := None; p_receive := None;
            p_methods := []; p_events := []; p_errors := [] |};
  __init__ (p_constructor st) (p_fallback st) (p_receive st)
    (Some (dict_values (p_methods st))) (Some (dict_values (p_events st)))
    (Some (dict_values (p_errors st))).

Definition resolve_error `{!Collaborators} (self : t) (error_data : bytes)
    : result (Error.t * dict string Value) :=
  if bool_decide (length error_data < 4)
  then Raise (ValueError "Error data too short to contain a selector")
  else
    let '(selector, data) := (take 4 error_data, drop 4 error_data) in
    match dict_get selector (_error_by_selector self) with
    | Some error =>
        decoded ← Error.decode_fields error data;
        Ok (error, decoded)
    | None =>
        Raise (UnknownError ("Could not find an error with selector "
                             +:+ hex selector +:+ " in the ABI"))
    end.

End ContractABI.

(** * A reference implementation of the collaborators

    Used to run the model on concrete inputs: Keccak-256 as the hash, the
    head/tail layout of the contract ABI for a few types, and identifiers
    restricted to ASCII. *)

(** ** Keccak-256 *)

Module Keccak.

Local Open Scope N_scope.

Definition lane_mask : N := 0xFFFFFFFFFFFFFFFF.

Definition rotl (w : N) (r : N) : N :=
  N.land (N.lor (N.shiftl w r) (N.shiftr w (64 - r))) lane_mask.

(** The state is the list of the 25 lanes, lane [(x, y)] at [x + 5 * y]. *)
Definition lane (st : list N) (x y : nat) : N :=
  nth (x mod 5 + 5 * (y mod 5))%nat st 0.

Definition round_constants : list N :=
  [ 0x0000000000000001; 0x0000000000008082; 0x800000000000808A;
    0x8000000080008000; 0x000000000000808B; 0x0000000080000001;
    0x8000000080008081; 0x8000000000008009; 0x000000000000008A;
    0x0000000000000088; 0x0000000080008009; 0x000000008000000A;
    0x000000008000808B; 0x800000000000008B; 0x8000000000008089;
    0x8000000000008003; 0x8000000000008002; 0x8000000000000080;
    0x000000000000800A; 0x800000008000000A; 0x8000000080008081;
    0x8000000000008080; 0x0000000080000001; 0x8000000080008008 ].

Definition rotation_offsets : list N :=
  [ 0; 1; 62; 28; 27;
    36; 44; 6; 55; 20;
    3; 10; 43; 25; 39;
    41; 45; 15; 21; 8;
    18; 2; 61; 56; 14 ].

Definition coords : list (nat * nat) :=
  flat_map (λ y, map (λ x, (x, y)) (seq 0 5)) (seq 0 5).

Definition theta (st : list N) : list N :=
  let c x := fold_right N.lxor 0 (map (lane st x) (seq 0 5)) in
  let d x := N.lxor (c (x + 4)%nat) (rotl (c (x + 1)%nat) 1) in
  map (λ '(x, y), N.lxor (lane st x y) (d x)) coords.

(** Lane [(X, Y)] of the result is the rotated lane [(x, y)] with [y = X]
    and [x = X + 3 Y]. *)
Definition rho_pi (st : list N) : list N :=
  map (λ '(X, Y),
         let x := ((X + 3 * Y) mod 5)%nat in
         let y := X in
         rotl (lane st x y) (nth (x + 5 * y)%nat rotation_offsets 0))
    coords.

Definition chi (st : list N) : list N :=
  map (λ '(x, y),
         N.lxor (lane st x y)
           (N.land (N.lxor (lane st (x + 1) y) lane_mask) (lane st (x + 2) y)))
    coords.

Definition iota (rc : N) (st : list N) : list N :=
  match st with
  | [] => []
  | a :: st' => N.lxor a rc :: st'
  end.

Definition keccak_f (st : list N) : list N :=
  fold_left (λ s rc, iota rc (chi (rho_pi (theta s)))) round_constants st.

Definition rate : nat := 136.

Fixpoint le_lane (bs : bytes) : N :=
  match bs with
  | [] => 0
  | b :: bs' => Byte.to_N b + 256 * le_lane bs'
  end.

Fixpoint lanes_of (n : nat) (bs : bytes) : list N :=
  match n with
  | O => []
  | S n' => le_lane (take 8 bs) :: lanes_of n' (drop 8 bs)
  end.

Fixpoint bytes_le (n : nat) (w : N) : bytes :=
  match n with
  | O => []
  | S n' => byte_of_N w :: bytes_le n' (w / 256)
  end.

Definition absorb (st : list N) (block : bytes) : list N :=
  keccak_f (zip_with N.lxor st (lanes_of 25 block)).

Definition pad (msg : bytes) : bytes :=
  let q := (rate - length msg mod rate)%nat in
  match q with
  | 1%nat => msg ++ [byte_of_N 0x81]
  | _ => msg ++ [x01] ++ repeat x00 (q - 2) ++ [byte_of_N 0x80]
  end.

Fixpoint absorb_all (fuel : nat) (st : list N) (bs : bytes) : list N :=
  match fuel with
  | O => st
  | S fuel' =>
      match bs with
      | [] => st
      | _ => absorb_all fuel' (absorb st (take rate bs)) (drop rate bs)
      end
  end.

Definition keccak256 (msg : bytes) : bytes :=
  let p := pad msg in
  let st := absorb_all (length p) (repeat 0 25) p in
  flat_map (bytes_le 8) (take 4 st).

End Keccak.

(** ** A codec for a few types *)

Module Reference.

Inductive type : Type :=
| uint (bits : N)
| address
| bool_
| string_
| bytes_.

Inductive value : Type :=
| VInt (n : Z)
| VAddress (b : bytes)
| VBool (b : bool)
| VStr (s : string)
| VBytes (b : bytes)
| VNone.

Definition type_canonical_form (tp : type) : string :=
  match tp with
  | uint bits => "uint" +:+ pretty bits
  | address => "address"
  | bool_ => "bool"
  | string_ => "string"
  | bytes_ => "bytes"
  end.

Definition is_dynamic (tp : type) : bool :=
  match tp with
  | string_ | bytes_ => true
  | _ => false
  end.

(** Big-endian integers *)
Fixpoint be_int (acc : Z) (bs : bytes) : Z :=
  match bs with
  | [] => acc
  | b :: bs' => be_int (256 * acc + Z.of_N (Byte.to_N b)) bs'
  end.

Fixpoint int_be (n : nat) (z : Z) (acc : bytes) : bytes :=
  match n with
  | O => acc
  | S n' => int_be n' (z / 256) (byte_of_N (Z.to_N (z mod 256)) :: acc)
  end.

(** The 32-byte word at offset [pos] *)
Definition word_at (pos : nat) (bs : bytes) : result bytes :=
  if bool_decide (pos + 32 ≤ length bs)
  then Ok (take 32 (drop pos bs))
  else Raise (ValueError "insufficient data bytes").

Definition decode_word (tp : type) (word : bytes) : result value :=
  match tp with
  | uint bits =>
      let n := be_int 0 word in
      if (n <? 2 ^ Z.of_N bits)%Z then Ok (VInt n)
      else Raise (ValueError "value out of the range of the type")
  | address =>
      if bool_decide (take 12 word = repeat x00 12) then Ok (VAddress (drop 12 word))
      else Raise (ValueError "non-zero padding of an address")
  | bool_ =>
      let n := be_int 0 word in
      if (n =? 0)%Z then Ok (VBool false)
      else if (n =? 1)%Z then Ok (VBool true)
      else Raise (ValueError "not a boolean")
  | _ => Raise (ValueError "not a static type")
  end.

Definition decode_dynamic (tp : type) (offset : nat) (bs : bytes) : result value :=
  len_word ← word_at offset bs;
  let len := Z.to_nat (be_int 0 len_word) in
  if bool_decide (offset + 32 + len ≤ length bs)
  then
    let content := take len (drop (offset + 32) bs) in
    match tp with
    | string_ => Ok (VStr (string_of_list_byte content))
    | _ => Ok (VBytes content)
    end
  else Raise (ValueError "insufficient data bytes").

Fixpoint decode_heads (tps : list type) (pos : nat) (bs : bytes)
    : result (list value) :=
  match tps with
  | [] => Ok []
  | tp :: tps' =>
      word ← word_at pos bs;
      v ← (if is_dynamic tp
           then decode_dynamic tp (Z.to_nat (be_int 0 word)) bs
           else decode_word tp word);
      vs ← decode_heads tps' (pos + 32) bs;
      Ok (v :: vs)
  end.

Definition type_decode_args (tps : list type) (bs : bytes) : result (list value) :=
  decode_heads tps 0 bs.

Definition type_encode_to_topic (tp : type) (v : value) : result bytes :=
  match tp, v with
  | uint bits, VInt n =>
      if ((0 <=? n) && (n <? 2 ^ Z.of_N bits))%Z then Ok (int_be 32 n [])
      else Raise (ValueError "value out of the range of the type")
  | address, VAddress b =>
      if bool_decide (length b = 20) then Ok (repeat x00 12 ++ b)
      else Raise (ValueError "an address has 20 bytes")
  | bool_, VBool b => Ok (int_be 32 (if b then 1 else 0) [])
  | string_, VStr s => Ok (Keccak.keccak256 (encode s))
  | bytes_, VBytes b => Ok (Keccak.keccak256 b)
  | _, _ => Raise (TypeError "the value does not have the type of the field")
  end.

Definition type_decode_from_topic (tp : type) (topic : bytes) : result value :=
  if is_dynamic tp then Ok VNone else decode_word tp topic.

(** [dispatch_type]: the type named by the ["type"] member of an entry. *)
Definition type_of_name (name : string) : result type :=
  if String.eqb name "uint256" then Ok (uint 256)
  else if String.eqb name "uint128" then Ok (uint 128)
  else if String.eqb name "uint64" then Ok (uint 64)
  else if String.eqb name "uint32" then Ok (uint 32)
  else if String.eqb name "uint8" then Ok (uint 8)
  else if String.eqb name "address" then Ok address
  else if String.eqb name "bool" then Ok bool_
  else if String.eqb name "string" then Ok string_
  else if String.eqb name "bytes" then Ok bytes_
  else Raise (ValueError ("Unknown type: " +:+ name)).

Definition type_dispatch (entry : JSON) : result type :=
  entry ← as_dict entry;
  name ← dict_getitem "type" entry ≫= as_str;
  type_of_name name.

(** [dispatch_types]: a list when no entry is named, a dictionary when all
    are, with distinct names. *)
Definition types_dispatch (entries : JSON) : result (Params type) :=
  entries ← as_list entries;
  names ← mapM (λ entry, entry ← as_dict entry;
                         dict_getitem "name" entry ≫= as_str) entries;
  tps ← mapM type_dispatch entries;
  if forallb (λ name, String.eqb name EmptyString) names
  then Ok (Positional tps)
  else if existsb (λ name, String.eqb name EmptyString) names
  then Raise (ValueError "Arguments must be either all named or all unnamed")
  else if bool_decide (NoDup names)
  then Ok (Named (zip names tps))
  else Raise (ValueError "All ABI entries must have distinct names").

(** Identifiers, ASCII only. *)
Definition is_letter (c : ascii) : bool :=
  let n := N_of_ascii c in
  ((65 <=? n) && (n <=? 90) || (97 <=? n) && (n <=? 122) || (n =? 95))%N.

Definition is_digit (c : ascii) : bool :=
  let n := N_of_ascii c in
  ((48 <=? n) && (n <=? 57))%N.

Definition ascii_isidentifier (s : string) : bool :=
  match s with
  | EmptyString => false
  | String c s' =>
      is_letter c
      && forallb (λ c, is_letter c || is_digit c) (list_ascii_of_string s')
  end.

#[export] Instance collaborators : Collaborators := {|
  ABIType := type;
  Value := value;
  canonical_form := type_canonical_form;
  encode_to_topic := type_encode_to_topic;
  decode_from_topic := type_decode_from_topic;
  decode_args := type_decode_args;
  dispatch_type := type_dispatch;
  dispatch_types := types_dispatch;
  keccak := Keccak.keccak256;
  abi_uint := uint;
  abi_string := string_;
  isidentifier := ascii_isidentifier;
|}.

(** [encode_args] for the same types: the heads, then the tails of the
    dynamic values. *)
Definition encode_static (tp : type) (v : value) : result bytes :=
  match tp, v with
  | uint bits, VInt n =>
      if ((0 <=? n) && (n <? 2 ^ Z.of_N bits))%Z then Ok (int_be 32 n [])
      else Raise (ValueError "value out of the range of the type")
  | address, VAddress b =>
      if bool_decide (length b = 20) then Ok (repeat x00 12 ++ b)
      else Raise (ValueError "an address has 20 bytes")
  | bool_, VBool b => Ok (int_be 32 (if b then 1 else 0) [])
  | _, _ => Raise (TypeError "the value does not have the type of the field")
  end.

Definition encode_dynamic (tp : type) (v : value) : result bytes :=
  let padded content :=
    int_be 32 (Z.of_nat (length content)) [] ++ content
    ++ repeat x00 ((32 - length content mod 32) mod 32) in
  match tp, v with
  | string_, VStr s => Ok (padded (encode s))
  | bytes_, VBytes b => Ok (padded b)
  | _, _ => Raise (TypeError "the value does not have the type of the field")
  end.

Fixpoint encode_items (items : list (type * value)) (tail_offset : nat)
    : result (bytes * bytes) :=
  match items with
  | [] => Ok ([], [])
  | (tp, v) :: items' =>
      if is_dynamic tp
      then
        tail ← encode_dynamic tp v;
        '(heads, tails) ← encode_items items' (tail_offset + length tail);
        Ok (int_be 32 (Z.of_nat tail_offset) [] ++ heads, tail ++ tails)
      else
        head ← encode_static tp v;
        '(heads, tails) ← encode_items items' tail_offset;
        Ok (head ++ heads, tails)
  end.

Definition type_encode_args (items : list (type * value)) : result bytes :=
  '(heads, tails) ← encode_items items (32 * length items);
  Ok (heads ++ tails).

#[export] Instance encoder : Encoder := {| encode_args := type_encode_args |}.

End Reference.

(** ** Concrete inputs *)

Module Examples.

Import Reference.

(** [ContractABI()] *)
Definition empty_abi : ContractABI.t :=
  {| ContractABI.constructor := default_constructor;
     ContractABI.fallback := None;
     ContractABI.receive := None;
     ContractABI.method := {| Methods._methods_dict := [] |};
     ContractABI.event := {| Methods._methods_dict := [] |};
     ContractABI.error := {| Methods._methods_dict := [] |};
     ContractABI._error_by_selector :=
       [ (fromhex "4e487b71", PANIC_ERROR); (fromhex "08c379a0", LEGACY_ERROR) ] |}.

(** [Error("Panic", dict(x=abi.uint(256)))]: the name and the canonical
    form, hence the selector, of [PANIC_ERROR], and another field name. *)
Definition shadow_panic : Error.t :=
  {| Error.name := "Panic";
     Error.fields :=
       {| Signature._signature :=
            [ {| Param_name := "x"; Param_kind := POSITIONAL_OR_KEYWORD |} ];
          Signature._types := [uint 256];
          Signature._named_parameters := true |} |}.

(** [ContractABI(errors=[shadow_panic])] *)
Definition shadow_abi : ContractABI.t :=
  {| ContractABI.constructor := default_constructor;
     ContractABI.fallback := None;
     ContractABI.receive := None;
     ContractABI.method := {| Methods._methods_dict := [] |};
     ContractABI.event := {| Methods._methods_dict := [] |};
     ContractABI.error := {| Methods._methods_dict := [("Panic", shadow_panic)] |};
     ContractABI._error_by_selector :=
       [ (fromhex "4e487b71", shadow_panic); (fromhex "08c379a0", LEGACY_ERROR) ] |}.

(** [Error("InsufficientBalance", dict(needed=abi.uint(256)))] and
    [ContractABI(errors=[insufficient_balance])] *)
Definition insufficient_balance : Error.t :=
  {| Error.name := "InsufficientBalance";
     Error.fields :=
       {| Signature._signature :=
            [ {| Param_name := "needed"; Param_kind := POSITIONAL_OR_KEYWORD |} ];
          Signature._types := [uint 256];
          Signature._named_parameters := true |} |}.

Definition custom_abi : ContractABI.t :=
  {| ContractABI.constructor := default_constructor;
     ContractABI.fallback := None;
     ContractABI.receive := None;
     ContractABI.method := {| Methods._methods_dict := [] |};
     ContractABI.event := {| Methods._methods_dict := [] |};
     ContractABI.error :=
       {| Methods._methods_dict := [("InsufficientBalance", insufficient_balance)] |};
     ContractABI._error_by_selector :=
       [ (fromhex "4e487b71", PANIC_ERROR); (fromhex "08c379a0", LEGACY_ERROR);
         (fromhex "92665351", insufficient_balance) ] |}.

(** The JSON entry of [function balance() view returns (uint256)], its
    one output unnamed, and the method [Method.from_json] makes of it. *)
Definition balance_entry : dict string JSON :=
  [ ("type", JStr "function");
    ("name", JStr "balance");
    ("inputs", JList []);
    ("stateMutability", JStr "view");
    ("outputs", JList [JDict [("name", JStr EmptyString); ("type", JStr "uint256")]]) ].

Definition balance_method : Method.t :=
  {| Method._name := "balance";
     Method._inputs :=
       {| Signature._signature := [];
          Signature._types := [];
          Signature._named_parameters := false |};
     Method._mutability := Mutability.VIEW;
     Method.payable := false;
     Method.mutating := false;
     Method._single_output := false;
     Method.outputs :=
       {| Signature._signature :=
            [ {| Param_name := "_0"; Param_kind := POSITIONAL_ONLY |} ];
          Signature._types := [uint 256];
          Signature._named_parameters := false |} |}.

(** [Method("balance", Mutability.VIEW, [], abi.uint(256))] *)
Definition balance_bare : Method.t :=
  {| Method._name := "balance";
     Method._inputs := Method._inputs balance_method;
     Method._mutability := Mutability.VIEW;
     Method.payable := false;
     Method.mutating := false;
     Method._single_output := true;
     Method.outputs := Method.outputs balance_method |}.

(** Five fields of type [uint256], and sets of indexed names *)
Definition five_fields : dict string ABIType :=
  [ ("a", uint 256); ("b", uint 256); ("c", uint 256); ("d", uint 256);
    ("e", uint 256) ].

Definition indexed_3 : gset string := {[ "a"; "b"; "c" ]}.

Definition indexed_4 : gset string := {[ "a"; "b"; "c"; "d" ]}.

Definition indexed_5 : gset string := {[ "a"; "b"; "c"; "d"; "e" ]}.

(** [Event("Transfer", dict(from=abi.address, to=abi.address,
    value=abi.uint(256)), indexed={"from", "to"})], the same event declared
    anonymous, and two addresses *)
Definition transfer_fields : dict string ABIType :=
  [ ("from", address); ("to", address); ("value", uint 256) ].

Definition transfer_indexed : gset string := {[ "from"; "to" ]}.

Definition transfer_signature : EventSignature.t :=
  {| EventSignature._signature :=
       [ {| Param_name := "from_"; Param_kind := POSITIONAL_OR_KEYWORD |};
         {| Param_name := "to"; Param_kind := POSITIONAL_OR_KEYWORD |} ];
     EventSignature._types :=
       [ ("from_", address); ("to", address); ("value", uint 256) ];
     EventSignature._types_nonindexed := [ ("value", uint 256) ];
     EventSignature._indexed := {[ "from_"; "to" ]} |}.

Definition transfer_event : Event.t :=
  {| Event.name := "Transfer";
     Event.indexed := transfer_indexed;
     Event.fields := transfer_signature;
     Event.anonymous := false |}.

Definition anonymous_transfer_event : Event.t :=
  {| Event.name := "Transfer";
     Event.indexed := transfer_indexed;
     Event.fields := transfer_signature;
     Event.anonymous := true |}.

Definition transfer_topic : LogTopic :=
  {| LogTopic_bytes :=
       fromhex "ddf252ad1be2c89b69c2b068fc378daa952ba7f163c4a11628f55a4df523b3ef" |}.

Definition alice : bytes := fromhex "00112233445566778899aabbccddeeff00112233".

Definition bob : bytes := fromhex "ffeeddccbbaa99887766554433221100ffeeddcc".

Definition alice_topic : bytes :=
  fromhex "00000000000000000000000000112233445566778899aabbccddeeff00112233".

Definition bob_topic : bytes :=
  fromhex "000000000000000000000000ffeeddccbbaa99887766554433221100ffeeddcc".

(** JSON entries of a constructor, of a fallback method and of the
    [balance] method, and the ABI of the last two *)
Definition constructor_entry : dict string JSON :=
  [ ("type", JStr "constructor");
    ("inputs", JList [JDict [("name", JStr "owner"); ("type", JStr "address")]]);
    ("stateMutability", JStr "nonpayable") ].

Definition fallback_entry : dict string JSON :=
  [ ("type", JStr "fallback"); ("stateMutability", JStr "payable") ].

Definition fallback_balance_abi : ContractABI.t :=
  {| ContractABI.constructor := default_constructor;
     ContractABI.fallback := Some {| Fallback.payable := true |};
     ContractABI.receive := None;
     ContractABI.method := {| Methods._methods_dict := [("balance", balance_method)] |};
     ContractABI.event := {| Methods._methods_dict := [] |};
     ContractABI.error := {| Methods._methods_dict := [] |};
     ContractABI._error_by_selector :=
       [ (fromhex "4e487b71", PANIC_ERROR); (fromhex "08c379a0", LEGACY_ERROR) ] |}.

(** The ABI encoding of the one value [17] *)
Definition word_17 : bytes :=
  fromhex "0000000000000000000000000000000000000000000000000000000000000011".

(** The revert data of [Panic(0x11)] *)
Definition panic_data : bytes :=
  fromhex "4e487b710000000000000000000000000000000000000000000000000000000000000011".

(** [Method("transfer", Mutability.NONPAYABLE, dict(to=abi.address,
    value=abi.uint(256)))]; [Method("transfer", Mutability.VIEW,
    [abi.address, abi.uint(256)], abi.bool)]; an error and a constructor
    with inputs of the same types *)
Definition transfer_inputs : dict string ABIType :=
  [ ("to", address); ("value", uint 256) ].

Definition transfer_method : Method.t :=
  {| Method._name := "transfer";
     Method._inputs :=
       {| Signature._signature :=
            [ {| Param_name := "to"; Param_kind := POSITIONAL_OR_KEYWORD |};
              {| Param_name := "value"; Param_kind := POSITIONAL_OR_KEYWORD |} ];
          Signature._types := [address; uint 256];
          Signature._named_parameters := true |};
     Method._mutability := Mutability.NONPAYABLE;
     Method.payable := false;
     Method.mutating := true;
     Method._single_output := false;
     Method.outputs :=
       {| Signature._signature := [];
          Signature._types := [];
          Signature._named_parameters := false |} |}.

Definition transfer_bare : Method.t :=
  {| Method._name := "transfer";
     Method._inputs :=
       {| Signature._signature :=
            [ {| Param_name := "_0"; Param_kind := POSITIONAL_ONLY |};
              {| Param_name := "_1"; Param_kind := POSITIONAL_ONLY |} ];
          Signature._types := [address; uint 256];
          Signature._named_parameters := false |};
     Method._mutability := Mutability.VIEW;
     Method.payable := false;
     Method.mutating := false;
     Method._single_output := true;
     Method.outputs :=
       {| Signature._signature :=
            [ {| Param_name := "_0"; Param_kind := POSITIONAL_ONLY |} ];
          Signature._types := [bool_];
          Signature._named_parameters := false |} |}.

Definition transfer_error : Error.t :=
  {| Error.name := "transfer";
     Error.fields :=
       {| Signature._signature :=
            [ {| Param_name := "a"; Param_kind := POSITIONAL_OR_KEYWORD |};
              {| Param_name := "b"; Param_kind := POSITIONAL_OR_KEYWORD |} ];
          Signature._types := [address; uint 256];
          Signature._named_parameters := true |} |}.

Definition transfer_constructor : Constructor.t :=
  {| Constructor.inputs := Method._inputs transfer_method;
     Constructor.payable := true |}.

(** The constructor of [constructor_entry], and the entry of a receive
    method *)
Definition owner_constructor : Constructor.t :=
  {| Constructor.inputs :=
       {| Signature._signature :=
            [ {| Param_name := "owner"; Param_kind := POSITIONAL_OR_KEYWORD |} ];
          Signature._types := [address];
          Signature._named_parameters := true |};
     Constructor.payable := false |}.

Definition receive_entry : dict string JSON :=
  [ ("type", JStr "receive"); ("stateMutability", JStr "payable") ].

(** An entry of a type that is not known *)
Definition struct_entry : dict string JSON :=
  [ ("type", JStr "struct"); ("name", JStr "S") ].

End Examples.

(** * Properties *)

(** ** The result monad *)

Lemma bind_Ok {A B} (f : A → result B) (m : result A) (b : B) :
  m ≫= f = Ok b → ∃ a, m = Ok a ∧ f a = Ok b.
Proof. destruct m as [a|e]; simpl; [eauto | discriminate]. Qed.

Lemma mapM_cons {A B} (f : A → result B) (x : A) (l : list A) :
  mapM f (x :: l) = (y ← f x; k ← mapM f l; Ok (y :: k)).
Proof. reflexivity. Qed.

Lemma bind_ret {A B} (f : A → result B) (a : A) : Ok a ≫= f = f a.
Proof. reflexivity. Qed.

(** ** Lists *)

Lemma elem_of_map {A B} (f : A → B) (l : list A) (y : B) :
  y ∈ map f l ↔ ∃ x, y = f x ∧ x ∈ l.
Proof.
  rewrite list_elem_of_In, in_map_iff. split.
  - intros (x & <- & Hin). exists x. rewrite list_elem_of_In. auto.
  - intros (x & -> & Hin). exists x. rewrite list_elem_of_In in Hin. auto.
Qed.

(** ** Dictionaries *)

Section dict_facts.
Context {K V : Type} `{EqDecision K}.
Implicit Types (k : K) (v : V) (d : dict K V) (l : list (K * V)).

Lemma dict_get_setitem k k' v d :
  dict_get k (dict_setitem k' v d)
  = if decide (k = k') then Some v else dict_get k d.
Proof.
  induction d as [|[k0 v0] d IH]; simpl.
  - reflexivity.
  - destruct (decide (k' = k0)) as [->|Hne]; simpl.
    + destruct (decide (k = k0)); reflexivity.
    + rewrite IH. destruct (decide (k = k0)) as [->|]; [|reflexivity].
      destruct (decide (k0 = k')); congruence.
Qed.

Lemma dict_of_pairs_snoc l k v :
  dict_of_pairs (l ++ [(k, v)]) = dict_setitem k v (dict_of_pairs l).
Proof. unfold dict_of_pairs. rewrite fold_left_app. reflexivity. Qed.

(** Looking a key up after [dict(pairs)] finds the last pair with it. *)
Lemma dict_get_of_pairs k l :
  dict_get k (dict_of_pairs l) = dict_get k (reverse l).
Proof.
  induction l as [|[k' v] l IH] using rev_ind.
  - reflexivity.
  - rewrite dict_of_pairs_snoc, dict_get_setitem, reverse_snoc. simpl.
    rewrite IH. reflexivity.
Qed.

Lemma dict_get_app k l1 l2 :
  dict_get k (l1 ++ l2)
  = match dict_get k l1 with
    | Some v => Some v
    | None => dict_get k l2
    end.
Proof.
  induction l1 as [|[k' v] l1 IH]; simpl; [reflexivity|].
  destruct (decide (k = k')); [reflexivity | exact IH].
Qed.

Lemma dict_get_None k l :
  dict_get k l = None ↔ ∀ v, (k, v) ∉ l.
Proof.
  induction l as [|[k' v'] l IH]; simpl.
  - split; [intros _ v Hin; inversion Hin | reflexivity].
  - destruct (decide (k = k')) as [->|Hne].
    + split; [discriminate|]. intros Hno. destruct (Hno v'). left.
    + rewrite IH. split; intros Hno v Hin.
      * apply elem_of_cons in Hin as [[=]|Hin]; [congruence|].
        exact (Hno v Hin).
      * apply (Hno v). right. exact Hin.
Qed.

Lemma elem_setitem k v k0 v0 d :
  (k0, v0) ∈ dict_setitem k v d → (k0, v0) ∈ d ∨ v0 = v.
Proof.
  induction d as [|[k' v'] d IH]; simpl.
  - intros Hin. apply list_elem_of_singleton in Hin as [= -> ->]. right; reflexivity.
  - destruct (decide (k = k')) as [->|Hne]; intros Hin;
      apply elem_of_cons in Hin as [[= -> ->]|Hin].
    + right; reflexivity.
    + left. right. exact Hin.
    + left. left.
    + destruct (IH Hin) as [Hd | ->]; [left; right; exact Hd | right; reflexivity].
Qed.

(** The values of [dict(pairs)] are values of the pairs. *)
Lemma elem_dict_values_of_pairs v l :
  v ∈ dict_values (dict_of_pairs l) → v ∈ map snd l.
Proof.
  induction l as [|[k' v'] l IH] using rev_ind.
  - intros Hin. inversion Hin.
  - rewrite dict_of_pairs_snoc. unfold dict_values. intros Hin.
    apply elem_of_map in Hin as [[k0 v0] [-> Hin]]. simpl.
    rewrite map_app. apply elem_of_app.
    apply elem_setitem in Hin as [Hin| ->].
    + left. apply IH. unfold dict_values.
      apply elem_of_map. exists (k0, v0). split; [reflexivity | exact Hin].
    + right. left.
Qed.

(** The last pair with a given key. *)
Lemma dict_get_reverse_Some k v l :
  dict_get k (reverse l) = Some v →
  ∃ l1 l2, l = l1 ++ (k, v) :: l2 ∧ ∀ v', (k, v') ∉ l2.
Proof.
  induction l as [|[k' v'] l IH] using rev_ind.
  - discriminate.
  - rewrite reverse_snoc. simpl. destruct (decide (k = k')) as [->|Hne].
    + intros [= ->]. exists l, []. split; [reflexivity|].
      intros v' Hin. inversion Hin.
    + intros Hget. destruct (IH Hget) as (l1 & l2 & -> & Hlast).
      exists l1, (l2 ++ [(k', v')]). split.
      * rewrite <- app_assoc. reflexivity.
      * intros v0 Hin. apply elem_of_app in Hin as [Hin|Hin].
        -- exact (Hlast v0 Hin).
        -- apply list_elem_of_singleton in Hin as [= ? ?]. congruence.
Qed.

End dict_facts.

(** ** The selector index of a [ContractABI] *)

Section index.
Context `{!Collaborators}.

Local Abbreviation by_selector := (λ error : Error.t, (Error.selector error, error)).

Lemma __init___inv constructor fallback receive methods events errors abi :
  ContractABI.__init__ constructor fallback receive methods events errors = Ok abi →
  Methods.__iter__ (ContractABI.error abi)
  = dict_values (dict_of_pairs (map (λ error, (Error.name error, error))
                                  (default [] errors)))
  ∧ ContractABI._error_by_selector abi
    = dict_of_pairs (map by_selector
                       ([PANIC_ERROR; LEGACY_ERROR]
                        ++ Methods.__iter__ (ContractABI.error abi))).
Proof.
  unfold ContractABI.__init__. intros Hinit.
  apply bind_Ok in Hinit as (c & _ & [= <-]). simpl. split; reflexivity.
Qed.

(** The errors the ABI iterates over are declared errors. *)
Lemma registered_declared constructor fallback receive methods events errors abi e :
  ContractABI.__init__ constructor fallback receive methods events errors = Ok abi →
  e ∈ Methods.__iter__ (ContractABI.error abi) → e ∈ default [] errors.
Proof.
  intros Hinit Hin. apply __init___inv in Hinit as [Hiter _]. rewrite Hiter in Hin.
  apply elem_dict_values_of_pairs in Hin. rewrite map_map, map_id in Hin. exact Hin.
Qed.

(** A selector is looked up among the registered errors first, from the
    last to the first, then in [LEGACY_ERROR], then in [PANIC_ERROR]. *)
Lemma index_lookup constructor fallback receive methods events errors abi selector :
  ContractABI.__init__ constructor fallback receive methods events errors = Ok abi →
  dict_get selector (ContractABI._error_by_selector abi)
  = match dict_get selector
            (reverse (map by_selector (Methods.__iter__ (ContractABI.error abi)))) with
    | Some e => Some e
    | None =>
        if decide (selector = Error.selector LEGACY_ERROR) then Some LEGACY_ERROR
        else if decide (selector = Error.selector PANIC_ERROR) then Some PANIC_ERROR
        else None
    end.
Proof.
  intros Hinit. apply __init___inv in Hinit as [_ ->].
  rewrite dict_get_of_pairs, map_app, reverse_app, dict_get_app.
  reflexivity.
Qed.

Lemma resolve_error_hit (abi : ContractABI.t) error_data e :
  4 ≤ length error_data →
  dict_get (take 4 error_data) (ContractABI._error_by_selector abi) = Some e →
  ContractABI.resolve_error abi error_data
  = (decoded ← Error.decode_fields e (drop 4 error_data); Ok (e, decoded)).
Proof.
  intros Hlen Hget. unfold ContractABI.resolve_error.
  rewrite bool_decide_eq_false_2 by lia. simpl. rewrite Hget. reflexivity.
Qed.

End index.

(** ** Hexadecimal rendering *)

Lemma fromhex_hex (b : bytes) : fromhex (hex b) = b.
Proof.
  induction b as [|x b IH]; [reflexivity|].
  change (byte_of_N (16 * hexval (hexdigit (Byte.to_N x / 16))
                     + hexval (hexdigit (Byte.to_N x mod 16)))
          :: fromhex (hex b) = x :: b).
  rewrite IH. f_equal. destruct x; reflexivity.
Qed.

Lemma hex_inj (b1 b2 : bytes) : hex b1 = hex b2 → b1 = b2.
Proof.
  intros Heq. rewrite <- (fromhex_hex b1), <- (fromhex_hex b2), Heq. reflexivity.
Qed.

Lemma length_hex (b : bytes) : String.length (hex b) = 2 * length b.
Proof. induction b as [|x b IH]; simpl; [reflexivity | rewrite IH; lia]. Qed.

Lemma append_inj_r (s1 s2 t : string) :
  String.length s1 = String.length s2 → s1 +:+ t = s2 +:+ t → s1 = s2.
Proof.
  revert s2. induction s1 as [|c s1 IH]; intros [|c' s2]; simpl; try discriminate.
  - reflexivity.
  - intros [= Hlen] [= -> Heq]. f_equal. exact (IH s2 Hlen Heq).
Qed.

(** The message of the [UnknownError] determines the selector. *)
Lemma unknown_error_selector (selector selector' : bytes) :
  length selector = length selector' →
  UnknownError ("Could not find an error with selector "
                +:+ hex selector +:+ " in the ABI")
  = UnknownError ("Could not find an error with selector "
                  +:+ hex selector' +:+ " in the ABI") →
  selector = selector'.
Proof.
  intros Hlen Heq.
  assert (Hmsg : hex selector +:+ " in the ABI" = hex selector' +:+ " in the ABI").
  { injection Heq as Heq. exact Heq. }
  apply append_inj_r in Hmsg; [exact (hex_inj _ _ Hmsg)|].
  rewrite !length_hex, Hlen. reflexivity.
Qed.

(** ** Resolution of revert data *)

Section resolve_error.
Context `{!Collaborators}.

(** C2. For every [ContractABI] and all bytes [error_data]: with fewer than
    4 bytes [resolve_error] raises the length error, whatever the selector
    index holds; with at least 4 bytes whose first 4 are no key of the
    index it raises the [UnknownError] whose message spells the selector
    (two such failures with the same message have the same selector);
    otherwise [error_data] is split into selector and
    data, and the result is the error found under the selector together
    with the data decoded through the [Signature] of that error. *)
Theorem resolve_error_cases (abi : ContractABI.t) (error_data : bytes) :
  (length error_data < 4 →
   ContractABI.resolve_error abi error_data
   = Raise (ValueError "Error data too short to contain a selector"))
  ∧ (4 ≤ length error_data →
     dict_get (take 4 error_data) (ContractABI._error_by_selector abi) = None →
     ContractABI.resolve_error abi error_data
     = Raise (UnknownError ("Could not find an error with selector "
                            +:+ hex (take 4 error_data) +:+ " in the ABI"))
     ∧ ∀ error_data' : bytes,
         4 ≤ length error_data' →
         dict_get (take 4 error_data') (ContractABI._error_by_selector abi) = None →
         ContractABI.resolve_error abi error_data'
         = ContractABI.resolve_error abi error_data →
         take 4 error_data' = take 4 error_data)
  ∧ (4 ≤ length error_data →
     ∀ error : Error.t,
       dict_get (take 4 error_data) (ContractABI._error_by_selector abi)
       = Some error →
       error_data = take 4 error_data ++ drop 4 error_data
       ∧ ContractABI.resolve_error abi error_data
         = (decoded ← Signature.decode_into_dict (Error.fields error)
                        (drop 4 error_data);
            Ok (error, decoded))).
Proof.
  assert (Hmiss : ∀ data : bytes,
    4 ≤ length data →
    dict_get (take 4 data) (ContractABI._error_by_selector abi) = None →
    ContractABI.resolve_error abi data
    = Raise (UnknownError ("Could not find an error with selector "
                           +:+ hex (take 4 data) +:+ " in the ABI"))).
  { intros data Hlen Hget. unfold ContractABI.resolve_error.
    rewrite bool_decide_eq_false_2 by lia. simpl. rewrite Hget. reflexivity. }
  split; [|split].
  - intros Hlen. unfold ContractABI.resolve_error.
    rewrite bool_decide_eq_true_2 by exact Hlen. reflexivity.
  - intros Hlen Hget. split; [exact (Hmiss _ Hlen Hget)|].
    intros error_data' Hlen' Hget' Heq.
    rewrite (Hmiss _ Hlen Hget), (Hmiss _ Hlen' Hget') in Heq.
    apply unknown_error_selector; [rewrite !length_take; lia | congruence].
  - intros Hlen error Hget. split.
    + symmetry. apply take_drop.
    + exact (resolve_error_hit abi error_data error Hlen Hget).
Qed.

End resolve_error.

Section resolve_error_examples.
Import Reference.

Lemma resolve_error_cases_witness :
  ContractABI.resolve_error Examples.empty_abi (fromhex "08c379")
  = Raise (ValueError "Error data too short to contain a selector")
  ∧ ContractABI.resolve_error Examples.empty_abi (fromhex "08c379a1")
    = Raise (UnknownError
               "Could not find an error with selector 08c379a1 in the ABI")
  ∧ ContractABI.resolve_error Examples.empty_abi Examples.panic_data
    = Ok (PANIC_ERROR, [("code", VInt 17)]).
Proof.
  split; [|split].
  - apply (proj1 (resolve_error_cases Examples.empty_abi (fromhex "08c379"))).
    vm_compute. lia.
  - refine (proj1 (proj1 (proj2 (resolve_error_cases Examples.empty_abi
                                   (fromhex "08c379a1"))) _ _)).
    + vm_compute. lia.
    + vm_compute. reflexivity.
  - refine (eq_trans (proj2 (proj2 (proj2 (resolve_error_cases Examples.empty_abi
                                             Examples.panic_data))
                               _ PANIC_ERROR _)) _).
    + vm_compute. lia.
    + vm_compute. reflexivity.
    + vm_compute. reflexivity.
Defined.

End resolve_error_examples.

(** ** The built-in errors and the declared ones *)

Section builtin_errors.
Context `{!Collaborators}.

Local Abbreviation by_selector := (λ error : Error.t, (Error.selector error, error)).

Lemma dict_get_registered_None
    constructor fallback receive methods events errors abi selector :
  ContractABI.__init__ constructor fallback receive methods events errors = Ok abi →
  (∀ e, e ∈ default [] errors → Error.selector e ≠ selector) →
  dict_get selector
    (reverse (map by_selector (Methods.__iter__ (ContractABI.error abi)))) = None.
Proof.
  intros Hinit Hno. apply dict_get_None. intros e Hin.
  apply elem_of_reverse, elem_of_map in Hin as (e' & [= -> ->] & Hin).
  apply (registered_declared _ _ _ _ _ _ _ _ Hinit) in Hin.
  exact (Hno _ Hin eq_refl).
Qed.

Lemma decode_fields_PANIC (data : bytes) :
  Error.decode_fields PANIC_ERROR data
  = (decoded ← decode_args [abi_uint 256] data;
     Ok (dict_of_pairs (zip ["code"] decoded))).
Proof. reflexivity. Qed.

(** C1, as amended. For every [ContractABI] none of whose declared errors
    has the selector of a built-in error (one constructed with no declared
    errors, for instance), and a hash that separates the built-in errors:
    the selector index maps the selector of [Panic(uint256 code)] to
    [PANIC_ERROR] and that of [Error(string message)] to [LEGACY_ERROR],
    and [resolve_error] on bytes whose first 4 bytes are the selector of
    [PANIC_ERROR] and whose rest decodes to the one value [value] returns
    [(PANIC_ERROR, {"code": value})]. *)
Theorem resolve_error_panic
    constructor fallback receive methods events errors abi :
  ContractABI.__init__ constructor fallback receive methods events errors = Ok abi →
  Error.selector PANIC_ERROR ≠ Error.selector LEGACY_ERROR →
  (∀ e, e ∈ default [] errors →
        Error.selector e ≠ Error.selector PANIC_ERROR
        ∧ Error.selector e ≠ Error.selector LEGACY_ERROR) →
  dict_get (Error.selector PANIC_ERROR) (ContractABI._error_by_selector abi)
  = Some PANIC_ERROR
  ∧ dict_get (Error.selector LEGACY_ERROR) (ContractABI._error_by_selector abi)
    = Some LEGACY_ERROR
  ∧ ∀ (error_data : bytes) (value : Value),
      4 ≤ length error_data →
      take 4 error_data = Error.selector PANIC_ERROR →
      decode_args [abi_uint 256] (drop 4 error_data) = Ok [value] →
      ContractABI.resolve_error abi error_data
      = Ok (PANIC_ERROR, [("code", value)]).
Proof.
  intros Hinit Hsep Hno.
  assert (HP : dict_get (Error.selector PANIC_ERROR)
                 (ContractABI._error_by_selector abi) = Some PANIC_ERROR).
  { rewrite (index_lookup _ _ _ _ _ _ _ _ Hinit).
    rewrite (dict_get_registered_None _ _ _ _ _ _ _ _ Hinit)
      by (intros e He; apply (Hno e He)).
    rewrite decide_False by exact Hsep. rewrite decide_True by reflexivity.
    reflexivity. }
  split; [exact HP|]. split.
  - rewrite (index_lookup _ _ _ _ _ _ _ _ Hinit).
    rewrite (dict_get_registered_None _ _ _ _ _ _ _ _ Hinit)
      by (intros e He; apply (Hno e He)).
    rewrite decide_True by reflexivity. reflexivity.
  - intros error_data value Hlen Hsel Hdec.
    rewrite (resolve_error_hit abi error_data PANIC_ERROR Hlen)
      by (rewrite Hsel; exact HP).
    rewrite decode_fields_PANIC, Hdec. reflexivity.
Qed.

(** C3, as amended. For every [ContractABI] whose registered errors include
    one with the selector of a built-in error, the selector index resolves
    that selector to the last registered error with it, a declared error
    and not the built-in one registered first, and [resolve_error] on that
    selector decodes against the signature of this declared error. *)
Theorem colliding_error_resolved
    constructor fallback receive methods events errors abi (e : Error.t) :
  ContractABI.__init__ constructor fallback receive methods events errors = Ok abi →
  e ∈ Methods.__iter__ (ContractABI.error abi) →
  Error.selector e = Error.selector PANIC_ERROR
  ∨ Error.selector e = Error.selector LEGACY_ERROR →
  ∃ (e' : Error.t) (before after : list Error.t),
    Methods.__iter__ (ContractABI.error abi) = before ++ e' :: after
    ∧ e' ∈ default [] errors
    ∧ Error.selector e' = Error.selector e
    ∧ (∀ e'', e'' ∈ after → Error.selector e'' ≠ Error.selector e)
    ∧ dict_get (Error.selector e) (ContractABI._error_by_selector abi) = Some e'
    ∧ ∀ error_data : bytes,
        4 ≤ length error_data →
        take 4 error_data = Error.selector e →
        ContractABI.resolve_error abi error_data
        = (decoded ← Signature.decode_into_dict (Error.fields e')
                       (drop 4 error_data);
           Ok (e', decoded)).
Proof.
  intros Hinit Hin _.
  destruct (dict_get (Error.selector e)
              (reverse (map by_selector (Methods.__iter__ (ContractABI.error abi)))))
    as [e'|] eqn:Hget.
  - assert (Hidx : dict_get (Error.selector e) (ContractABI._error_by_selector abi)
                   = Some e').
    { rewrite (index_lookup _ _ _ _ _ _ _ _ Hinit), Hget. reflexivity. }
    apply dict_get_reverse_Some in Hget as (l1 & l2 & Hsplit & Hlast).
    apply map_eq_app in Hsplit as (before & rest & Hiter & <- & Hrest).
    apply map_eq_cons in Hrest as (e0 & after & -> & [= Hsel ->] & <-).
    exists e', before, after. split; [exact Hiter|]. split.
    { apply (registered_declared _ _ _ _ _ _ _ _ Hinit). rewrite Hiter.
      apply elem_of_app. right. left. }
    split; [exact Hsel|]. split.
    { intros e'' Hin'' Hsel''. apply (Hlast e''). apply elem_of_map.
      exists e''. rewrite Hsel''. auto. }
    split; [exact Hidx|].
    intros error_data Hlen Htake.
    apply resolve_error_hit; [exact Hlen | rewrite Htake; exact Hidx].
  - exfalso. rewrite dict_get_None in Hget. apply (Hget e).
    apply elem_of_reverse, elem_of_map. exists e. auto.
Qed.

End builtin_errors.

Section builtin_errors_examples.
Import Reference.

Lemma resolve_error_panic_witness :
  dict_get (Error.selector PANIC_ERROR)
    (ContractABI._error_by_selector Examples.custom_abi) = Some PANIC_ERROR
  ∧ dict_get (Error.selector LEGACY_ERROR)
      (ContractABI._error_by_selector Examples.custom_abi) = Some LEGACY_ERROR
  ∧ ContractABI.resolve_error Examples.custom_abi Examples.panic_data
    = Ok (PANIC_ERROR, [("code", VInt 17)]).
Proof.
  assert (Hinit : ContractABI.__init__ None None None None None
                    (Some [Examples.insufficient_balance])
                  = Ok Examples.custom_abi)
    by (vm_compute; reflexivity).
  assert (Hsep : Error.selector PANIC_ERROR ≠ Error.selector LEGACY_ERROR)
    by (vm_compute; discriminate).
  assert (Hno : ∀ e, e ∈ default [] (Some [Examples.insufficient_balance]) →
                     Error.selector e ≠ Error.selector PANIC_ERROR
                     ∧ Error.selector e ≠ Error.selector LEGACY_ERROR).
  { intros e He. apply list_elem_of_singleton in He as ->.
    split; vm_compute; discriminate. }
  destruct (resolve_error_panic _ _ _ _ _ _ _ Hinit Hsep Hno) as (HP & HL & Hres).
  split; [exact HP|]. split; [exact HL|].
  apply Hres.
  - vm_compute. lia.
  - vm_compute. reflexivity.
  - vm_compute. reflexivity.
Defined.

(** C1 as stated fails: the ABI with the one declared error
    [Error("Panic", dict(x=abi.uint(256)))] resolves the revert data of
    [Panic(0x11)] to the declared error and [{"x": 17}], not to
    [PANIC_ERROR] and [{"code": 17}]; the index no longer holds
    [PANIC_ERROR]. *)
Lemma resolve_error_panic_shadowed :
  Error.__init__ "Panic" [("x", uint 256)] = Ok Examples.shadow_panic
  ∧ ContractABI.__init__ None None None None None (Some [Examples.shadow_panic])
    = Ok Examples.shadow_abi
  ∧ take 4 Examples.panic_data = Error.selector PANIC_ERROR
  ∧ decode_args [abi_uint 256] (drop 4 Examples.panic_data) = Ok [VInt 17]
  ∧ ContractABI.resolve_error Examples.shadow_abi Examples.panic_data
    = Ok (Examples.shadow_panic, [("x", VInt 17)])
  ∧ ContractABI.resolve_error Examples.shadow_abi Examples.panic_data
    ≠ Ok (PANIC_ERROR, [("code", VInt 17)])
  ∧ ∀ selector, dict_get selector (ContractABI._error_by_selector Examples.shadow_abi)
                ≠ Some PANIC_ERROR.
Proof.
  repeat split; try (vm_compute; reflexivity); try (vm_compute; discriminate).
  intros selector. simpl.
  repeat (match goal with |- context [decide ?P] => destruct (decide P) end);
    discriminate.
Qed.

Lemma colliding_error_resolved_witness :
  ∃ before after : list Error.t,
    Methods.__iter__ (ContractABI.error Examples.shadow_abi)
    = before ++ Examples.shadow_panic :: after
    ∧ (∀ e'', e'' ∈ after →
         Error.selector e'' ≠ Error.selector Examples.shadow_panic)
    ∧ dict_get (Error.selector Examples.shadow_panic)
        (ContractABI._error_by_selector Examples.shadow_abi)
      = Some Examples.shadow_panic
    ∧ ContractABI.resolve_error Examples.shadow_abi Examples.panic_data
      = Ok (Examples.shadow_panic, [("x", VInt 17)]).
Proof.
  assert (Hinit : ContractABI.__init__ None None None None None
                    (Some [Examples.shadow_panic])
                  = Ok Examples.shadow_abi)
    by (vm_compute; reflexivity).
  assert (Hin : Examples.shadow_panic
                ∈ Methods.__iter__ (ContractABI.error Examples.shadow_abi))
    by left.
  assert (Hsel : Error.selector Examples.shadow_panic = Error.selector PANIC_ERROR
                 ∨ Error.selector Examples.shadow_panic
                   = Error.selector LEGACY_ERROR)
    by (left; vm_compute; reflexivity).
  destruct (colliding_error_resolved _ _ _ _ _ _ _ _ Hinit Hin Hsel)
    as (e' & before & after & Hiter & _ & _ & Hlast & Hidx & Hres).
  assert (He' : e' = Examples.shadow_panic).
  { assert (Hidx' : dict_get (Error.selector Examples.shadow_panic)
                      (ContractABI._error_by_selector Examples.shadow_abi)
                    = Some Examples.shadow_panic)
      by (vm_compute; reflexivity).
    congruence. }
  subst e'. exists before, after.
  split; [exact Hiter|]. split; [exact Hlast|]. split; [exact Hidx|].
  rewrite Hres; [vm_compute; reflexivity | vm_compute; lia | vm_compute; reflexivity].
Defined.

(** C3 as stated fails: in the ABI with the declared error
    [Error("Panic", dict(x=abi.uint(256)))], which has the selector of the
    built-in [PANIC_ERROR], the index resolves that selector to the declared
    error, registered last, and the data is decoded against its signature,
    under the field name [x]. *)
Lemma first_registered_does_not_win :
  Examples.shadow_panic ∈ Methods.__iter__ (ContractABI.error Examples.shadow_abi)
  ∧ Error.selector Examples.shadow_panic = Error.selector PANIC_ERROR
  ∧ ContractABI.__init__ None None None None None (Some [Examples.shadow_panic])
    = Ok Examples.shadow_abi
  ∧ dict_get (Error.selector PANIC_ERROR)
      (ContractABI._error_by_selector Examples.shadow_abi)
    = Some Examples.shadow_panic
  ∧ Examples.shadow_panic ≠ PANIC_ERROR
  ∧ ContractABI.resolve_error Examples.shadow_abi Examples.panic_data
    = (decoded ← Error.decode_fields Examples.shadow_panic
                   (drop 4 Examples.panic_data);
       Ok (Examples.shadow_panic, decoded))
  ∧ ContractABI.resolve_error Examples.shadow_abi Examples.panic_data
    ≠ (decoded ← Error.decode_fields PANIC_ERROR (drop 4 Examples.panic_data);
       Ok (PANIC_ERROR, decoded)).
Proof.
  split; [left|].
  repeat split; try (vm_compute; reflexivity); try (vm_compute; discriminate).
Qed.

End builtin_errors_examples.

(** ** Decoding the output of a method *)

Section decode_output.
Context `{!Collaborators}.

Lemma Signature_types (parameters : Params ABIType) (sig : Signature.t) :
  Signature.__init__ parameters = Ok sig →
  Signature._types sig = Params_types parameters.
Proof.
  destruct parameters as [m|ts]; simpl; intros Hinit;
    apply bind_Ok in Hinit as (ps & _ & Hinit);
    apply bind_Ok in Hinit as (sig' & _ & [= <-]); reflexivity.
Qed.

Lemma Method_init_outputs name mutability inputs outputs (m : Method.t) :
  Method.__init__ name mutability inputs outputs = Ok m →
  match outputs with
  | OutputsType tp =>
      Method._single_output m = true
      ∧ Signature._types (Method.outputs m) = [tp]
  | OutputsParams ps =>
      Method._single_output m = false
      ∧ Signature._types (Method.outputs m) = Params_types ps
  | OutputsNone =>
      Method._single_output m = false
      ∧ Signature._types (Method.outputs m) = []
  end.
Proof.
  unfold Method.__init__. intros Hinit.
  apply bind_Ok in Hinit as (inputs' & _ & Hinit).
  destruct outputs as [|tp|ps]; cbn beta iota zeta in Hinit;
    apply bind_Ok in Hinit as (sig & Hsig & [= <-]); cbn;
    apply Signature_types in Hsig; auto.
Qed.

(** [Method.from_json] passes a list or a dictionary of outputs. *)
Lemma Method_from_json_init method_entry (m : Method.t) :
  Method.from_json method_entry = Ok m →
  ∃ name mutability inputs ps,
    Method.__init__ name mutability inputs (OutputsParams ps) = Ok m
    ∧ match dict_get "outputs" method_entry with
      | None => ps = Positional []
      | Some outputs =>
          ∃ entries unnamed,
            as_list outputs = Ok entries
            ∧ Method.all_unnamed entries = Ok unnamed
            ∧ if unnamed : bool
              then ∃ tps, mapM dispatch_type entries = Ok tps ∧ ps = Positional tps
              else dispatch_types outputs = Ok ps
      end.
Proof.
  unfold Method.from_json. intros Hjson.
  apply bind_Ok in Hjson as (type & _ & Hjson).
  destruct (negb (json_eq_str type "function")); [discriminate|].
  apply bind_Ok in Hjson as (name & _ & Hjson).
  apply bind_Ok in Hjson as (inputs & _ & Hjson).
  apply bind_Ok in Hjson as (mutability & _ & Hjson).
  apply bind_Ok in Hjson as (ps & Hps & Hjson).
  exists name, mutability, inputs, ps. split; [exact Hjson|].
  destruct (dict_get "outputs" method_entry) as [outputs|].
  - apply bind_Ok in Hps as (entries & Hentries & Hps).
    apply bind_Ok in Hps as (unnamed & Hunnamed & Hps).
    exists entries, unnamed. split; [exact Hentries|]. split; [exact Hunnamed|].
    destruct unnamed.
    + apply bind_Ok in Hps as (tps & Htps & [= <-]). eauto.
    + exact Hps.
  - injection Hps as <-. reflexivity.
Qed.

(** C4, as amended. A [Method] declared with one bare, unnamed return type
    unwraps the decoded tuple: [decode_output] returns its first value, the
    bare value when the codec decodes one. A [Method] declared with a list
    of types or with named outputs returns the full tuple of decoded
    values. A [Method] built by [Method.from_json] is always declared with a
    list or with named outputs, so [decode_output] returns the full tuple
    for it too: for a JSON entry whose [outputs] list has exactly one entry
    with an empty name, the one-tuple of the value and not the bare
    value. *)
Theorem decode_output_single_or_tuple :
  (∀ name mutability inputs tp (m : Method.t) output_bytes,
     Method.__init__ name mutability inputs (OutputsType tp) = Ok m →
     Method.decode_output m output_bytes
     = (results ← decode_args [tp] output_bytes;
        match results with
        | value :: _ => Ok (Bare value)
        | [] => Raise (IndexError "tuple index out of range")
        end)
     ∧ ∀ value, decode_args [tp] output_bytes = Ok [value] →
                Method.decode_output m output_bytes = Ok (Bare value))
  ∧ (∀ name mutability inputs ps (m : Method.t) output_bytes,
       Method.__init__ name mutability inputs (OutputsParams ps) = Ok m →
       Method.decode_output m output_bytes
       = (results ← decode_args (Params_types ps) output_bytes;
          Ok (Tuple results)))
  ∧ (∀ method_entry entry fields (m : Method.t) output_bytes,
       dict_get "outputs" method_entry = Some (JList [entry]) →
       as_dict entry = Ok fields →
       dict_get "name" fields = Some (JStr EmptyString) →
       Method.from_json method_entry = Ok m →
       ∃ tp, dispatch_type entry = Ok tp
             ∧ Method.decode_output m output_bytes
               = (results ← decode_args [tp] output_bytes; Ok (Tuple results))
             ∧ ∀ value, decode_args [tp] output_bytes = Ok [value] →
                        Method.decode_output m output_bytes = Ok (Tuple [value])).
Proof.
  split; [|split].
  - intros name mutability inputs tp m output_bytes Hinit.
    apply Method_init_outputs in Hinit as [Hsingle Htypes].
    assert (Hdec : Method.decode_output m output_bytes
                   = (results ← decode_args [tp] output_bytes;
                      match results with
                      | value :: _ => Ok (Bare value)
                      | [] => Raise (IndexError "tuple index out of range")
                      end)).
    { unfold Method.decode_output, Signature.decode_into_tuple.
      rewrite Hsingle, Htypes. reflexivity. }
    split; [exact Hdec|]. intros value Hvalue. rewrite Hdec, Hvalue. reflexivity.
  - intros name mutability inputs ps m output_bytes Hinit.
    apply Method_init_outputs in Hinit as [Hsingle Htypes].
    unfold Method.decode_output, Signature.decode_into_tuple.
    rewrite Hsingle, Htypes. reflexivity.
  - intros method_entry entry fields m output_bytes Houtputs Hentry Hname Hjson.
    apply Method_from_json_init in Hjson as (name & mutability & inputs & ps & Hinit & Hps).
    rewrite Houtputs in Hps. destruct Hps as (entries & unnamed & [= <-] & Hunnamed & Hps).
    simpl in Hunnamed. rewrite Hentry in Hunnamed. simpl in Hunnamed.
    unfold dict_getitem in Hunnamed. rewrite Hname in Hunnamed. simpl in Hunnamed.
    injection Hunnamed as <-. destruct Hps as (tps & Htps & ->).
    simpl in Htps. apply bind_Ok in Htps as (tp & Htp & [= <-]).
    apply Method_init_outputs in Hinit as [Hsingle Htypes]. simpl in Htypes.
    assert (Hdec : Method.decode_output m output_bytes
                   = (results ← decode_args [tp] output_bytes; Ok (Tuple results))).
    { unfold Method.decode_output, Signature.decode_into_tuple.
      rewrite Hsingle, Htypes. reflexivity. }
    exists tp. split; [exact Htp|]. split; [exact Hdec|].
    intros value Hvalue. rewrite Hdec, Hvalue. reflexivity.
Qed.

End decode_output.

Section decode_output_examples.
Import Reference.

Lemma decode_output_single_or_tuple_witness :
  Method.decode_output Examples.balance_bare Examples.word_17 = Ok (Bare (VInt 17))
  ∧ Method.decode_output Examples.balance_method Examples.word_17
    = Ok (Tuple [VInt 17])
  ∧ ∃ tp, dispatch_type (JDict [("name", JStr EmptyString); ("type", JStr "uint256")])
          = Ok tp
          ∧ Method.decode_output Examples.balance_method Examples.word_17
            = (results ← decode_args [tp] Examples.word_17; Ok (Tuple results)).
Proof.
  destruct decode_output_single_or_tuple as (Hbare & Htuple & Hjson).
  split; [|split].
  - refine (proj2 (Hbare "balance" Mutability.VIEW (Positional []) (uint 256)
                     Examples.balance_bare Examples.word_17 _) (VInt 17) _);
      vm_compute; reflexivity.
  - refine (eq_trans (Htuple "balance" Mutability.VIEW (Positional [])
                        (Positional [uint 256]) Examples.balance_method
                        Examples.word_17 _) _);
      vm_compute; reflexivity.
  - destruct (Hjson Examples.balance_entry
                (JDict [("name", JStr EmptyString); ("type", JStr "uint256")])
                [("name", JStr EmptyString); ("type", JStr "uint256")]
                Examples.balance_method Examples.word_17)
      as (tp & Htp & Hdec & _); try (vm_compute; reflexivity).
    exists tp. split; [exact Htp | exact Hdec].
Defined.

(** C4 as stated fails for [Method.from_json]: the entry of
    [function balance() view returns (uint256)], whose [outputs] list has
    exactly one entry, with an empty name, gives a method that is not marked
    as having a single output, and [decode_output] on the encoding of [17]
    returns the one-tuple [(17,)], not the bare value [17]. *)
Lemma from_json_single_output_not_unwrapped :
  Method.from_json Examples.balance_entry = Ok Examples.balance_method
  ∧ Method._single_output Examples.balance_method = false
  ∧ decode_args [uint 256] Examples.word_17 = Ok [VInt 17]
  ∧ Method.decode_output Examples.balance_method Examples.word_17
    = Ok (Tuple [VInt 17])
  ∧ Method.decode_output Examples.balance_method Examples.word_17
    ≠ Ok (Bare (VInt 17)).
Proof.
  repeat split; try (vm_compute; reflexivity). vm_compute. discriminate.
Qed.

End decode_output_examples.

(** ** Construction of an event *)

Section event_init.
Context `{!Collaborators}.

Lemma mapM_Raise {A B} (f : A → result B) (l : list A) (e : exn) :
  mapM f l = Raise e → ∃ x, x ∈ l ∧ f x = Raise e.
Proof.
  induction l as [|x l IH]; simpl; [discriminate|].
  destruct (f x) as [y|e'] eqn:Hfx; simpl.
  - destruct (mapM f l) as [ys|e'']; simpl; [discriminate|].
    intros [= ->]. destruct (IH eq_refl) as (x' & Hin & Hx').
    exists x'. split; [right; exact Hin | exact Hx'].
  - intros [= ->]. exists x. split; [left | exact Hfx].
Qed.

Lemma check_duplicates_Raise seen parameters e :
  check_duplicates seen parameters = Raise e →
  ∃ name, e = ValueError ("duplicate parameter name: '" +:+ name +:+ "'").
Proof.
  revert seen. induction parameters as [|p parameters IH]; intros seen; simpl.
  - discriminate.
  - destruct (bool_decide _); [intros [= <-]; eauto | apply IH].
Qed.

(** The exceptions of [EventSignature.__init__] are those of [inspect]. *)
Lemma EventSignature_init_Raise parameters indexed e :
  EventSignature.__init__ parameters indexed = Raise e →
  (∃ name, e = ValueError ("'" +:+ name +:+ "' is not a valid parameter name"))
  ∨ (∃ name, e = ValueError ("duplicate parameter name: '" +:+ name +:+ "'"))
  ∨ (∃ name, e = KeyError name).
Proof.
  unfold EventSignature.__init__.
  set (parameters' := dict_of_pairs _). set (indexed' := set_map _ _ : gset string).
  destruct (mapM _ (filter _ parameters')) as [ps|e1] eqn:Hps; simpl.
  - unfold inspect_Signature.
    destruct (check_duplicates [] ps) as [[]|e2] eqn:Hdup; simpl.
    + destruct (mapM _ (filter _ (dict_keys parameters'))) as [tn|e3] eqn:Htn; simpl.
      * discriminate.
      * intros [= <-]. apply mapM_Raise in Htn as (name & _ & Hname).
        unfold dict_getitem in Hname.
        destruct (dict_get name parameters'); simpl in Hname; [discriminate|].
        injection Hname as <-. right. right. eauto.
    + intros [= <-]. right. left. exact (check_duplicates_Raise _ _ _ Hdup).
  - intros [= <-]. apply mapM_Raise in Hps as ([name tp] & _ & Hname).
    unfold inspect_Parameter in Hname.
    destruct (_ || _); [|discriminate]. injection Hname as <-. left. eauto.
Qed.

Lemma dict_keys_setitem {V} (k : string) (v : V) (d : dict string V) :
  dict_keys (dict_setitem k v d)
  = if bool_decide (k ∈ dict_keys d) then dict_keys d else dict_keys d ++ [k].
Proof.
  unfold dict_keys. induction d as [|[k' v'] d IH]; simpl; [reflexivity|].
  destruct (decide (k = k')) as [->|Hne]; simpl.
  - rewrite bool_decide_eq_true_2 by left. reflexivity.
  - rewrite IH. destruct (bool_decide (k ∈ map fst d)) eqn:Hin.
    + apply bool_decide_eq_true in Hin.
      rewrite bool_decide_eq_true_2 by (right; exact Hin). reflexivity.
    + apply bool_decide_eq_false in Hin.
      rewrite bool_decide_eq_false_2; [reflexivity|].
      intros Hin'. apply elem_of_cons in Hin' as [?|?]; contradiction.
Qed.

Lemma dict_keys_of_pairs {V} (l : list (string * V)) :
  NoDup (dict_keys (dict_of_pairs l))
  ∧ ∀ k, k ∈ dict_keys (dict_of_pairs l) ↔ k ∈ map fst l.
Proof.
  induction l as [|[k v] l [IHnodup IHin]] using rev_ind.
  - split; [constructor | reflexivity].
  - rewrite dict_of_pairs_snoc, dict_keys_setitem, map_app. simpl.
    case_bool_decide as Hk.
    + split; [exact IHnodup|]. intros k'. rewrite elem_of_app, IHin.
      split; [auto|]. intros [Hin|Hin]; [exact Hin|].
      apply list_elem_of_singleton in Hin as ->. apply IHin. exact Hk.
    + split.
      * apply NoDup_app. split; [exact IHnodup|]. split; [|apply NoDup_singleton].
        intros k' Hin Hin'. apply list_elem_of_singleton in Hin' as ->. contradiction.
      * intros k'. rewrite !elem_of_app, IHin. reflexivity.
Qed.

Lemma iskeyword_make_name_safe (name : string) :
  iskeyword (make_name_safe name) = false.
Proof.
  unfold make_name_safe. destruct (iskeyword name) eqn:Hkw; [|exact Hkw].
  unfold iskeyword in Hkw. apply bool_decide_eq_true in Hkw. unfold kwlist in Hkw.
  repeat (apply elem_of_cons in Hkw as [->|Hkw]; [reflexivity|]).
  inversion Hkw.
Qed.

Lemma mapM_Ok_map {A B} (f : A → result B) (g : A → B) (l : list A) :
  (∀ x, x ∈ l → f x = Ok (g x)) → mapM f l = Ok (map g l).
Proof.
  induction l as [|x l IH]; intros Hf; [reflexivity|].
  rewrite mapM_cons, (Hf x) by left. rewrite bind_ret, IH, bind_ret; [reflexivity|].
  intros x' Hin. apply Hf. right. exact Hin.
Qed.

Lemma check_duplicates_NoDup seen parameters :
  NoDup (map Param_name parameters) →
  (∀ p, p ∈ parameters → Param_name p ∉ seen) →
  check_duplicates seen parameters = Ok ().
Proof.
  revert seen. induction parameters as [|p parameters IH]; intros seen; simpl.
  - reflexivity.
  - intros Hnodup Hseen. apply NoDup_cons in Hnodup as [Hp Hnodup].
    rewrite bool_decide_eq_false_2 by (apply Hseen; left).
    apply IH; [exact Hnodup|]. intros p' Hin Hin'.
    apply elem_of_cons in Hin' as [Heq|Hin'].
    + apply Hp. rewrite <- Heq. apply elem_of_map. exists p'. auto.
    + apply (Hseen p'); [right; exact Hin | exact Hin'].
Qed.

Lemma NoDup_keys_filter {V} (P : string * V → Prop) `{∀ kv, Decision (P kv)}
    (d : list (string * V)) :
  NoDup (map fst d) → NoDup (map fst (filter P d)).
Proof.
  induction d as [|[k v] d IH]; simpl; [constructor|].
  intros Hnodup. apply NoDup_cons in Hnodup as [Hk Hnodup].
  rewrite filter_cons. destruct (decide (P (k, v))); [|exact (IH Hnodup)].
  simpl. apply NoDup_cons. split; [|exact (IH Hnodup)].
  intros Hin. apply Hk. apply elem_of_map in Hin as ([k' v'] & -> & Hin).
  apply list_elem_of_filter in Hin as [_ Hin].
  apply elem_of_map. exists (k', v'). auto.
Qed.

(** An [EventSignature] can be built when the names of the fields, made
    safe, are identifiers. *)
Lemma EventSignature_init_Ok parameters indexed :
  (∀ name, name ∈ dict_keys parameters → isidentifier (make_name_safe name) = true) →
  is_ok (EventSignature.__init__ parameters indexed) = true.
Proof.
  intros Hident. unfold EventSignature.__init__.
  set (parameters' := dict_of_pairs _). set (indexed' := set_map _ _ : gset string).
  destruct (dict_keys_of_pairs
              (map (λ '(name, val), (make_name_safe name, val)) parameters))
    as [Hnodup Hkeys].
  fold parameters' in Hnodup, Hkeys.
  assert (Hsafe : ∀ name, name ∈ dict_keys parameters' →
            inspect_Parameter name POSITIONAL_OR_KEYWORD
            = Ok {| Param_name := name; Param_kind := POSITIONAL_OR_KEYWORD |}).
  { intros name Hin. apply Hkeys in Hin. rewrite map_map in Hin.
    apply elem_of_map in Hin as ([n tp] & -> & Hin). simpl.
    unfold inspect_Parameter. rewrite iskeyword_make_name_safe. simpl.
    rewrite Hident; [reflexivity|]. apply elem_of_map. exists (n, tp). auto. }
  rewrite (mapM_Ok_map _
             (λ kv : string * ABIType,
                {| Param_name := kv.1; Param_kind := POSITIONAL_OR_KEYWORD |})).
  2:{ intros [name tp] Hin. apply list_elem_of_filter in Hin as [_ Hin].
      apply Hsafe. apply elem_of_map. exists (name, tp). auto. }
  rewrite bind_ret. unfold inspect_Signature.
  rewrite check_duplicates_NoDup; cycle 1.
  { rewrite map_map. simpl. apply NoDup_keys_filter. exact Hnodup. }
  { intros p _ Hin. inversion Hin. }
  rewrite !bind_ret.
  destruct (mapM _ (filter _ (dict_keys parameters'))) as [tn|e] eqn:Htn;
    [reflexivity|].
  apply mapM_Raise in Htn as (name & Hin & Hname).
  apply list_elem_of_filter in Hin as [_ Hin].
  unfold dict_getitem in Hname.
  destruct (dict_get name parameters') eqn:Hget; [discriminate|].
  rewrite dict_get_None in Hget. apply elem_of_map in Hin as ([k v] & -> & Hin).
  destruct (Hget v Hin).
Qed.
(** C5. Constructing an [Event] raises the validation error of the cap on
    indexed fields exactly when the cap is violated (more than 4 indexed
    fields for an anonymous event, more than 3 otherwise); the error does
    not depend on the collaborators, the hash among them, which is not
    called. When the cap is respected the construction goes on to the
    [EventSignature], and it succeeds when the names of the fields are
    identifiers. *)
Theorem Event_init_cap name fields indexed (anonymous : bool) :
  let cap := if anonymous then 4 else 3 in
  let cap_error :=
    ValueError (if anonymous
                then "Anonymous events can have at most 4 indexed fields"
                else "Non-anonymous events can have at most 3 indexed fields") in
  (Event.__init__ name fields indexed anonymous = Raise cap_error
   ↔ cap < size indexed)
  ∧ (size indexed ≤ cap →
     Event.__init__ name fields indexed anonymous
     = (fields_ ← EventSignature.__init__ fields indexed;
        Ok {| Event.name := name;
              Event.indexed := indexed;
              Event.fields := fields_;
              Event.anonymous := anonymous |}))
  ∧ (size indexed ≤ cap →
     (∀ field, field ∈ dict_keys fields →
               isidentifier (make_name_safe field) = true) →
     is_ok (Event.__init__ name fields indexed anonymous) = true).
Proof.
  simpl.
  assert (Hle : size indexed ≤ (if anonymous then 4 else 3) →
    Event.__init__ name fields indexed anonymous
    = (fields_ ← EventSignature.__init__ fields indexed;
       Ok {| Event.name := name;
             Event.indexed := indexed;
             Event.fields := fields_;
             Event.anonymous := anonymous |})).
  { intros Hsize. unfold Event.__init__. destruct anonymous; simpl.
    - rewrite bool_decide_eq_false_2 by lia. reflexivity.
    - rewrite bool_decide_eq_false_2 by lia. reflexivity. }
  split; [|split; [exact Hle|]]; [split|].
  3:{ intros Hsize Hident. rewrite (Hle Hsize).
      pose proof (EventSignature_init_Ok fields indexed Hident) as Hok.
      destruct (EventSignature.__init__ fields indexed); [reflexivity | discriminate]. }
  - intros Hraise.
    destruct (decide ((if anonymous then 4 else 3) < size indexed)) as [|Hsize];
      [assumption|].
    rewrite Hle in Hraise by lia.
    destruct (EventSignature.__init__ fields indexed) as [fields_|e] eqn:Hsig;
      simpl in Hraise; [discriminate|].
    injection Hraise as ->.
    apply EventSignature_init_Raise in Hsig as [[n Hn]|[[n Hn]|[n Hn]]];
      destruct anonymous; discriminate.
  - intros Hsize. unfold Event.__init__. destruct anonymous; simpl.
    + rewrite bool_decide_eq_true_2 by exact Hsize. reflexivity.
    + rewrite bool_decide_eq_true_2 by exact Hsize. reflexivity.
Qed.

End event_init.

Section event_init_examples.
Import Reference.

Lemma Event_init_cap_witness :
  Event.__init__ "E" Examples.five_fields Examples.indexed_5 true
  = Raise (ValueError "Anonymous events can have at most 4 indexed fields")
  ∧ is_ok (Event.__init__ "E" Examples.five_fields Examples.indexed_4 true) = true
  ∧ Event.__init__ "E" Examples.five_fields Examples.indexed_4 false
    = Raise (ValueError "Non-anonymous events can have at most 3 indexed fields")
  ∧ is_ok (Event.__init__ "E" Examples.five_fields Examples.indexed_3 false) = true.
Proof.
  assert (Hident : ∀ field, field ∈ dict_keys Examples.five_fields →
                            isidentifier (make_name_safe field) = true).
  { intros field Hin. unfold Examples.five_fields, dict_keys in Hin. simpl in Hin.
    repeat (apply elem_of_cons in Hin as [->|Hin]; [vm_compute; reflexivity|]).
    inversion Hin. }
  split; [|split; [|split]].
  - apply (proj1 (Event_init_cap "E" Examples.five_fields Examples.indexed_5 true)).
    vm_compute. lia.
  - apply (proj2 (proj2 (Event_init_cap "E" Examples.five_fields
                           Examples.indexed_4 true)));
      [vm_compute; lia | exact Hident].
  - apply (proj1 (Event_init_cap "E" Examples.five_fields Examples.indexed_4 false)).
    vm_compute. lia.
  - apply (proj2 (proj2 (Event_init_cap "E" Examples.five_fields
                           Examples.indexed_3 false)));
      [vm_compute; lia | exact Hident].
Defined.

End event_init_examples.

(** ** Topics of an event filter *)

Section encode_to_topics.
Context `{!Collaborators}.

(** The topics of one indexed parameter under the bound arguments. *)
Local Abbreviation field_topics types bound_args :=
  (λ param : Param,
     match dict_get (Param_name param) bound_args with
     | None => Ok None
     | Some (Plain v) =>
         tp ← dict_getitem (Param_name param) types;
         elem ← encode_to_topic tp v;
         Ok (Some [elem])
     | Some (Either items) =>
         tp ← dict_getitem (Param_name param) types;
         elems ← mapM (encode_to_topic tp) items;
         Ok (Some elems)
     end).

Lemma encode_loop_mapM types bound_args parameters encoded_topics :
  EventSignature.encode_loop types bound_args parameters encoded_topics
  = (topics ← mapM (field_topics types bound_args) parameters;
     Ok (encoded_topics ++ topics)).
Proof.
  revert encoded_topics.
  induction parameters as [|param parameters IH]; intros encoded_topics; simpl.
  - rewrite app_nil_r. reflexivity.
  - destruct (dict_get (Param_name param) bound_args) as [[v|items]|]; simpl.
    + destruct (dict_getitem (Param_name param) types) as [tp|e]; simpl; [|reflexivity].
      destruct (encode_to_topic tp v) as [elem|e]; simpl; [|reflexivity].
      rewrite IH. destruct (mapM _ parameters); simpl; [|reflexivity].
      rewrite <- app_assoc. reflexivity.
    + destruct (dict_getitem (Param_name param) types) as [tp|e]; simpl; [|reflexivity].
      destruct (mapM (encode_to_topic tp) items) as [elems|e]; simpl; [|reflexivity].
      rewrite IH. destruct (mapM _ parameters); simpl; [|reflexivity].
      rewrite <- app_assoc. reflexivity.
    + rewrite IH. destruct (mapM _ parameters); simpl; [|reflexivity].
      rewrite <- app_assoc. reflexivity.
Qed.

(** With enough fuel the loop that pops trailing [None]s removes them all
    and nothing else. *)
Lemma pop_trailing_None_spec {A} (fuel : nat) (l : list (option A)) :
  length l ≤ fuel →
  ∃ k, l = EventSignature.pop_trailing_None fuel l ++ replicate k None
       ∧ last (EventSignature.pop_trailing_None fuel l) ≠ Some None.
Proof.
  revert l. induction fuel as [|fuel IH]; intros l Hlen.
  - destruct l; [|simpl in Hlen; lia]. exists 0. split; [reflexivity | discriminate].
  - destruct l as [|x l] using rev_ind.
    + exists 0. split; [reflexivity | discriminate].
    + clear IHl. simpl. rewrite last_snoc. destruct x as [a|].
      * exists 0. rewrite app_nil_r, last_snoc. split; [reflexivity | discriminate].
      * rewrite removelast_last. rewrite length_app in Hlen. simpl in Hlen.
        destruct (IH l) as (k & Hl & Hlast); [lia|].
        exists (S k). split; [|exact Hlast].
        rewrite replicate_S_end, app_assoc, <- Hl. reflexivity.
Qed.

(** The parameters of a constructed signature are the indexed fields, in
    the order of their declaration. *)
Lemma EventSignature_init_signature parameters indexed (sig : EventSignature.t) :
  EventSignature.__init__ parameters indexed = Ok sig →
  map Param_name (EventSignature._signature sig)
  = filter (λ name, name ∈ EventSignature._indexed sig)
      (dict_keys (EventSignature._types sig))
  ∧ EventSignature._types sig
    = dict_of_pairs (map (λ '(name, val), (make_name_safe name, val)) parameters)
  ∧ EventSignature._indexed sig = set_map make_name_safe indexed.
Proof.
  unfold EventSignature.__init__.
  set (parameters' := dict_of_pairs _). set (indexed' := set_map _ _ : gset string).
  intros Hinit.
  apply bind_Ok in Hinit as (ps & Hps & Hinit).
  apply bind_Ok in Hinit as (sig' & Hsig & Hinit).
  apply bind_Ok in Hinit as (tn & _ & [= <-]). simpl.
  split; [|split; reflexivity].
  unfold inspect_Signature in Hsig.
  apply bind_Ok in Hsig as (_ & _ & [= <-]).
  clear -Hps. revert ps Hps. unfold dict_keys, dict in *.
  induction parameters' as [|[name tp] d IH]; intros ps Hps.
  - injection Hps as <-. reflexivity.
  - rewrite filter_cons in Hps. cbn [map fst]. rewrite filter_cons.
    cbn [fst] in Hps. destruct (decide (name ∈ indexed')).
    + cbn [mapM] in Hps. apply bind_Ok in Hps as (p & Hp & Hps).
      apply bind_Ok in Hps as (ps' & Hps' & [= <-]). cbn [map].
      rewrite (IH ps' Hps'). f_equal.
      unfold inspect_Parameter in Hp. destruct (_ || _); [discriminate|].
      injection Hp as <-. reflexivity.
    + exact (IH ps Hps).
Qed.

Lemma encode_to_topics_mapM (self : EventSignature.t) args kwargs :
  EventSignature.encode_to_topics self args kwargs
  = (bound_args ← bind_partial (EventSignature._signature self) args kwargs;
     encoded_topics ←
       mapM (field_topics (EventSignature._types self) bound_args)
         (EventSignature._signature self);
     Ok (EventSignature.pop_trailing_None (length encoded_topics) encoded_topics)).
Proof.
  unfold EventSignature.encode_to_topics.
  destruct (bind_partial _ args kwargs) as [bound_args|e]; simpl; [|reflexivity].
  rewrite encode_loop_mapM.
  destruct (mapM _ (EventSignature._signature self)); reflexivity.
Qed.

Lemma bind_keywords_nil {V} parameters (arguments : dict string V) :
  bind_keywords parameters [] arguments = (arguments, []).
Proof. induction parameters as [|p parameters IH]; simpl; auto. Qed.

Lemma bind_partial_nil {V} parameters :
  bind_partial (V:=V) parameters [] [] = Ok [].
Proof.
  unfold bind_partial. simpl. rewrite bind_keywords_nil. reflexivity.
Qed.

Lemma field_topics_unbound types parameters :
  mapM (field_topics types []) parameters = Ok (replicate (length parameters) None).
Proof.
  induction parameters as [|p parameters IH]; [reflexivity|].
  rewrite mapM_cons, IH. reflexivity.
Qed.

Lemma pop_trailing_None_replicate {A} (n : nat) :
  EventSignature.pop_trailing_None (A:=A) n (replicate n None) = [].
Proof.
  destruct (pop_trailing_None_spec (A:=A) n (replicate n None)) as (k & Hl & Hlast).
  { rewrite length_replicate. reflexivity. }
  destruct (EventSignature.pop_trailing_None n (replicate n None))
    as [|x l _] using rev_ind; [reflexivity|].
  exfalso. apply Hlast. rewrite last_snoc. f_equal.
  assert (Hin : x ∈ replicate n (@None A)).
  { rewrite Hl. apply elem_of_app. left. apply elem_of_app. right. left. }
  apply elem_of_replicate in Hin as [-> _]. reflexivity.
Qed.

(** Without arguments every topic is [None], and all are removed. *)
Lemma encode_to_topics_no_arguments (self : EventSignature.t) :
  EventSignature.encode_to_topics self [] [] = Ok [].
Proof.
  rewrite encode_to_topics_mapM, bind_partial_nil, bind_ret.
  rewrite field_topics_unbound, bind_ret, length_replicate.
  rewrite pop_trailing_None_replicate. reflexivity.
Qed.

(** C7. The parameters of an [EventSignature] are its indexed fields in the
    order of their declaration. For every binding of arguments to them,
    [encode_to_topics] computes for each parameter in that order: [None] if
    it is unbound, the one-element tuple of the topic encoding of the value
    if it is bound to a single value, the tuple of the topic encodings of
    all alternatives if it is bound to an [Either]; what it returns is that
    sequence without its trailing [None]s: the sequence is the result
    followed by [None]s only, and the result does not end with [None]. *)
Theorem encode_to_topics_spec :
  (∀ parameters indexed (self : EventSignature.t),
     EventSignature.__init__ parameters indexed = Ok self →
     map Param_name (EventSignature._signature self)
     = filter (λ name, name ∈ EventSignature._indexed self)
         (dict_keys (EventSignature._types self)))
  ∧ (∀ (self : EventSignature.t) args kwargs,
       EventSignature.encode_to_topics self args kwargs
       = (bound_args ← bind_partial (EventSignature._signature self) args kwargs;
          encoded_topics ←
            mapM (field_topics (EventSignature._types self) bound_args)
              (EventSignature._signature self);
          Ok (EventSignature.pop_trailing_None (length encoded_topics)
                encoded_topics)))
  ∧ (∀ encoded_topics : list (option (list bytes)),
       ∃ k, encoded_topics
            = EventSignature.pop_trailing_None (length encoded_topics)
                encoded_topics ++ replicate k None
            ∧ last (EventSignature.pop_trailing_None (length encoded_topics)
                      encoded_topics) ≠ Some None).
Proof.
  split; [|split].
  - intros parameters indexed self Hinit.
    exact (proj1 (EventSignature_init_signature _ _ _ Hinit)).
  - exact encode_to_topics_mapM.
  - intros encoded_topics. apply pop_trailing_None_spec. reflexivity.
Qed.

End encode_to_topics.

(** ** Event filters *)

Section event_call.
Context `{!Collaborators}.

Local Abbreviation log_topics_of :=
  (λ topic : option (list bytes),
     match topic with
     | None => None
     | Some elems => Some (map Build_LogTopic elems)
     end).

Lemma append_log_topics (encoded_topics : list (option (list bytes))) log_topics :
  fold_left
    (λ log_topics topic,
       match topic with
       | None => log_topics ++ [None]
       | Some elems => log_topics ++ [Some (map Build_LogTopic elems)]
       end)
    encoded_topics log_topics
  = log_topics ++ map log_topics_of encoded_topics.
Proof.
  revert log_topics.
  induction encoded_topics as [|topic encoded_topics IH]; intros log_topics; simpl.
  - rewrite app_nil_r. reflexivity.
  - rewrite IH. destruct topic; rewrite <- app_assoc; reflexivity.
Qed.

(** C8. Building the filter of a non-anonymous [Event] puts the singleton
    tuple of the event's topic, the hash of its name and canonical form,
    ahead of the encoded topics of the indexed fields; called with no
    arguments it gives exactly [[(_topic,)]]. For an anonymous [Event] the
    filter holds the encoded topics of the fields only. *)
Theorem Event_call_topics (self : Event.t) :
  (Event.anonymous self = false →
   (∀ args kwargs,
      Event.__call__ self args kwargs
      = (encoded_topics ←
           EventSignature.encode_to_topics (Event.fields self) args kwargs;
         Ok {| EventFilter.topics :=
                 Some [Event._topic self] :: map log_topics_of encoded_topics |}))
   ∧ Event.__call__ self [] []
     = Ok {| EventFilter.topics := [Some [Event._topic self]] |}
   ∧ LogTopic_bytes (Event._topic self)
     = keccak (encode (Event.name self)
               ++ encode (EventSignature.canonical_form (Event.fields self))))
  ∧ (Event.anonymous self = true →
     ∀ args kwargs,
       Event.__call__ self args kwargs
       = (encoded_topics ←
            EventSignature.encode_to_topics (Event.fields self) args kwargs;
          Ok {| EventFilter.topics := map log_topics_of encoded_topics |})).
Proof.
  split.
  - intros Hanon.
    assert (Hcall : ∀ args kwargs,
      Event.__call__ self args kwargs
      = (encoded_topics ←
           EventSignature.encode_to_topics (Event.fields self) args kwargs;
         Ok {| EventFilter.topics :=
                 Some [Event._topic self] :: map log_topics_of encoded_topics |})).
    { intros args kwargs. unfold Event.__call__. rewrite Hanon.
      destruct (EventSignature.encode_to_topics _ args kwargs); simpl; [|reflexivity].
      rewrite append_log_topics. reflexivity. }
    split; [exact Hcall|]. split; [|reflexivity].
    rewrite Hcall, encode_to_topics_no_arguments. reflexivity.
  - intros Hanon args kwargs. unfold Event.__call__. rewrite Hanon.
    destruct (EventSignature.encode_to_topics _ args kwargs); simpl; [|reflexivity].
    rewrite append_log_topics. reflexivity.
Qed.

(** ** Decoding a log entry *)

(** C6. [EventSignature.decode_log_entry] raises the [ValueError] that cites
    the number of topics and the number of indexed fields whenever the two
    differ, and returns a result only when they are equal. *)
Theorem decode_log_entry_topic_count
    (self : EventSignature.t) (topics : list bytes) (data : bytes) :
  (length topics ≠ size (EventSignature._indexed self) →
   EventSignature.decode_log_entry self topics data
   = Raise (ValueError
       ("The number of topics in the log entry (" +:+ pretty (length topics)
        +:+ ") does not match the number of indexed fields in the event ("
        +:+ pretty (size (EventSignature._indexed self)) +:+ ")")))
  ∧ (∀ decoded, EventSignature.decode_log_entry self topics data = Ok decoded →
                length topics = size (EventSignature._indexed self)).
Proof.
  unfold EventSignature.decode_log_entry. split.
  - intros Hne. rewrite bool_decide_eq_true_2 by exact Hne. reflexivity.
  - intros decoded. case_bool_decide as Hcount; [discriminate|].
    intros _. destruct (decide (length topics = size (EventSignature._indexed self)));
      [assumption | contradiction].
Qed.

(** C10. For a non-anonymous [Event], [decode_log_entry] reads [topics[0]]
    first: on a log entry without topics it raises [IndexError], neither the
    error of a different event nor that of the topic count; on a first topic
    other than the event's it raises the error of a different event however
    many topics there are; otherwise it hands the remaining topics to the
    [EventSignature], where the count is checked. *)
Theorem Event_decode_log_entry_topic0 (self : Event.t) :
  Event.anonymous self = false →
  (∀ data,
     Event.decode_log_entry self {| LogEntry.topics := []; LogEntry.data := data |}
     = Raise (IndexError "tuple index out of range"))
  ∧ (∀ topic0 topics data,
       topic0 ≠ Event._topic self →
       Event.decode_log_entry self
         {| LogEntry.topics := topic0 :: topics; LogEntry.data := data |}
       = Raise (ValueError "This log entry belongs to a different event"))
  ∧ (∀ topics data,
       Event.decode_log_entry self
         {| LogEntry.topics := Event._topic self :: topics; LogEntry.data := data |}
       = EventSignature.decode_log_entry (Event.fields self)
           (map LogTopic_bytes topics) data).
Proof.
  intros Hanon. unfold Event.decode_log_entry. rewrite Hanon. simpl.
  split; [reflexivity|]. split.
  - intros topic0 topics data Hne.
    rewrite bool_decide_eq_true_2 by exact Hne. reflexivity.
  - intros topics data. rewrite bool_decide_eq_false_2 by auto. reflexivity.
Qed.

End event_call.

Section event_examples.
Import Reference.

(** The concrete inputs are what the constructors return. *)
Lemma examples_constructed :
  ContractABI.__init__ None None None None None None = Ok Examples.empty_abi
  ∧ Error.__init__ "InsufficientBalance" [("needed", uint 256)]
    = Ok Examples.insufficient_balance
  ∧ Method.__init__ "balance" Mutability.VIEW (Positional []) (OutputsType (uint 256))
    = Ok Examples.balance_bare
  ∧ Event.__init__ "Transfer" Examples.transfer_fields Examples.transfer_indexed false
    = Ok Examples.transfer_event
  ∧ Event.__init__ "Transfer" Examples.transfer_fields Examples.transfer_indexed true
    = Ok Examples.anonymous_transfer_event
  ∧ Event._topic Examples.transfer_event = Examples.transfer_topic
  ∧ encode_to_topic address (VAddress Examples.alice) = Ok Examples.alice_topic
  ∧ encode_to_topic address (VAddress Examples.bob) = Ok Examples.bob_topic.
Proof. repeat split; vm_compute; reflexivity. Qed.

Lemma encode_to_topics_spec_witness :
  map Param_name (EventSignature._signature Examples.transfer_signature)
  = filter (λ name, name ∈ EventSignature._indexed Examples.transfer_signature)
      (dict_keys (EventSignature._types Examples.transfer_signature))
  ∧ EventSignature.encode_to_topics Examples.transfer_signature []
      [("to", Either [VAddress Examples.alice; VAddress Examples.bob])]
    = Ok [None; Some [Examples.alice_topic; Examples.bob_topic]]
  ∧ EventSignature.encode_to_topics Examples.transfer_signature
      [Plain (VAddress Examples.alice)] []
    = Ok [Some [Examples.alice_topic]].
Proof.
  destruct encode_to_topics_spec as (Hsig & Henc & _).
  split; [|split].
  - apply (Hsig Examples.transfer_fields Examples.transfer_indexed).
    vm_compute. reflexivity.
  - rewrite Henc. vm_compute. reflexivity.
  - rewrite Henc. vm_compute. reflexivity.
Defined.

Lemma Event_call_topics_witness :
  Event.__call__ Examples.transfer_event [] []
  = Ok {| EventFilter.topics := [Some [Examples.transfer_topic]] |}
  ∧ Event.__call__ Examples.transfer_event [] [("from_", Plain (VAddress Examples.alice))]
    = Ok {| EventFilter.topics :=
              [ Some [Examples.transfer_topic];
                Some [Build_LogTopic Examples.alice_topic] ] |}
  ∧ Event.__call__ Examples.anonymous_transfer_event
      [] [("from_", Plain (VAddress Examples.alice))]
    = Ok {| EventFilter.topics := [ Some [Build_LogTopic Examples.alice_topic] ] |}.
Proof.
  destruct (Event_call_topics Examples.transfer_event) as [Hnamed _].
  destruct (Hnamed eq_refl) as (Hcall & Hnone & _).
  destruct (Event_call_topics Examples.anonymous_transfer_event) as [_ Hanon].
  split; [|split].
  - rewrite Hnone. vm_compute. reflexivity.
  - rewrite Hcall. vm_compute. reflexivity.
  - rewrite (Hanon eq_refl). vm_compute. reflexivity.
Defined.

Lemma decode_log_entry_topic_count_witness :
  EventSignature.decode_log_entry Examples.transfer_signature
    [Examples.alice_topic] Examples.word_17
  = Raise (ValueError
      "The number of topics in the log entry (1) does not match the number of indexed fields in the event (2)")
  ∧ EventSignature.decode_log_entry Examples.transfer_signature
      [Examples.alice_topic; Examples.bob_topic] Examples.word_17
    = Ok [ ("from_", VAddress Examples.alice); ("to", VAddress Examples.bob);
           ("value", VInt 17) ]
  ∧ length [Examples.alice_topic; Examples.bob_topic]
    = size (EventSignature._indexed Examples.transfer_signature).
Proof.
  assert (Hdec : EventSignature.decode_log_entry Examples.transfer_signature
                   [Examples.alice_topic; Examples.bob_topic] Examples.word_17
                 = Ok [ ("from_", VAddress Examples.alice);
                        ("to", VAddress Examples.bob); ("value", VInt 17) ])
    by (vm_compute; reflexivity).
  split; [|split; [exact Hdec|]].
  - rewrite (proj1 (decode_log_entry_topic_count Examples.transfer_signature
                      [Examples.alice_topic] Examples.word_17))
      by (vm_compute; lia).
    vm_compute. reflexivity.
  - exact (proj2 (decode_log_entry_topic_count Examples.transfer_signature
                    [Examples.alice_topic; Examples.bob_topic] Examples.word_17)
             _ Hdec).
Defined.

Lemma Event_decode_log_entry_topic0_witness :
  Event.decode_log_entry Examples.transfer_event
    {| LogEntry.topics := []; LogEntry.data := Examples.word_17 |}
  = Raise (IndexError "tuple index out of range")
  ∧ Event.decode_log_entry Examples.transfer_event
      {| LogEntry.topics := [Build_LogTopic Examples.alice_topic];
         LogEntry.data := Examples.word_17 |}
    = Raise (ValueError "This log entry belongs to a different event")
  ∧ Event.decode_log_entry Examples.transfer_event
      {| LogEntry.topics :=
           [ Event._topic Examples.transfer_event;
             Build_LogTopic Examples.alice_topic;
             Build_LogTopic Examples.bob_topic ];
         LogEntry.data := Examples.word_17 |}
    = Ok [ ("from_", VAddress Examples.alice); ("to", VAddress Examples.bob);
           ("value", VInt 17) ].
Proof.
  destruct (Event_decode_log_entry_topic0 Examples.transfer_event eq_refl)
    as (Hempty & Hother & Hsame).
  split; [|split].
  - apply Hempty.
  - apply Hother. vm_compute. discriminate.
  - rewrite Hsame. vm_compute. reflexivity.
Defined.

End event_examples.

(** ** Constructors in a JSON ABI *)

Section from_json.
Context `{!Collaborators}.

Local Abbreviation is_constructor_entry entry :=
  (dict_get "type" entry = Some (JStr "constructor")).

Local Abbreviation initial :=
  {| ContractABI.p_constructor := None; ContractABI.p_fallback := None;
     ContractABI.p_receive := None; ContractABI.p_methods := [];
     ContractABI.p_events := []; ContractABI.p_errors := [] |}.

Lemma json_eq_str_true (j : JSON) (s : string) :
  json_eq_str j s = true ↔ j = JStr s.
Proof.
  destruct j; simpl; try (split; [discriminate | intros [=]]).
  rewrite String.eqb_eq. split; [intros ->; reflexivity | intros [= ->]; reflexivity].
Qed.

Lemma from_json_loop_app json_abi1 json_abi2 (st : ContractABI.parsed) :
  ContractABI.from_json_loop (json_abi1 ++ json_abi2) st
  = (st' ← ContractABI.from_json_loop json_abi1 st;
     ContractABI.from_json_loop json_abi2 st').
Proof.
  revert st. induction json_abi1 as [|entry json_abi1 IH]; intros st; simpl.
  - reflexivity.
  - destruct (ContractABI.from_json_entry st entry) as [st'|e]; simpl;
      [apply IH | reflexivity].
Qed.

(** Breaks a successful run of one iteration into its steps. *)
Ltac step_entry H :=
  repeat match type of H with
    | (_ ≫= _) = Ok _ =>
        let x := fresh "x" in
        let Hx := fresh "Hx" in
        apply bind_Ok in H as (x & Hx & H)
    | (if ?b then _ else _) = Ok _ =>
        let Hb := fresh "Hb" in
        destruct b eqn:Hb; [try discriminate H | try discriminate H]
    | Ok _ = Ok _ => injection H as H
    end.

(** Once a constructor is recorded it stays recorded, and a constructor
    entry records one. *)
Lemma from_json_entry_constructor (st st' : ContractABI.parsed) entry :
  ContractABI.from_json_entry st entry = Ok st' →
  is_Some (ContractABI.p_constructor st) ∨ is_constructor_entry entry →
  is_Some (ContractABI.p_constructor st').
Proof.
  unfold ContractABI.from_json_entry. intros Hentry Hsome.
  apply bind_Ok in Hentry as (type & Htype & Hentry).
  destruct (json_eq_str type "constructor") eqn:Hctor.
  - step_entry Hentry; subst st'; simpl; eauto.
  - assert (Hold : is_Some (ContractABI.p_constructor st)).
    { destruct Hsome as [Hsome|Hsome]; [exact Hsome|].
      unfold dict_getitem in Htype. rewrite Hsome in Htype. injection Htype as <-.
      discriminate Hctor. }
    step_entry Hentry; subst st'; simpl; exact Hold.
Qed.

Lemma from_json_loop_constructor json_abi (st st' : ContractABI.parsed) :
  ContractABI.from_json_loop json_abi st = Ok st' →
  is_Some (ContractABI.p_constructor st) →
  is_Some (ContractABI.p_constructor st').
Proof.
  revert st. induction json_abi as [|entry json_abi IH]; intros st; simpl.
  - intros [= <-]. auto.
  - intros Hloop Hsome. apply bind_Ok in Hloop as (st1 & Hentry & Hloop).
    apply (IH st1 Hloop). apply (from_json_entry_constructor _ _ _ Hentry). auto.
Qed.

(** Other entries leave the constructor as it is. *)
Lemma from_json_entry_other (st st' : ContractABI.parsed) entry :
  ContractABI.from_json_entry st entry = Ok st' →
  ¬ is_constructor_entry entry →
  ContractABI.p_constructor st' = ContractABI.p_constructor st.
Proof.
  unfold ContractABI.from_json_entry. intros Hentry Hother.
  apply bind_Ok in Hentry as (type & Htype & Hentry).
  destruct (json_eq_str type "constructor") eqn:Hctor.
  - exfalso. apply Hother. apply json_eq_str_true in Hctor as ->.
    unfold dict_getitem in Htype. destruct (dict_get "type" entry); [|discriminate].
    injection Htype as ->. reflexivity.
  - step_entry Hentry; subst st'; reflexivity.
Qed.

Lemma from_json_loop_other json_abi (st st' : ContractABI.parsed) :
  ContractABI.from_json_loop json_abi st = Ok st' →
  (∀ entry, entry ∈ json_abi → ¬ is_constructor_entry entry) →
  ContractABI.p_constructor st' = ContractABI.p_constructor st.
Proof.
  revert st. induction json_abi as [|entry json_abi IH]; intros st; simpl.
  - intros [= <-]. reflexivity.
  - intros Hloop Hother. apply bind_Ok in Hloop as (st1 & Hentry & Hloop).
    rewrite (IH st1 Hloop) by (intros entry' Hin; apply Hother; right; exact Hin).
    apply (from_json_entry_other _ _ _ Hentry). apply Hother. left.
Qed.

Lemma from_json_entry_duplicate (st : ContractABI.parsed) entry :
  is_Some (ContractABI.p_constructor st) →
  is_constructor_entry entry →
  ContractABI.from_json_entry st entry
  = Raise (ValueError "JSON ABI contains more than one constructor declarations").
Proof.
  intros Hsome Hctor. unfold ContractABI.from_json_entry, dict_getitem.
  rewrite Hctor. simpl. rewrite bool_decide_eq_true_2 by exact Hsome. reflexivity.
Qed.

Lemma Constructor_init_default :
  Constructor.__init__ (Positional []) false = Ok default_constructor.
Proof. reflexivity. Qed.

(** C9. [ContractABI.from_json] fails on every declaration list with two
    constructor entries; when the entries before the second constructor
    entry are accepted, the failure is the error of a duplicate constructor
    declaration. An ABI made from a list without constructor entries has
    the constructor [Constructor(inputs=[])]: no parameters, not payable. *)
Theorem from_json_constructors :
  (∀ before entry1 between entry2 after,
     is_constructor_entry entry1 →
     is_constructor_entry entry2 →
     is_ok (ContractABI.from_json
              (before ++ entry1 :: between ++ entry2 :: after)) = false
     ∧ (is_ok (ContractABI.from_json_loop (before ++ entry1 :: between) initial)
        = true →
        ContractABI.from_json (before ++ entry1 :: between ++ entry2 :: after)
        = Raise (ValueError
                   "JSON ABI contains more than one constructor declarations")))
  ∧ (∀ json_abi (abi : ContractABI.t),
       (∀ entry, entry ∈ json_abi → ¬ is_constructor_entry entry) →
       ContractABI.from_json json_abi = Ok abi →
       ContractABI.constructor abi = default_constructor
       ∧ Constructor.__init__ (Positional []) false = Ok default_constructor
       ∧ Signature._types (Constructor.inputs default_constructor) = []
       ∧ Signature._signature (Constructor.inputs default_constructor) = []
       ∧ Constructor.payable default_constructor = false).
Proof.
  split.
  - intros before entry1 between entry2 after Hctor1 Hctor2.
    assert (Hsplit : before ++ entry1 :: between ++ entry2 :: after
                     = (before ++ entry1 :: between) ++ entry2 :: after).
    { rewrite <- app_assoc. reflexivity. }
    assert (Hprefix : ∀ st,
      ContractABI.from_json_loop (before ++ entry1 :: between) initial = Ok st →
      ContractABI.from_json (before ++ entry1 :: between ++ entry2 :: after)
      = Raise (ValueError
                 "JSON ABI contains more than one constructor declarations")).
    { intros st Hloop. unfold ContractABI.from_json.
      rewrite Hsplit, from_json_loop_app, Hloop, bind_ret.
      assert (Hsome : is_Some (ContractABI.p_constructor st)).
      { rewrite from_json_loop_app in Hloop.
        apply bind_Ok in Hloop as (st0 & _ & Hloop). simpl in Hloop.
        apply bind_Ok in Hloop as (st1 & Hentry & Hloop).
        apply (from_json_loop_constructor _ _ _ Hloop).
        apply (from_json_entry_constructor _ _ _ Hentry). auto. }
      simpl. rewrite (from_json_entry_duplicate st entry2 Hsome Hctor2).
      reflexivity. }
    destruct (ContractABI.from_json_loop (before ++ entry1 :: between) initial)
      as [st|e] eqn:Hloop.
    + rewrite (Hprefix st eq_refl). split; [reflexivity | reflexivity].
    + split; [|discriminate]. unfold ContractABI.from_json.
      rewrite Hsplit, from_json_loop_app, Hloop. reflexivity.
  - intros json_abi abi Hother Hjson. unfold ContractABI.from_json in Hjson.
    apply bind_Ok in Hjson as (st & Hloop & Hinit).
    rewrite (from_json_loop_other _ _ _ Hloop Hother) in Hinit.
    unfold ContractABI.__init__ in Hinit. cbn [ContractABI.p_constructor] in Hinit.
    rewrite Constructor_init_default, bind_ret in Hinit. injection Hinit as <-.
    repeat split; reflexivity.
Qed.

End from_json.

Section from_json_examples.
Import Reference.

Lemma from_json_constructors_witness :
  ContractABI.from_json
    [ Examples.fallback_entry; Examples.constructor_entry; Examples.balance_entry;
      Examples.constructor_entry ]
  = Raise (ValueError "JSON ABI contains more than one constructor declarations")
  ∧ ContractABI.from_json [ Examples.fallback_entry; Examples.balance_entry ]
    = Ok Examples.fallback_balance_abi
  ∧ ContractABI.constructor Examples.fallback_balance_abi = default_constructor.
Proof.
  destruct from_json_constructors as [Htwo Hzero].
  assert (Hjson : ContractABI.from_json
                    [ Examples.fallback_entry; Examples.balance_entry ]
                  = Ok Examples.fallback_balance_abi)
    by (vm_compute; reflexivity).
  split; [|split; [exact Hjson|]].
  - apply (Htwo [Examples.fallback_entry] Examples.constructor_entry
             [Examples.balance_entry] Examples.constructor_entry []);
      vm_compute; reflexivity.
  - refine (proj1 (Hzero _ _ _ Hjson)).
    intros entry Hin.
    apply elem_of_cons in Hin as [->|Hin];
      [|apply list_elem_of_singleton in Hin as ->]; vm_compute; discriminate.
Defined.

End from_json_examples.

(** * Further properties *)

(** ** More on lists, dictionaries and [mapM] *)

Lemma mapM_Ok_Forall2 {A B} (f : A → result B) (l : list A) (r : list B) :
  mapM f l = Ok r → Forall2 (λ x y, f x = Ok y) l r.
Proof.
  revert r. induction l as [|x l IH]; intros r Hr.
  - injection Hr as <-. constructor.
  - rewrite mapM_cons in Hr. apply bind_Ok in Hr as (y & Hy & Hr).
    apply bind_Ok in Hr as (k & Hk & [= <-]). constructor; auto.
Qed.

Lemma mapM_Ok_length {A B} (f : A → result B) (l : list A) (r : list B) :
  mapM f l = Ok r → length r = length l.
Proof.
  intros Hr. apply mapM_Ok_Forall2 in Hr.
  symmetry. exact (Forall2_length _ _ _ Hr).
Qed.

Lemma dict_setitem_fresh {K V} `{EqDecision K} (k : K) (v : V) (d : dict K V) :
  k ∉ dict_keys d → dict_setitem k v d = d ++ [(k, v)].
Proof.
  unfold dict_keys. induction d as [|[k' v'] d IH]; simpl; intros Hk; [reflexivity|].
  destruct (decide (k = k')) as [->|Hne]; [destruct Hk; left|].
  rewrite IH; [reflexivity|]. intros Hin. apply Hk. right. exact Hin.
Qed.

(** Pairs with distinct keys make the dictionary that lists them. *)
Lemma dict_of_pairs_NoDup {K V} `{EqDecision K} (l : list (K * V)) :
  NoDup (map fst l) → dict_of_pairs l = l.
Proof.
  induction l as [|[k v] l IH] using rev_ind; [reflexivity|].
  rewrite map_app. simpl. intros Hnodup.
  apply NoDup_app in Hnodup as (Hl & Hk & _).
  rewrite dict_of_pairs_snoc, (IH Hl). apply dict_setitem_fresh.
  intros Hin. apply (Hk k Hin). left.
Qed.

Lemma dict_get_elem_NoDup {K V} `{EqDecision K} (k : K) (v : V) (d : dict K V) :
  NoDup (dict_keys d) → (k, v) ∈ d → dict_get k d = Some v.
Proof.
  unfold dict_keys. induction d as [|[k' v'] d IH]; simpl; intros Hnodup Hin.
  - inversion Hin.
  - apply NoDup_cons in Hnodup as [Hk' Hnodup].
    apply elem_of_cons in Hin as [[= -> ->]|Hin].
    + rewrite decide_True by reflexivity. reflexivity.
    + destruct (decide (k = k')) as [->|Hne]; [|auto].
      destruct Hk'. apply elem_of_map. exists (k', v). auto.
Qed.

Lemma map_fst_zip {A B} (l : list A) (k : list B) :
  length l = length k → map fst (zip l k) = l.
Proof.
  revert k. induction l as [|x l IH]; intros [|y k]; simpl; try discriminate.
  - reflexivity.
  - intros [= Hlen]. rewrite (IH k Hlen). reflexivity.
Qed.

Lemma map_snd_zip {A B} (l : list A) (k : list B) :
  length l = length k → map snd (zip l k) = k.
Proof.
  revert k. induction l as [|x l IH]; intros [|y k]; simpl; try discriminate.
  - reflexivity.
  - intros [= Hlen]. rewrite (IH k Hlen). reflexivity.
Qed.

Lemma check_duplicates_Ok seen parameters :
  check_duplicates seen parameters = Ok () →
  NoDup (map Param_name parameters)
  ∧ ∀ p, p ∈ parameters → Param_name p ∉ seen.
Proof.
  revert seen. induction parameters as [|p parameters IH]; intros seen; simpl.
  - intros _. split; [constructor|]. intros p Hin. inversion Hin.
  - case_bool_decide as Hp; [discriminate|]. intros Hrest.
    destruct (IH _ Hrest) as [Hnodup Hseen]. split.
    + apply NoDup_cons. split; [|exact Hnodup].
      intros Hin. apply elem_of_map in Hin as (p' & Heq & Hin).
      apply (Hseen p' Hin). rewrite <- Heq. left.
    + intros p' Hin. apply elem_of_cons in Hin as [->|Hin]; [exact Hp|].
      intros Hin'. apply (Hseen p' Hin). right. exact Hin'.
Qed.

(** ** Keyword escaping and signatures *)

Section signatures.
Context `{!Collaborators}.

(** X1. [make_name_safe] never returns a keyword, changes a name exactly
    when it is a keyword, and escaping twice is escaping once. *)
Theorem make_name_safe_spec (name : string) :
  iskeyword (make_name_safe name) = false
  ∧ bool_decide (make_name_safe name = name) = negb (iskeyword name)
  ∧ make_name_safe (make_name_safe name) = make_name_safe name.
Proof.
  split; [apply iskeyword_make_name_safe|]. split.
  - unfold make_name_safe. destruct (iskeyword name); simpl.
    + apply bool_decide_eq_false_2. clear.
      induction name as [|c name IH]; simpl; [discriminate|].
      intros [= Heq]. exact (IH Heq).
    + apply bool_decide_eq_true_2. reflexivity.
  - unfold make_name_safe at 1. rewrite iskeyword_make_name_safe. reflexivity.
Qed.

Lemma inspect_Parameter_Ok name kind p :
  inspect_Parameter name kind = Ok p →
  p = {| Param_name := name; Param_kind := kind |}
  ∧ isidentifier name = true
  ∧ (kind = POSITIONAL_OR_KEYWORD → iskeyword name = false).
Proof.
  unfold inspect_Parameter.
  destruct (iskeyword name) eqn:Hkw, (isidentifier name) eqn:Hid, kind;
    simpl; intros [= <-]; repeat split; auto; discriminate.
Qed.



(** The parameters of a built signature have distinct names, one for each
    type. *)
Lemma Signature_init_NoDup (parameters : Params ABIType) (sig : Signature.t) :
  Signature.__init__ parameters = Ok sig →
  NoDup (map Param_name (Signature._signature sig))
  ∧ length (Signature._signature sig) = length (Signature._types sig).
Proof.
  destruct parameters as [m|ts]; simpl; intros Hinit;
    apply bind_Ok in Hinit as (ps & Hps & Hinit);
    apply bind_Ok in Hinit as (sig' & Hsig & [= <-]); simpl;
    unfold inspect_Signature in Hsig; apply bind_Ok in Hsig as ([] & Hdup & [= <-]);
    apply check_duplicates_Ok in Hdup as [Hnodup _];
    apply mapM_Ok_length in Hps; (split; [exact Hnodup|]).
  - rewrite Hps. unfold dict_values. rewrite length_map. reflexivity.
  - rewrite Hps. apply length_seq.
Qed.

(** X3. For a built [Signature], [decode_into_dict] pairs the names of the
    parameters with the values of [decode_into_tuple] in order, merging
    none: when the codec returns one value for each type, the keys of the
    dictionary are the parameter names and its values are the tuple. *)
Theorem decode_into_dict_tuple
    (parameters : Params ABIType) (sig : Signature.t) (value_bytes : bytes)
    (decoded : list Value) :
  Signature.__init__ parameters = Ok sig →
  Signature.decode_into_tuple sig value_bytes = Ok decoded →
  length decoded = length (Signature._types sig) →
  ∃ d, Signature.decode_into_dict sig value_bytes = Ok d
       ∧ d = zip (map Param_name (Signature._signature sig)) decoded
       ∧ dict_keys d = map Param_name (Signature._signature sig)
       ∧ dict_values d = decoded.
Proof.
  intros Hinit Htuple Hlen. apply Signature_init_NoDup in Hinit as [Hnodup Hlen'].
  assert (Hnames : length (map Param_name (Signature._signature sig))
                   = length decoded).
  { rewrite length_map. congruence. }
  exists (zip (map Param_name (Signature._signature sig)) decoded).
  split; [|split; [reflexivity|split]].
  - unfold Signature.decode_into_dict. rewrite Htuple, bind_ret.
    rewrite dict_of_pairs_NoDup; [reflexivity|].
    rewrite (map_fst_zip _ _ Hnames). exact Hnodup.
  - apply (map_fst_zip _ _ Hnames).
  - apply (map_snd_zip _ _ Hnames).
Qed.

End signatures.

(** ** Selectors *)

Section selectors.
Context `{!Collaborators}.

(** X4. A selector is a function of the name and of the types of the
    inputs or fields alone: two methods built with the same name and input
    types have the same selector whatever the names of their parameters,
    their mutability and their outputs, and it is also the selector of an
    error with that name and these field types. A selector has at most 4
    bytes, and exactly 4 when the hash has at least 4. *)
Theorem selector_of_name_and_types
    (name : string) (inputs1 inputs2 : Params ABIType)
    mutability1 mutability2 outputs1 outputs2 (m1 m2 : Method.t)
    (fields : dict string ABIType) (e : Error.t) :
  Method.__init__ name mutability1 inputs1 outputs1 = Ok m1 →
  Method.__init__ name mutability2 inputs2 outputs2 = Ok m2 →
  Error.__init__ name fields = Ok e →
  Params_types inputs1 = Params_types inputs2 →
  Params_types inputs1 = dict_values fields →
  Method.selector m1 = Method.selector m2
  ∧ Method.selector m1 = Error.selector e
  ∧ Method.selector m1
    = take 4 (keccak (encode name
                      ++ encode ("(" +:+ String.concat ","
                                           (map canonical_form (Params_types inputs1))
                                 +:+ ")")))
  ∧ length (Method.selector m1) ≤ 4
  ∧ (4 ≤ length (keccak (encode name
                         ++ encode ("(" +:+ String.concat ","
                                              (map canonical_form (Params_types inputs1))
                                    +:+ ")"))) →
     length (Method.selector m1) = 4).
Proof.
  intros Hm1 Hm2 He Htypes Hfields.
  assert (Hsel : ∀ mutability inputs outputs (m : Method.t),
            Method.__init__ name mutability inputs outputs = Ok m →
            Method.selector m
            = take 4 (keccak (encode name
                              ++ encode ("(" +:+ String.concat ","
                                                   (map canonical_form
                                                      (Params_types inputs))
                                         +:+ ")")))).
  { intros mutability inputs outputs m Hm. unfold Method.__init__ in Hm.
    apply bind_Ok in Hm as (sig & Hsig & Hm).
    apply Signature_types in Hsig.
    destruct outputs as [|tp|ps]; cbn beta iota zeta in Hm;
      apply bind_Ok in Hm as (sig' & _ & [= <-]);
      unfold Method.selector, Method.name, Method.inputs, Signature.canonical_form;
      cbn; rewrite Hsig; reflexivity. }
  rewrite (Hsel _ _ _ _ Hm1), (Hsel _ _ _ _ Hm2), Htypes.
  split; [reflexivity|]. split.
  { unfold Error.__init__ in He. apply bind_Ok in He as (sig & Hsig & [= <-]).
    apply Signature_types in Hsig.
    unfold Error.selector, Signature.canonical_form. cbn.
    rewrite Hsig, <- Htypes, Hfields. reflexivity. }
  split; [reflexivity|]. rewrite <- Htypes, length_take. split; lia.
Qed.

End selectors.

(** ** Entries of a JSON ABI *)

Section entries.
Context `{!Collaborators}.

Lemma Mutability_from_json_Ok (entry : JSON) (m : Mutability.t) :
  Mutability.from_json entry = Ok m → entry = JStr (Mutability.value m).
Proof.
  unfold Mutability.from_json.
  destruct (json_eq_str entry "pure") eqn:H1;
    [apply json_eq_str_true in H1 as ->; intros [= <-]; reflexivity|].
  destruct (json_eq_str entry "view") eqn:H2;
    [apply json_eq_str_true in H2 as ->; intros [= <-]; reflexivity|].
  destruct (json_eq_str entry "nonpayable") eqn:H3;
    [apply json_eq_str_true in H3 as ->; intros [= <-]; reflexivity|].
  destruct (json_eq_str entry "payable") eqn:H4;
    [apply json_eq_str_true in H4 as ->; intros [= <-]; reflexivity|].
  discriminate.
Qed.

(** X5. [Mutability.from_json] accepts exactly the four values of the
    enumeration, each giving its member back, and a payable mutability is
    mutating. *)
Theorem Mutability_from_json_value :
  (∀ m, Mutability.from_json (JStr (Mutability.value m)) = Ok m)
  ∧ (∀ entry m, Mutability.from_json entry = Ok m →
                entry = JStr (Mutability.value m))
  ∧ (∀ m, Mutability.payable m = true → Mutability.mutating m = true).
Proof.
  split; [|split].
  - intros []; reflexivity.
  - exact Mutability_from_json_Ok.
  - intros []; simpl; auto.
Qed.

Lemma dict_getitem_Ok {V} (k : string) (d : dict string V) (v : V) :
  dict_getitem k d = Ok v → dict_get k d = Some v.
Proof. unfold dict_getitem. destruct (dict_get k d); [intros [= ->]; reflexivity | discriminate]. Qed.

Lemma as_str_Ok (j : JSON) (s : string) : as_str j = Ok s → j = JStr s.
Proof. destruct j; simpl; try discriminate. intros [= ->]. reflexivity. Qed.

(** X6. A method made by [Method.from_json] comes from an entry of type
    [function]; it has the name of the entry, is payable exactly when the
    state mutability of the entry is [payable], and is mutating exactly when
    it is [payable] or [nonpayable]. *)
Theorem Method_from_json_flags (method_entry : dict string JSON) (m : Method.t) :
  Method.from_json method_entry = Ok m →
  ∃ name stateMutability,
    dict_get "type" method_entry = Some (JStr "function")
    ∧ dict_get "name" method_entry = Some (JStr name)
    ∧ dict_get "stateMutability" method_entry = Some (JStr stateMutability)
    ∧ Method.name m = name
    ∧ Method.payable m = String.eqb stateMutability "payable"
    ∧ Method.mutating m
      = (String.eqb stateMutability "payable"
         || String.eqb stateMutability "nonpayable").
Proof.
  unfold Method.from_json. intros Hjson.
  apply bind_Ok in Hjson as (type & Htype & Hjson).
  destruct (json_eq_str type "function") eqn:Hfun; [|discriminate].
  apply json_eq_str_true in Hfun as ->. simpl in Hjson.
  apply bind_Ok in Hjson as (name & Hname & Hjson).
  apply bind_Ok in Hname as (jname & Hjname & Hname).
  apply as_str_Ok in Hname as ->.
  apply bind_Ok in Hjson as (inputs & _ & Hjson).
  apply bind_Ok in Hjson as (mutability & Hmut & Hjson).
  apply bind_Ok in Hmut as (jmut & Hjmut & Hmut).
  apply Mutability_from_json_Ok in Hmut as ->.
  apply bind_Ok in Hjson as (outputs & _ & Hinit).
  exists name, (Mutability.value mutability).
  apply dict_getitem_Ok in Htype, Hjname, Hjmut.
  unfold Method.__init__ in Hinit.
  apply bind_Ok in Hinit as (sig & _ & Hinit). cbn beta iota zeta in Hinit.
  apply bind_Ok in Hinit as (sig' & _ & [= <-]).
  repeat split; auto; destruct mutability; reflexivity.
Qed.

Lemma payable_or_nonpayable (stateMutability : JSON) :
  negb (json_eq_str stateMutability "nonpayable"
        || json_eq_str stateMutability "payable") = false →
  ∃ s, stateMutability = JStr s
       ∧ (s = "nonpayable" ∨ s = "payable")
       ∧ json_eq_str stateMutability "payable" = String.eqb s "payable".
Proof.
  destruct stateMutability as [| | |s| |]; simpl; try discriminate.
  intros Hor. apply negb_false_iff, orb_true_iff in Hor.
  exists s. split; [reflexivity|]. split; [|reflexivity].
  destruct Hor as [Hs|Hs]; apply String.eqb_eq in Hs; auto.
Qed.

(** X7. The entries of a constructor, of a fallback and of a receive method
    are accepted only with their own type and a state mutability of
    [nonpayable] or [payable], and what is built is payable exactly when it
    is [payable]; a constructor entry, moreover, has no name and no
    non-empty outputs, and the types of its inputs are those of the entry,
    none when the entry has no inputs. *)
Theorem payable_from_json (method_entry : dict string JSON) :
  (∀ c : Constructor.t,
     Constructor.from_json method_entry = Ok c →
     dict_get "type" method_entry = Some (JStr "constructor")
     ∧ dict_get "name" method_entry = None
     ∧ (∀ outputs, dict_get "outputs" method_entry = Some outputs →
                   truthy outputs = false)
     ∧ (∃ s, dict_get "stateMutability" method_entry = Some (JStr s)
             ∧ (s = "nonpayable" ∨ s = "payable")
             ∧ Constructor.payable c = String.eqb s "payable")
     ∧ ∃ inputs,
         dispatch_types (default (JList []) (dict_get "inputs" method_entry))
         = Ok inputs
         ∧ Signature._types (Constructor.inputs c) = Params_types inputs)
  ∧ (∀ f : Fallback.t,
       Fallback.from_json method_entry = Ok f →
       dict_get "type" method_entry = Some (JStr "fallback")
       ∧ ∃ s, dict_get "stateMutability" method_entry = Some (JStr s)
              ∧ (s = "nonpayable" ∨ s = "payable")
              ∧ Fallback.payable f = String.eqb s "payable")
  ∧ (∀ r : Receive.t,
       Receive.from_json method_entry = Ok r →
       dict_get "type" method_entry = Some (JStr "receive")
       ∧ ∃ s, dict_get "stateMutability" method_entry = Some (JStr s)
              ∧ (s = "nonpayable" ∨ s = "payable")
              ∧ Receive.payable r = String.eqb s "payable").
Proof.
  split; [|split].
  - intros c. unfold Constructor.from_json. intros Hjson.
    apply bind_Ok in Hjson as (type & Htype & Hjson).
    destruct (json_eq_str type "constructor") eqn:Hctor; [|discriminate].
    apply json_eq_str_true in Hctor as ->. apply dict_getitem_Ok in Htype.
    simpl in Hjson. unfold dict_contains in Hjson.
    destruct (dict_get "name" method_entry) eqn:Hname; [discriminate|].
    destruct (match dict_get "outputs" method_entry with
              | Some outputs => truthy outputs
              | None => false
              end) eqn:Houtputs; [discriminate|].
    apply bind_Ok in Hjson as (sm & Hsm & Hjson). apply dict_getitem_Ok in Hsm.
    destruct (negb _) eqn:Hor; [discriminate|].
    apply payable_or_nonpayable in Hor as (s & -> & Hs & Hpayable).
    apply bind_Ok in Hjson as (inputs & Hinputs & Hinit).
    unfold Constructor.__init__ in Hinit.
    apply bind_Ok in Hinit as (sig & Hsig & [= <-]). simpl.
    apply Signature_types in Hsig.
    split; [exact Htype|]. split; [reflexivity|]. split.
    { intros outputs Hsome. rewrite Hsome in Houtputs. exact Houtputs. }
    split; [exists s; auto|]. exists inputs. auto.
  - intros f. unfold Fallback.from_json. intros Hjson.
    apply bind_Ok in Hjson as (type & Htype & Hjson).
    destruct (json_eq_str type "fallback") eqn:Hty; [|discriminate].
    apply json_eq_str_true in Hty as ->. apply dict_getitem_Ok in Htype.
    simpl in Hjson.
    apply bind_Ok in Hjson as (sm & Hsm & Hjson). apply dict_getitem_Ok in Hsm.
    destruct (negb _) eqn:Hor; [discriminate|].
    apply payable_or_nonpayable in Hor as (s & -> & Hs & Hpayable).
    injection Hjson as <-. split; [exact Htype|]. exists s. auto.
  - intros r. unfold Receive.from_json. intros Hjson.
    apply bind_Ok in Hjson as (type & Htype & Hjson).
    destruct (json_eq_str type "receive") eqn:Hty; [|discriminate].
    apply json_eq_str_true in Hty as ->. apply dict_getitem_Ok in Htype.
    simpl in Hjson.
    apply bind_Ok in Hjson as (sm & Hsm & Hjson). apply dict_getitem_Ok in Hsm.
    destruct (negb _) eqn:Hor; [discriminate|].
    apply payable_or_nonpayable in Hor as (s & -> & Hs & Hpayable).
    injection Hjson as <-. split; [exact Htype|]. exists s. auto.
Qed.

End entries.

(** ** Named collections of a [ContractABI] *)

Lemma elem_setitem_key {K V} `{EqDecision K} (k k0 : K) (v v0 : V) (d : dict K V) :
  (k0, v0) ∈ dict_setitem k v d → (k0, v0) ∈ d ∨ (k0 = k ∧ v0 = v).
Proof.
  induction d as [|[k' v'] d IH]; simpl.
  - intros Hin. apply list_elem_of_singleton in Hin as [= -> ->]. auto.
  - destruct (decide (k = k')) as [->|Hne]; intros Hin;
      apply elem_of_cons in Hin as [[= -> ->]|Hin].
    + auto.
    + left. right. exact Hin.
    + left. left.
    + destruct (IH Hin) as [Hd|Heq]; [left; right; exact Hd | auto].
Qed.

(** The items of [dict(pairs)] are among the pairs. *)
Lemma elem_dict_of_pairs {K V} `{EqDecision K} (kv : K * V) (l : list (K * V)) :
  kv ∈ dict_of_pairs l → kv ∈ l.
Proof.
  induction l as [|[k v] l IH] using rev_ind; intros Hin.
  - inversion Hin.
  - rewrite dict_of_pairs_snoc in Hin. destruct kv as [k0 v0].
    apply elem_of_app. apply elem_setitem_key in Hin as [Hin|[-> ->]].
    + left. exact (IH Hin).
    + right. left.
Qed.

Section collections.
Context `{!Collaborators}.

(** What [Methods({x.name: x for x in l})] holds. *)
Lemma named_collection {A} (f : A → string) (l : list A) :
  let d := dict_of_pairs (map (λ x, (f x, x)) l) in
  (∀ name, (∀ x, x ∈ l → f x ≠ name) → dict_getitem name d = Raise (KeyError name))
  ∧ (∀ before x after,
       l = before ++ x :: after →
       (∀ y, y ∈ after → f y ≠ f x) →
       dict_getitem (f x) d = Ok x)
  ∧ NoDup (map f (dict_values d))
  ∧ (∀ x, x ∈ dict_values d → x ∈ l)
  ∧ (NoDup (map f l) → dict_values d = l).
Proof.
  simpl. split; [|split; [|split; [|split]]].
  - intros name Hno. unfold dict_getitem.
    rewrite dict_get_of_pairs.
    rewrite (proj2 (dict_get_None name _)); [reflexivity|].
    intros x Hin. apply elem_of_reverse, elem_of_map in Hin as (y & [= -> ->] & Hin).
    exact (Hno _ Hin eq_refl).
  - intros before x after -> Hafter. unfold dict_getitem.
    rewrite dict_get_of_pairs, map_app, reverse_app. simpl.
    rewrite reverse_cons, <- app_assoc, dict_get_app.
    rewrite (proj2 (dict_get_None (f x) _)).
    + simpl. rewrite decide_True by reflexivity. reflexivity.
    + intros y Hin. apply elem_of_reverse, elem_of_map in Hin as (z & [= Hz ->] & Hin).
      exact (Hafter _ Hin (eq_sym Hz)).
  - set (d := dict_of_pairs _).
    assert (Hkeys : map f (dict_values d) = dict_keys d).
    { assert (Hpairs : Forall (λ kv, f kv.2 = kv.1) d).
      { apply Forall_forall. intros kv Hin. apply elem_dict_of_pairs in Hin.
        apply elem_of_map in Hin as (x & -> & _). reflexivity. }
      unfold dict_values, dict_keys. clear -Hpairs.
      induction Hpairs as [|kv d' Hkv _ IH]; simpl; [reflexivity|].
      rewrite Hkv, IH. reflexivity. }
    rewrite Hkeys. apply dict_keys_of_pairs.
  - intros x Hin. apply elem_dict_values_of_pairs in Hin.
    rewrite map_map, map_id in Hin. exact Hin.
  - intros Hnodup. rewrite dict_of_pairs_NoDup.
    + unfold dict_values. rewrite map_map. apply map_id.
    + rewrite map_map. exact Hnodup.
Qed.


End collections.

(** ** Classification of the entries of a JSON ABI *)

Section classification.
Context `{!Collaborators}.

Local Abbreviation has_type s :=
  (λ entry : dict string JSON,
     match dict_get "type" entry with
     | Some type => json_eq_str type s
     | None => false
     end).

Lemma dict_contains_false {V} (k : string) (d : dict string V) :
  dict_contains k d = false → k ∉ dict_keys d.
Proof.
  unfold dict_contains. destruct (dict_get k d) eqn:Hget; [discriminate|].
  intros _ Hin. rewrite dict_get_None in Hget.
  apply elem_of_map in Hin as ([k' v] & -> & Hin). exact (Hget v Hin).
Qed.

Lemma Method_from_json_name method_entry (m : Method.t) name :
  Method.from_json method_entry = Ok m →
  dict_getitem "name" method_entry ≫= as_str = Ok name →
  Method.name m = name.
Proof.
  unfold Method.from_json. intros Hjson Hname.
  apply bind_Ok in Hjson as (type & _ & Hjson).
  destruct (negb _); [discriminate|].
  rewrite Hname, bind_ret in Hjson.
  apply bind_Ok in Hjson as (inputs & _ & Hjson).
  apply bind_Ok in Hjson as (mutability & _ & Hjson).
  apply bind_Ok in Hjson as (outputs & _ & Hinit).
  unfold Method.__init__ in Hinit.
  apply bind_Ok in Hinit as (sig & _ & Hinit). cbn beta iota zeta in Hinit.
  apply bind_Ok in Hinit as (sig' & _ & [= <-]). reflexivity.
Qed.

Lemma Event_from_json_name event_entry (ev : Event.t) name :
  Event.from_json event_entry = Ok ev →
  dict_getitem "name" event_entry ≫= as_str = Ok name →
  Event.name ev = name.
Proof.
  unfold Event.from_json. intros Hjson Hname.
  apply bind_Ok in Hjson as (type & _ & Hjson).
  destruct (negb _); [discriminate|].
  rewrite Hname, bind_ret in Hjson.
  apply bind_Ok in Hjson as (fields & _ & Hjson).
  destruct fields as [fields|]; [|discriminate].
  apply bind_Ok in Hjson as (inputs & _ & Hjson).
  apply bind_Ok in Hjson as (indexed & _ & Hjson).
  apply bind_Ok in Hjson as (anonymous & _ & Hinit).
  unfold Event.__init__ in Hinit.
  destruct (_ && _); [discriminate|]. destruct (_ && _); [discriminate|].
  apply bind_Ok in Hinit as (sig & _ & [= <-]). reflexivity.
Qed.

Lemma Error_from_json_name error_entry (e : Error.t) name :
  Error.from_json error_entry = Ok e →
  dict_getitem "name" error_entry ≫= as_str = Ok name →
  Error.name e = name.
Proof.
  unfold Error.from_json. intros Hjson Hname.
  apply bind_Ok in Hjson as (type & _ & Hjson).
  destruct (negb _); [discriminate|].
  rewrite Hname, bind_ret in Hjson.
  apply bind_Ok in Hjson as (fields & _ & Hjson).
  destruct fields as [fields|]; [|discriminate].
  unfold Error.__init__ in Hjson.
  apply bind_Ok in Hjson as (sig & _ & [= <-]). reflexivity.
Qed.

(** What one iteration of the loop of [from_json] does to each part of its
    state, by the type of the entry. *)
Lemma from_json_entry_step (st st' : ContractABI.parsed) entry :
  ContractABI.from_json_entry st entry = Ok st' →
  (has_type "constructor" entry || has_type "function" entry
   || has_type "fallback" entry || has_type "receive" entry
   || has_type "event" entry || has_type "error" entry = true)
  ∧ (if has_type "constructor" entry
     then ContractABI.p_constructor st = None
          ∧ ∃ c, Constructor.from_json entry = Ok c
                 ∧ ContractABI.p_constructor st' = Some c
     else ContractABI.p_constructor st' = ContractABI.p_constructor st)
  ∧ (if has_type "fallback" entry
     then ContractABI.p_fallback st = None
          ∧ ∃ f, Fallback.from_json entry = Ok f
                 ∧ ContractABI.p_fallback st' = Some f
     else ContractABI.p_fallback st' = ContractABI.p_fallback st)
  ∧ (if has_type "receive" entry
     then ContractABI.p_receive st = None
          ∧ ∃ r, Receive.from_json entry = Ok r
                 ∧ ContractABI.p_receive st' = Some r
     else ContractABI.p_receive st' = ContractABI.p_receive st)
  ∧ (if has_type "function" entry
     then ∃ m, Method.from_json entry = Ok m
               ∧ (Method.name m ∉ dict_keys (ContractABI.p_methods st))
               ∧ ContractABI.p_methods st'
                 = ContractABI.p_methods st ++ [(Method.name m, m)]
     else ContractABI.p_methods st' = ContractABI.p_methods st)
  ∧ (if has_type "event" entry
     then ∃ ev, Event.from_json entry = Ok ev
                ∧ (Event.name ev ∉ dict_keys (ContractABI.p_events st))
                ∧ ContractABI.p_events st'
                  = ContractABI.p_events st ++ [(Event.name ev, ev)]
     else ContractABI.p_events st' = ContractABI.p_events st)
  ∧ (if has_type "error" entry
     then ∃ e, Error.from_json entry = Ok e
               ∧ (Error.name e ∉ dict_keys (ContractABI.p_errors st))
               ∧ ContractABI.p_errors st'
                 = ContractABI.p_errors st ++ [(Error.name e, e)]
     else ContractABI.p_errors st' = ContractABI.p_errors st).
Proof.
  unfold ContractABI.from_json_entry. intros Hentry.
  apply bind_Ok in Hentry as (type & Htype & Hentry).
  apply dict_getitem_Ok in Htype. rewrite Htype.
  destruct (json_eq_str type "constructor") eqn:H1.
  { apply json_eq_str_true in H1 as ->. simpl.
    case_bool_decide as Hsome; [discriminate|].
    apply bind_Ok in Hentry as (c & Hc & [= <-]). simpl.
    repeat split; auto.
    - destruct (ContractABI.p_constructor st); [destruct Hsome; eauto | reflexivity].
    - eauto. }
  destruct (json_eq_str type "function") eqn:H2.
  { apply json_eq_str_true in H2 as ->. simpl.
    apply bind_Ok in Hentry as (name & Hname & Hentry).
    destruct (dict_contains name (ContractABI.p_methods st)) eqn:Hin; [discriminate|].
    apply dict_contains_false in Hin.
    apply bind_Ok in Hentry as (m & Hm & [= <-]). simpl.
    rewrite <- (Method_from_json_name _ _ _ Hm Hname) in *.
    repeat split; auto. exists m. rewrite dict_setitem_fresh by exact Hin. auto. }
  destruct (json_eq_str type "fallback") eqn:H3.
  { apply json_eq_str_true in H3 as ->. simpl.
    case_bool_decide as Hsome; [discriminate|].
    apply bind_Ok in Hentry as (f & Hf & [= <-]). simpl.
    repeat split; auto.
    - destruct (ContractABI.p_fallback st); [destruct Hsome; eauto | reflexivity].
    - eauto. }
  destruct (json_eq_str type "receive") eqn:H4.
  { apply json_eq_str_true in H4 as ->. simpl.
    case_bool_decide as Hsome; [discriminate|].
    apply bind_Ok in Hentry as (r & Hr & [= <-]). simpl.
    repeat split; auto.
    - destruct (ContractABI.p_receive st); [destruct Hsome; eauto | reflexivity].
    - eauto. }
  destruct (json_eq_str type "event") eqn:H5.
  { apply json_eq_str_true in H5 as ->. simpl.
    apply bind_Ok in Hentry as (name & Hname & Hentry).
    destruct (dict_contains name (ContractABI.p_events st)) eqn:Hin; [discriminate|].
    apply dict_contains_false in Hin.
    apply bind_Ok in Hentry as (ev & Hev & [= <-]). simpl.
    rewrite <- (Event_from_json_name _ _ _ Hev Hname) in *.
    repeat split; auto. exists ev. rewrite dict_setitem_fresh by exact Hin. auto. }
  destruct (json_eq_str type "error") eqn:H6.
  { apply json_eq_str_true in H6 as ->. simpl.
    apply bind_Ok in Hentry as (name & Hname & Hentry).
    destruct (dict_contains name (ContractABI.p_errors st)) eqn:Hin; [discriminate|].
    apply dict_contains_false in Hin.
    apply bind_Ok in Hentry as (e & He & [= <-]). simpl.
    rewrite <- (Error_from_json_name _ _ _ He Hname) in *.
    repeat split; auto. exists e. rewrite dict_setitem_fresh by exact Hin. auto. }
  discriminate.
Qed.

(** The loop over the entries, for a collection of named entities: what is
    appended to it are the entities of the selected entries, in order and
    under distinct names. *)
Lemma from_json_loop_named {A} (proj : ContractABI.parsed → dict string A)
    (parse : dict string JSON → result A) (name : A → string)
    (sel : dict string JSON → bool) :
  (∀ st st' entry,
     ContractABI.from_json_entry st entry = Ok st' →
     if sel entry
     then ∃ a, parse entry = Ok a ∧ (name a ∉ dict_keys (proj st))
               ∧ proj st' = proj st ++ [(name a, a)]
     else proj st' = proj st) →
  ∀ json_abi st st',
    ContractABI.from_json_loop json_abi st = Ok st' →
    ∃ parsed,
      mapM parse (List.filter sel json_abi) = Ok parsed
      ∧ proj st' = proj st ++ map (λ a, (name a, a)) parsed
      ∧ (∀ a, a ∈ parsed → name a ∉ dict_keys (proj st))
      ∧ NoDup (map name parsed).
Proof.
  intros Hstep json_abi.
  induction json_abi as [|entry json_abi IH]; intros st st' Hloop.
  - injection Hloop as <-. exists []. rewrite app_nil_r.
    repeat split; [intros a Hin; inversion Hin | constructor].
  - simpl in Hloop. apply bind_Ok in Hloop as (st1 & Hentry & Hloop).
    destruct (IH _ _ Hloop) as (parsed & Hparsed & Hproj & Hfresh & Hnodup).
    specialize (Hstep _ _ _ Hentry). simpl. destruct (sel entry).
    + destruct Hstep as (a & Ha & Hnew & Hproj1).
      exists (a :: parsed). rewrite mapM_cons, Ha, bind_ret, Hparsed, bind_ret.
      split; [reflexivity|]. split.
      { rewrite Hproj, Hproj1, <- app_assoc. reflexivity. }
      assert (Hkeys : ∀ a', a' ∈ parsed →
                (name a' ∉ dict_keys (proj st)) ∧ name a' ≠ name a).
      { intros a' Hin. specialize (Hfresh a' Hin).
        rewrite Hproj1 in Hfresh. unfold dict_keys in *.
        rewrite map_app, elem_of_app in Hfresh. simpl in Hfresh. split.
        - intros Hin'. apply Hfresh. left. exact Hin'.
        - intros Heq. apply Hfresh. right. rewrite Heq. left. }
      split.
      * intros a' Hin. apply elem_of_cons in Hin as [->|Hin];
          [exact Hnew | exact (proj1 (Hkeys a' Hin))].
      * simpl. apply NoDup_cons. split; [|exact Hnodup].
        intros Hin. apply elem_of_map in Hin as (a' & Heq & Hin).
        exact (proj2 (Hkeys a' Hin) (eq_sym Heq)).
    + exists parsed. rewrite Hstep in *. auto.
Qed.

(** The same for a part of the state that holds at most one entity. *)
Lemma from_json_loop_single {A} (proj : ContractABI.parsed → option A)
    (parse : dict string JSON → result A) (sel : dict string JSON → bool) :
  (∀ st st' entry,
     ContractABI.from_json_entry st entry = Ok st' →
     if sel entry
     then proj st = None ∧ ∃ a, parse entry = Ok a ∧ proj st' = Some a
     else proj st' = proj st) →
  ∀ json_abi st st',
    ContractABI.from_json_loop json_abi st = Ok st' →
    proj st = None →
    mapM parse (List.filter sel json_abi) = Ok (option_list (proj st'))
    ∧ length (List.filter sel json_abi) ≤ 1.
Proof.
  intros Hstep.
  assert (Hkeep : ∀ json_abi st st',
            ContractABI.from_json_loop json_abi st = Ok st' →
            is_Some (proj st) →
            List.filter sel json_abi = [] ∧ proj st' = proj st).
  { induction json_abi as [|entry json_abi IH]; intros st st' Hloop Hsome.
    - injection Hloop as <-. auto.
    - simpl in Hloop. apply bind_Ok in Hloop as (st1 & Hentry & Hloop).
      specialize (Hstep _ _ _ Hentry). simpl. destruct (sel entry).
      + destruct Hstep as [Hnone _]. rewrite Hnone in Hsome.
        destruct Hsome as [? [=]].
      + rewrite <- Hstep in *. exact (IH _ _ Hloop Hsome). }
  induction json_abi as [|entry json_abi IH]; intros st st' Hloop Hnone.
  - injection Hloop as <-. rewrite Hnone. simpl. auto.
  - simpl in Hloop. apply bind_Ok in Hloop as (st1 & Hentry & Hloop).
    specialize (Hstep _ _ _ Hentry). simpl. destruct (sel entry).
    + destruct Hstep as (_ & a & Ha & Hproj).
      destruct (Hkeep _ _ _ Hloop) as [Hfilter Hsame]; [rewrite Hproj; eauto|].
      rewrite Hfilter, Hsame, Hproj, mapM_cons, Ha. simpl. auto.
    + rewrite <- Hstep in Hnone. exact (IH _ _ Hloop Hnone).
Qed.

Local Abbreviation initial :=
  {| ContractABI.p_constructor := None; ContractABI.p_fallback := None;
     ContractABI.p_receive := None; ContractABI.p_methods := [];
     ContractABI.p_events := []; ContractABI.p_errors := [] |}.

Lemma from_json_loop_known json_abi (st st' : ContractABI.parsed) :
  ContractABI.from_json_loop json_abi st = Ok st' →
  Forall (λ entry,
            has_type "constructor" entry || has_type "function" entry
            || has_type "fallback" entry || has_type "receive" entry
            || has_type "event" entry || has_type "error" entry = true)
    json_abi.
Proof.
  revert st. induction json_abi as [|entry json_abi IH]; intros st Hloop.
  - constructor.
  - simpl in Hloop. apply bind_Ok in Hloop as (st1 & Hentry & Hloop).
    constructor; [|exact (IH _ Hloop)].
    exact (proj1 (from_json_entry_step _ _ _ Hentry)).
Qed.

(** What the loop of [from_json] leaves in its state. *)
Lemma from_json_loop_state json_abi (st : ContractABI.parsed) :
  ContractABI.from_json_loop json_abi initial = Ok st →
  (mapM Constructor.from_json (List.filter (has_type "constructor") json_abi)
   = Ok (option_list (ContractABI.p_constructor st))
   ∧ length (List.filter (has_type "constructor") json_abi) ≤ 1)
  ∧ (mapM Fallback.from_json (List.filter (has_type "fallback") json_abi)
     = Ok (option_list (ContractABI.p_fallback st))
     ∧ length (List.filter (has_type "fallback") json_abi) ≤ 1)
  ∧ (mapM Receive.from_json (List.filter (has_type "receive") json_abi)
     = Ok (option_list (ContractABI.p_receive st))
     ∧ length (List.filter (has_type "receive") json_abi) ≤ 1)
  ∧ (∃ ms, mapM Method.from_json (List.filter (has_type "function") json_abi) = Ok ms
           ∧ ContractABI.p_methods st = map (λ m, (Method.name m, m)) ms
           ∧ NoDup (map Method.name ms))
  ∧ (∃ evs, mapM Event.from_json (List.filter (has_type "event") json_abi) = Ok evs
            ∧ ContractABI.p_events st = map (λ ev, (Event.name ev, ev)) evs
            ∧ NoDup (map Event.name evs))
  ∧ (∃ es, mapM Error.from_json (List.filter (has_type "error") json_abi) = Ok es
           ∧ ContractABI.p_errors st = map (λ e, (Error.name e, e)) es
           ∧ NoDup (map Error.name es)).
Proof.
  intros Hloop.
  split; [|split; [|split; [|split; [|split]]]].
  - apply (from_json_loop_single ContractABI.p_constructor Constructor.from_json
             (has_type "constructor")) with (st := initial); auto.
    intros st1 st2 entry Hentry.
    exact (proj1 (proj2 (from_json_entry_step _ _ _ Hentry))).
  - apply (from_json_loop_single ContractABI.p_fallback Fallback.from_json
             (has_type "fallback")) with (st := initial); auto.
    intros st1 st2 entry Hentry.
    exact (proj1 (proj2 (proj2 (from_json_entry_step _ _ _ Hentry)))).
  - apply (from_json_loop_single ContractABI.p_receive Receive.from_json
             (has_type "receive")) with (st := initial); auto.
    intros st1 st2 entry Hentry.
    exact (proj1 (proj2 (proj2 (proj2 (from_json_entry_step _ _ _ Hentry))))).
  - destruct (from_json_loop_named ContractABI.p_methods Method.from_json
                Method.name (has_type "function")
                (λ st1 st2 entry Hentry,
                   proj1 (proj2 (proj2 (proj2 (proj2
                     (from_json_entry_step st1 st2 entry Hentry))))))
                _ _ _ Hloop) as (ms & Hms & Hproj & _ & Hnodup).
    exists ms. auto.
  - destruct (from_json_loop_named ContractABI.p_events Event.from_json
                Event.name (has_type "event")
                (λ st1 st2 entry Hentry,
                   proj1 (proj2 (proj2 (proj2 (proj2 (proj2
                     (from_json_entry_step st1 st2 entry Hentry)))))))
                _ _ _ Hloop) as (evs & Hevs & Hproj & _ & Hnodup).
    exists evs. auto.
  - destruct (from_json_loop_named ContractABI.p_errors Error.from_json
                Error.name (has_type "error")
                (λ st1 st2 entry Hentry,
                   proj2 (proj2 (proj2 (proj2 (proj2 (proj2
                     (from_json_entry_step st1 st2 entry Hentry)))))))
                _ _ _ Hloop) as (es & Hes & Hproj & _ & Hnodup).
    exists es. auto.
Qed.

Lemma named_entities {A} (name : A → string) (l : list A) :
  NoDup (map name l) →
  dict_values (dict_of_pairs
                 (map (λ a, (name a, a)) (dict_values (map (λ a, (name a, a)) l))))
  = l
  ∧ ∀ a, a ∈ l →
         dict_getitem (name a)
           (dict_of_pairs
              (map (λ a, (name a, a)) (dict_values (map (λ a, (name a, a)) l))))
         = Ok a.
Proof.
  intros Hnodup.
  assert (Hvals : dict_values (map (λ a, (name a, a)) l) = l).
  { unfold dict_values. rewrite map_map. simpl. apply map_id. }
  rewrite Hvals.
  destruct (named_collection name l) as (_ & Hget & _ & _ & Hvalues). simpl in *.
  split; [exact (Hvalues Hnodup)|]. intros a Hin.
  apply list_elem_of_split in Hin as (before & after & ->).
  apply (Hget before a after eq_refl). intros y Hy Heq.
  rewrite map_app in Hnodup. apply NoDup_app in Hnodup as (_ & _ & Hnodup).
  simpl in Hnodup. apply NoDup_cons in Hnodup as [Hnotin _].
  apply Hnotin. rewrite <- Heq. apply elem_of_map. exists y. auto.
Qed.

(** X9. A successful [ContractABI.from_json] has sorted the entries by
    their type, each of the six known types, and made each entity with the
    [from_json] of its class: the methods, events and errors of the ABI
    are those of the [function], [event] and [error] entries in the order of
    the list, under pairwise distinct names, each found again under its
    name; the fallback and receive methods are those of the one [fallback]
    and [receive] entry, if any; the constructor is that of the one
    [constructor] entry, or the default one. *)
Theorem from_json_classifies json_abi (abi : ContractABI.t) :
  ContractABI.from_json json_abi = Ok abi →
  Forall (λ entry,
            has_type "constructor" entry || has_type "function" entry
            || has_type "fallback" entry || has_type "receive" entry
            || has_type "event" entry || has_type "error" entry = true)
    json_abi
  ∧ (∃ constructor,
       mapM Constructor.from_json (List.filter (has_type "constructor") json_abi)
       = Ok (option_list constructor)
       ∧ ContractABI.constructor abi = default default_constructor constructor)
  ∧ mapM Fallback.from_json (List.filter (has_type "fallback") json_abi)
    = Ok (option_list (ContractABI.fallback abi))
  ∧ mapM Receive.from_json (List.filter (has_type "receive") json_abi)
    = Ok (option_list (ContractABI.receive abi))
  ∧ (mapM Method.from_json (List.filter (has_type "function") json_abi)
     = Ok (Methods.__iter__ (ContractABI.method abi))
     ∧ NoDup (map Method.name (Methods.__iter__ (ContractABI.method abi)))
     ∧ ∀ m, m ∈ Methods.__iter__ (ContractABI.method abi) →
            Methods.__getattr__ (ContractABI.method abi) (Method.name m) = Ok m)
  ∧ (mapM Event.from_json (List.filter (has_type "event") json_abi)
     = Ok (Methods.__iter__ (ContractABI.event abi))
     ∧ NoDup (map Event.name (Methods.__iter__ (ContractABI.event abi)))
     ∧ ∀ ev, ev ∈ Methods.__iter__ (ContractABI.event abi) →
             Methods.__getattr__ (ContractABI.event abi) (Event.name ev) = Ok ev)
  ∧ (mapM Error.from_json (List.filter (has_type "error") json_abi)
     = Ok (Methods.__iter__ (ContractABI.error abi))
     ∧ NoDup (map Error.name (Methods.__iter__ (ContractABI.error abi)))
     ∧ ∀ e, e ∈ Methods.__iter__ (ContractABI.error abi) →
            Methods.__getattr__ (ContractABI.error abi) (Error.name e) = Ok e).
Proof.
  unfold ContractABI.from_json. intros Hjson.
  apply bind_Ok in Hjson as (st & Hloop & Hinit).
  split; [exact (from_json_loop_known _ _ _ Hloop)|].
  apply from_json_loop_state in Hloop
    as ([Hc _] & [Hf _] & [Hr _] & (ms & Hms & Hpm & Hnm) & (evs & Hevs & Hpe & Hne)
        & (es & Hes & Hpr & Hnr)).
  unfold ContractABI.__init__ in Hinit.
  assert (Hctor : ∃ c, (match ContractABI.p_constructor st with
                        | Some c => Ok c
                        | None => Constructor.__init__ (Positional []) false
                        end = Ok c)
                       ∧ c = default default_constructor (ContractABI.p_constructor st)).
  { destruct (ContractABI.p_constructor st) as [c|]; simpl; eauto. }
  destruct Hctor as (c & Hc' & Hcdef). rewrite Hc', bind_ret in Hinit.
  injection Hinit as <-. unfold Methods.__getattr__, Methods.__iter__. simpl.
  rewrite Hpm, Hpe, Hpr.
  destruct (named_entities Method.name ms Hnm) as [Hmv Hmg].
  destruct (named_entities Event.name evs Hne) as [Hev Heg].
  destruct (named_entities Error.name es Hnr) as [Hrv Hrg].
  simpl in *. rewrite Hmv, Hev, Hrv.
  split; [exists (ContractABI.p_constructor st); auto|].
  repeat split; auto.
Qed.

Lemma filter_two {A} (sel : A → bool) (l1 l2 l3 : list A) (x y : A) :
  sel x = true → sel y = true →
  List.filter sel (l1 ++ x :: l2 ++ y :: l3)
  = List.filter sel l1 ++ x :: List.filter sel l2 ++ y :: List.filter sel l3.
Proof.
  intros Hx Hy. rewrite List.filter_app. simpl. rewrite Hx.
  rewrite List.filter_app. simpl. rewrite Hy. reflexivity.
Qed.

Lemma mapM_two {A B} (f : A → result B) (l1 l2 l3 : list A) (x y : A) (r : list B) :
  mapM f (l1 ++ x :: l2 ++ y :: l3) = Ok r →
  ∃ r1 a r2 b r3, r = r1 ++ a :: r2 ++ b :: r3 ∧ f x = Ok a ∧ f y = Ok b.
Proof.
  intros Hr. apply mapM_Ok_Forall2 in Hr.
  apply Forall2_app_inv_l in Hr as (r1 & ra & _ & Hr & ->).
  apply Forall2_cons_inv_l in Hr as (a & rb & Ha & Hr & ->).
  apply Forall2_app_inv_l in Hr as (r2 & rc & _ & Hr & ->).
  apply Forall2_cons_inv_l in Hr as (b & r3 & Hb & _ & ->).
  exists r1, a, r2, b, r3. auto.
Qed.

Lemma not_NoDup_two {A} (l1 l2 l3 : list A) (x : A) :
  ¬ NoDup (l1 ++ x :: l2 ++ x :: l3).
Proof.
  intros Hnodup. apply NoDup_app in Hnodup as (_ & _ & Hnodup).
  apply NoDup_cons in Hnodup as [Hnotin _]. apply Hnotin.
  apply elem_of_app. right. left.
Qed.

(** X10. [ContractABI.from_json] fails on a list with two [fallback]
    entries, with two [receive] entries, with two [function] entries of the
    same name, or two such [event] or [error] entries, and on a list with
    an entry that has none of the six known types. *)
Theorem from_json_rejects before entry1 between entry2 after :
  (has_type "fallback" entry1 && has_type "fallback" entry2
   || has_type "receive" entry1 && has_type "receive" entry2 = true
   ∨ (∃ name,
        dict_get "name" entry1 = Some (JStr name)
        ∧ dict_get "name" entry2 = Some (JStr name)
        ∧ has_type "function" entry1 && has_type "function" entry2
          || has_type "event" entry1 && has_type "event" entry2
          || has_type "error" entry1 && has_type "error" entry2 = true) →
   is_ok (ContractABI.from_json (before ++ entry1 :: between ++ entry2 :: after))
   = false)
  ∧ (has_type "constructor" entry1 || has_type "function" entry1
     || has_type "fallback" entry1 || has_type "receive" entry1
     || has_type "event" entry1 || has_type "error" entry1 = false →
     is_ok (ContractABI.from_json (before ++ entry1 :: between)) = false).
Proof.
  split.
  - intros Hdup.
    destruct (ContractABI.from_json _) as [abi|e] eqn:Hjson; [exfalso|reflexivity].
    unfold ContractABI.from_json in Hjson.
    apply bind_Ok in Hjson as (st & Hloop & _).
    apply from_json_loop_state in Hloop
      as (_ & [_ Hf] & [_ Hr] & (ms & Hms & _ & Hnm) & (evs & Hevs & _ & Hne)
          & (es & Hes & _ & Hnr)).
    destruct Hdup as [Hdup|(name & Hname1 & Hname2 & Hdup)].
    + apply orb_true_iff in Hdup as [Hdup|Hdup];
        apply andb_true_iff in Hdup as [H1 H2].
      * rewrite (filter_two _ _ _ _ _ _ H1 H2) in Hf.
        rewrite length_app in Hf. simpl in Hf. rewrite length_app in Hf.
        simpl in Hf. lia.
      * rewrite (filter_two _ _ _ _ _ _ H1 H2) in Hr.
        rewrite length_app in Hr. simpl in Hr. rewrite length_app in Hr.
        simpl in Hr. lia.
    + assert (Hn1 : dict_getitem "name" entry1 ≫= as_str = Ok name)
        by (unfold dict_getitem; rewrite Hname1; reflexivity).
      assert (Hn2 : dict_getitem "name" entry2 ≫= as_str = Ok name)
        by (unfold dict_getitem; rewrite Hname2; reflexivity).
      apply orb_true_iff in Hdup as [Hdup|Hdup];
        [apply orb_true_iff in Hdup as [Hdup|Hdup]|];
        apply andb_true_iff in Hdup as [H1 H2].
      * rewrite (filter_two _ _ _ _ _ _ H1 H2) in Hms.
        apply mapM_two in Hms as (r1 & a & r2 & b & r3 & -> & Ha & Hb).
        apply Method_from_json_name with (name := name) in Ha, Hb; auto.
        rewrite map_app in Hnm. simpl in Hnm. rewrite map_app in Hnm. simpl in Hnm.
        rewrite Ha, Hb in Hnm. exact (not_NoDup_two _ _ _ _ Hnm).
      * rewrite (filter_two _ _ _ _ _ _ H1 H2) in Hevs.
        apply mapM_two in Hevs as (r1 & a & r2 & b & r3 & -> & Ha & Hb).
        apply Event_from_json_name with (name := name) in Ha, Hb; auto.
        rewrite map_app in Hne. simpl in Hne. rewrite map_app in Hne. simpl in Hne.
        rewrite Ha, Hb in Hne. exact (not_NoDup_two _ _ _ _ Hne).
      * rewrite (filter_two _ _ _ _ _ _ H1 H2) in Hes.
        apply mapM_two in Hes as (r1 & a & r2 & b & r3 & -> & Ha & Hb).
        apply Error_from_json_name with (name := name) in Ha, Hb; auto.
        rewrite map_app in Hnr. simpl in Hnr. rewrite map_app in Hnr. simpl in Hnr.
        rewrite Ha, Hb in Hnr. exact (not_NoDup_two _ _ _ _ Hnr).
  - intros Hunknown.
    destruct (ContractABI.from_json _) as [abi|e] eqn:Hjson; [exfalso|reflexivity].
    unfold ContractABI.from_json in Hjson.
    apply bind_Ok in Hjson as (st & Hloop & _).
    apply from_json_loop_known in Hloop. rewrite Forall_app in Hloop.
    destruct Hloop as [_ Hloop]. apply Forall_cons in Hloop as [Hknown _].
    simpl in Hknown. rewrite Hunknown in Hknown. discriminate.
Qed.

End classification.

(** ** Resolving the data of a registered error *)

Section resolve_registered.
Context `{!Collaborators}.

Local Abbreviation by_selector := (λ error : Error.t, (Error.selector error, error)).

(** X11. In a [ContractABI], the revert data made of the selector of a
    registered error and of any data resolves to that error and to the data
    decoded into its fields, provided no error registered after it has the
    same selector and the selector has 4 bytes. *)
Theorem resolve_error_registered
    constructor fallback receive methods events errors (abi : ContractABI.t)
    (before : list Error.t) (e : Error.t) (after : list Error.t) (data : bytes) :
  ContractABI.__init__ constructor fallback receive methods events errors = Ok abi →
  Methods.__iter__ (ContractABI.error abi) = before ++ e :: after →
  (∀ e', e' ∈ after → Error.selector e' ≠ Error.selector e) →
  length (Error.selector e) = 4 →
  ContractABI.resolve_error abi (Error.selector e ++ data)
  = (decoded ← Error.decode_fields e data; Ok (e, decoded)).
Proof.
  intros Hinit Hiter Hafter Hlen.
  assert (Hidx : dict_get (Error.selector e) (ContractABI._error_by_selector abi)
                 = Some e).
  { rewrite (index_lookup _ _ _ _ _ _ _ _ Hinit), Hiter.
    rewrite map_app, reverse_app. simpl. rewrite reverse_cons, <- app_assoc.
    rewrite dict_get_app, (proj2 (dict_get_None (Error.selector e) _)).
    - simpl. rewrite decide_True by reflexivity. reflexivity.
    - intros e' Hin.
      apply elem_of_reverse, elem_of_map in Hin as (e'' & [= Hsel ->] & Hin).
      exact (Hafter _ Hin (eq_sym Hsel)). }
  assert (Htake : take 4 (Error.selector e ++ data) = Error.selector e).
  { rewrite <- Hlen. apply take_app_length. }
  assert (Hdrop : drop 4 (Error.selector e ++ data) = data).
  { rewrite <- Hlen. apply drop_app_length. }
  rewrite (resolve_error_hit abi _ e).
  - rewrite Hdrop. reflexivity.
  - rewrite length_app. lia.
  - rewrite Htake. exact Hidx.
Qed.

End resolve_registered.

(** ** The size of an event filter *)

Lemma size_list_to_set_le (l : list string) :
  size (list_to_set l : gset string) ≤ length l.
Proof.
  induction l as [|x l IH].
  - rewrite list_to_set_nil, size_empty. reflexivity.
  - rewrite list_to_set_cons. simpl length. destruct (decide (x ∈ (list_to_set l : gset string))) as [Hin|Hnotin].
    + assert (Heq : ({[x]} ∪ list_to_set l : gset string) = list_to_set l)
        by (apply subseteq_union_1_L, singleton_subseteq_l, Hin).
      rewrite Heq. lia.
    + rewrite size_union by (apply disjoint_singleton_l; exact Hnotin).
      rewrite size_singleton. lia.
Qed.

Lemma size_set_map_le (f : string → string) (X : gset string) :
  size (set_map f X : gset string) ≤ size X.
Proof.
  unfold set_map. etransitivity; [apply size_list_to_set_le|].
  rewrite length_fmap. reflexivity.
Qed.

Lemma length_NoDup_subseteq (l : list string) (X : gset string) :
  NoDup l → (∀ x, x ∈ l → x ∈ X) → length l ≤ size X.
Proof.
  intros Hnodup Hsub. rewrite <- (size_list_to_set (C := gset string) l Hnodup).
  apply subseteq_size. intros x Hx. apply elem_of_list_to_set in Hx. auto.
Qed.

Section filter_size.
Context `{!Collaborators}.

(** An [EventSignature] has no more parameters than indexed names. *)
Lemma EventSignature_init_length parameters indexed (sig : EventSignature.t) :
  EventSignature.__init__ parameters indexed = Ok sig →
  length (EventSignature._signature sig) ≤ size (EventSignature._indexed sig)
  ∧ size (EventSignature._indexed sig) ≤ size indexed
  ∧ NoDup (map Param_name (EventSignature._signature sig))
  ∧ NoDup (dict_keys (EventSignature._types sig)).
Proof.
  intros Hinit.
  apply EventSignature_init_signature in Hinit as (Hnames & Htypes & Hindexed).
  assert (Hkeys : NoDup (dict_keys (EventSignature._types sig))).
  { rewrite Htypes. apply dict_keys_of_pairs. }
  assert (Hnodup : NoDup (map Param_name (EventSignature._signature sig))).
  { rewrite Hnames. apply NoDup_filter. exact Hkeys. }
  split; [|split; [|auto]].
  - rewrite <- (length_map Param_name).
    apply length_NoDup_subseteq; [exact Hnodup|].
    intros x Hx. rewrite Hnames in Hx. apply list_elem_of_filter in Hx as [Hx _].
    exact Hx.
  - rewrite Hindexed. apply size_set_map_le.
Qed.

Lemma encode_to_topics_length (self : EventSignature.t) args kwargs encoded_topics :
  EventSignature.encode_to_topics self args kwargs = Ok encoded_topics →
  length encoded_topics ≤ length (EventSignature._signature self).
Proof.
  rewrite encode_to_topics_mapM. intros Henc.
  apply bind_Ok in Henc as (bound_args & _ & Henc).
  apply bind_Ok in Henc as (topics & Htopics & [= <-]).
  apply mapM_Ok_length in Htopics. rewrite <- Htopics.
  destruct (pop_trailing_None_spec (length topics) topics) as (k & Heq & _);
    [reflexivity|].
  apply (f_equal length) in Heq. rewrite length_app in Heq. lia.
Qed.

(** X12. A filter built by a constructed [Event] has at most 4 topics: at
    most one for each indexed name, after the topic of the event itself
    when the event is not anonymous. *)
Theorem Event_filter_size name fields indexed anonymous (ev : Event.t)
    args kwargs (filter : EventFilter.t) :
  Event.__init__ name fields indexed anonymous = Ok ev →
  Event.__call__ ev args kwargs = Ok filter →
  length (EventFilter.topics filter) ≤ (if anonymous then 0 else 1) + size indexed
  ∧ length (EventFilter.topics filter) ≤ 4
  ∧ (if anonymous then 0 else 1) ≤ length (EventFilter.topics filter).
Proof.
  unfold Event.__init__. intros Hinit Hcall.
  destruct (anonymous && bool_decide (4 < size indexed)) eqn:Hcap4; [discriminate|].
  destruct (negb anonymous && bool_decide (3 < size indexed)) eqn:Hcap3;
    [discriminate|].
  apply bind_Ok in Hinit as (sig & Hsig & [= <-]).
  apply EventSignature_init_length in Hsig as (Hlen & Hlen' & _ & _).
  unfold Event.__call__ in Hcall. simpl in Hcall.
  apply bind_Ok in Hcall as (encoded_topics & Henc & [= <-]).
  apply encode_to_topics_length in Henc. simpl.
  rewrite append_log_topics, length_app, length_map.
  destruct anonymous; simpl in *.
  - apply bool_decide_eq_false in Hcap4. lia.
  - apply bool_decide_eq_false in Hcap3. lia.
Qed.

End filter_size.

(** ** Positional arguments of an event filter *)

Lemma dict_get_zip_NoDup {V} (names : list string) (args : list V) i name :
  NoDup names → names !! i = Some name →
  dict_get name (zip names args) = args !! i.
Proof.
  revert args i. induction names as [|n names IH]; intros args i Hnodup Hname.
  - inversion Hname.
  - apply NoDup_cons in Hnodup as [Hn Hnodup]. destruct args as [|a args].
    + simpl. symmetry. apply lookup_nil.
    + simpl. destruct i as [|i]; simpl in *.
      * injection Hname as ->. rewrite decide_True by reflexivity. reflexivity.
      * rewrite decide_False.
        -- apply IH; assumption.
        -- intros ->. apply Hn. eapply list_elem_of_lookup_2. exact Hname.
Qed.

Lemma bind_positional_nokw {V} parameters (args : list V) arguments :
  length args ≤ length parameters →
  bind_positional parameters args [] arguments
  = Ok (fold_left (λ d kv, dict_setitem kv.1 kv.2 d)
          (zip (map Param_name parameters) args) arguments,
        drop (length args) parameters).
Proof.
  revert parameters arguments.
  induction args as [|a args IH]; intros parameters arguments Hlen.
  - destruct parameters; reflexivity.
  - destruct parameters as [|p parameters]; simpl in Hlen; [lia|].
    simpl. apply IH. lia.
Qed.

Lemma bind_positional_too_many_nokw {V} parameters (args : list V) arguments :
  length parameters < length args →
  bind_positional parameters args [] arguments
  = Raise (TypeError "too many positional arguments").
Proof.
  revert parameters arguments.
  induction args as [|a args IH]; intros parameters arguments Hlen; simpl in Hlen;
    [lia|].
  destruct parameters as [|p parameters]; simpl; [reflexivity|].
  apply IH. simpl in Hlen. lia.
Qed.

Lemma map_fst_zip_take {A B} (l : list A) (k : list B) :
  map fst (zip l k) = take (length k) l.
Proof.
  revert k. induction l as [|x l IH]; intros [|y k]; simpl; try reflexivity.
  f_equal. apply IH.
Qed.

Lemma NoDup_take_prefix {A} (n : nat) (l : list A) : NoDup l → NoDup (take n l).
Proof.
  intros Hnodup. rewrite <- (take_drop n l) in Hnodup.
  apply NoDup_app in Hnodup as (Hnodup & _ & _). exact Hnodup.
Qed.

Lemma bind_partial_positional {V} parameters (args : list V) :
  NoDup (map Param_name parameters) →
  length args ≤ length parameters →
  bind_partial parameters args [] = Ok (zip (map Param_name parameters) args).
Proof.
  intros Hnodup Hlen. unfold bind_partial.
  rewrite bind_positional_nokw by exact Hlen. rewrite bind_ret.
  rewrite bind_keywords_nil.
  change (fold_left _ ?l []) with (dict_of_pairs l).
  rewrite dict_of_pairs_NoDup; [reflexivity|].
  rewrite map_fst_zip_take. apply NoDup_take_prefix. exact Hnodup.
Qed.

Lemma pop_trailing_None_app {A} (l : list (option A)) (m fuel : nat) :
  last l ≠ Some None → m ≤ fuel →
  EventSignature.pop_trailing_None fuel (l ++ replicate m None) = l.
Proof.
  intros Hlast. revert fuel. induction m as [|m IH]; intros fuel Hfuel.
  - simpl. rewrite app_nil_r. destruct fuel as [|fuel]; [reflexivity|].
    simpl. destruct (last l) as [[a|]|]; try reflexivity. congruence.
  - destruct fuel as [|fuel]; [lia|].
    rewrite replicate_S_end, app_assoc. simpl.
    rewrite last_snoc, removelast_last. apply IH. lia.
Qed.

Section positional_topics.
Context `{!Collaborators}.

(** The topics of one argument of an event filter for a field of type [tp]. *)
Local Abbreviation arg_topics :=
  (λ (tp : ABIType) (arg : Arg Value),
     match arg with
     | Plain v => elem ← encode_to_topic tp v; Ok [elem]
     | Either items => mapM (encode_to_topic tp) items
     end).

Local Abbreviation bound_topics types :=
  (λ '(name, arg),
     tp ← dict_getitem name types;
     elems ← arg_topics tp arg;
     Ok (Some elems)).

Lemma field_topics_positional (types : dict string ABIType)
    (bound : dict string (Arg Value)) parameters (args : list (Arg Value)) :
  length args ≤ length parameters →
  (∀ i p, parameters !! i = Some p → dict_get (Param_name p) bound = args !! i) →
  mapM (λ param : Param,
          match dict_get (Param_name param) bound with
          | None => Ok None
          | Some (Plain v) =>
              tp ← dict_getitem (Param_name param) types;
              elem ← encode_to_topic tp v;
              Ok (Some [elem])
          | Some (Either items) =>
              tp ← dict_getitem (Param_name param) types;
              elems ← mapM (encode_to_topic tp) items;
              Ok (Some elems)
          end) parameters
  = (topics ← mapM (bound_topics types) (zip (map Param_name parameters) args);
     Ok (topics ++ replicate (length parameters - length args) None)).
Proof.
  revert args. induction parameters as [|p parameters IH]; intros args Hlen Hbound.
  - destruct args; [reflexivity|simpl in Hlen; lia].
  - rewrite mapM_cons. rewrite (Hbound 0 p eq_refl).
    rewrite (IH (tail args)).
    + destruct args as [|a args]; simpl.
      * rewrite Nat.sub_0_r, zip_with_nil_r. reflexivity.
      * destruct (dict_getitem (Param_name p) types) as [tp|e]; simpl;
          [|destruct a; reflexivity].
        destruct a as [v|items]; simpl.
        -- destruct (encode_to_topic tp v) as [elem|e]; simpl; [|reflexivity].
           destruct (mapM _ (zip _ args)); reflexivity.
        -- destruct (mapM (encode_to_topic tp) items) as [elems|e]; simpl;
             [|reflexivity].
           destruct (mapM _ (zip _ args)); reflexivity.
    + destruct args; simpl in *; lia.
    + intros i p' Hp'. rewrite (Hbound (S i) p' Hp').
      destruct args; reflexivity.
Qed.

(** X13. Positional arguments of [encode_to_topics] go to the indexed fields
    in the order of their declaration: the result has one topic for each
    argument, the encodings of the argument for the type of its field, and
    no [None]; more arguments than indexed fields are a [TypeError]. *)
Theorem encode_to_topics_positional parameters indexed (self : EventSignature.t)
    (args : list (Arg Value)) :
  EventSignature.__init__ parameters indexed = Ok self →
  (length args ≤ length (EventSignature._signature self) →
   EventSignature.encode_to_topics self args []
   = mapM (bound_topics (EventSignature._types self))
       (zip (filter (λ name, name ∈ EventSignature._indexed self)
               (dict_keys (EventSignature._types self))) args))
  ∧ (length (EventSignature._signature self) < length args →
     EventSignature.encode_to_topics self args []
     = Raise (TypeError "too many positional arguments"))
  ∧ (∀ topics, EventSignature.encode_to_topics self args [] = Ok topics →
     length topics = length args ∧ None ∉ topics).
Proof.
  intros Hinit.
  pose proof (EventSignature_init_length _ _ _ Hinit) as (_ & _ & Hnodup & _).
  apply EventSignature_init_signature in Hinit as (Hnames & _ & _).
  assert (Hle : length args ≤ length (EventSignature._signature self) →
    EventSignature.encode_to_topics self args []
    = mapM (bound_topics (EventSignature._types self))
        (zip (map Param_name (EventSignature._signature self)) args)).
  { intros Hlen. rewrite encode_to_topics_mapM.
    rewrite bind_partial_positional by assumption. rewrite bind_ret.
    rewrite (field_topics_positional _ _ _ args Hlen).
    - destruct (mapM _ (zip _ args)) as [topics|e] eqn:Htopics; simpl; [|reflexivity].
      f_equal. apply pop_trailing_None_app; [|rewrite length_app, length_replicate; lia].
      apply mapM_Ok_Forall2 in Htopics.
      destruct topics as [|t topics _] using rev_ind; [discriminate|].
      rewrite last_snoc. intros [= ->].
      apply Forall2_app_inv_r in Htopics as (l1 & l2 & _ & Hlast & _).
      apply Forall2_cons_inv_r in Hlast as ([name arg] & l2' & Hlast & _ & _).
      simpl in Hlast.
      destruct (dict_getitem name _) as [tp|]; simpl in Hlast; [|discriminate].
      destruct (match arg with Plain _ => _ | Either _ => _ end); discriminate.
    - intros i p Hp. apply dict_get_zip_NoDup; [exact Hnodup|].
      rewrite list_lookup_fmap_Some. exists p. split; [|exact Hp].
      reflexivity. }
  assert (Hgt : length (EventSignature._signature self) < length args →
    EventSignature.encode_to_topics self args []
    = Raise (TypeError "too many positional arguments")).
  { intros Hlen. unfold EventSignature.encode_to_topics, bind_partial.
    rewrite bind_positional_too_many_nokw by exact Hlen. reflexivity. }
  split; [|split].
  - intros Hlen. rewrite <- Hnames. exact (Hle Hlen).
  - exact Hgt.
  - intros topics Htopics.
    destruct (decide (length args ≤ length (EventSignature._signature self)))
      as [Hlen|Hlen]; [|rewrite Hgt in Htopics by lia; discriminate].
    rewrite (Hle Hlen) in Htopics. split.
    + apply mapM_Ok_length in Htopics. rewrite Htopics.
      rewrite length_zip_with, length_map. lia.
    + apply mapM_Ok_Forall2 in Htopics. intros Hin.
      apply list_elem_of_split in Hin as (l1 & l2 & ->).
      apply Forall2_app_inv_r in Htopics as (k1 & k2 & _ & Hnone & _).
      apply Forall2_cons_inv_r in Hnone as ([name arg] & k2' & Hnone & _ & _).
      simpl in Hnone.
      destruct (dict_getitem name _) as [tp|]; simpl in Hnone; [|discriminate].
      destruct (match arg with Plain _ => _ | Either _ => _ end); discriminate.
Qed.

End positional_topics.

(** ** The fields decoded from a log entry *)

Lemma merge_decoded_spec {V} (names : list string)
    (decoded_topics decoded_data result_ r : dict string V) :
  EventSignature.merge_decoded names decoded_topics decoded_data result_ = Ok r →
  NoDup names →
  (∀ name, name ∈ names → name ∉ dict_keys result_) →
  dict_keys r = dict_keys result_ ++ names
  ∧ (∀ name, name ∈ names →
       ∃ v, dict_get name r = Some v
            ∧ match dict_get name decoded_topics with
              | Some v' => v' = v
              | None => dict_get name decoded_data = Some v
              end)
  ∧ (∀ name, name ∉ names → dict_get name r = dict_get name result_).
Proof.
  revert result_. induction names as [|name names IH]; intros result_ Hmerge Hnodup Hnew.
  - injection Hmerge as <-. rewrite app_nil_r. split; [reflexivity|].
    split; [|reflexivity]. intros name Hin. inversion Hin.
  - apply NoDup_cons in Hnodup as [Hname Hnodup].
    assert (Hstep : ∃ v,
      match dict_get name decoded_topics with
      | Some v' => v' = v
      | None => dict_get name decoded_data = Some v
      end
      ∧ EventSignature.merge_decoded names decoded_topics decoded_data
          (dict_setitem name v result_) = Ok r).
    { simpl in Hmerge. destruct (dict_get name decoded_topics) as [v|].
      - exists v. auto.
      - apply bind_Ok in Hmerge as (v & Hv & Hmerge). exists v. split; [|exact Hmerge].
        unfold dict_getitem in Hv. destruct (dict_get name decoded_data); [|discriminate].
        injection Hv as ->. reflexivity. }
    destruct Hstep as (v & Hv & Hrest).
    assert (Hkeys : dict_keys (dict_setitem name v result_) = dict_keys result_ ++ [name]).
    { rewrite dict_keys_setitem, bool_decide_eq_false_2; [reflexivity|].
      apply Hnew. left. }
    destruct (IH _ Hrest Hnodup) as (IHkeys & IHin & IHout).
    { intros n Hn. rewrite Hkeys. intros Hin.
      apply elem_of_app in Hin as [Hin|Hin].
      - apply (Hnew n); [right; exact Hn | exact Hin].
      - apply list_elem_of_singleton in Hin as ->. exact (Hname Hn). }
    split; [|split].
    + rewrite IHkeys, Hkeys, <- app_assoc. reflexivity.
    + intros n Hn. apply elem_of_cons in Hn as [->|Hn]; [|exact (IHin n Hn)].
      exists v. split; [|exact Hv].
      rewrite (IHout name Hname), dict_get_setitem, decide_True by reflexivity.
      reflexivity.
    + intros n Hn. rewrite IHout by (intros Hin; apply Hn; right; exact Hin).
      rewrite dict_get_setitem, decide_False; [reflexivity|].
      intros ->. apply Hn. left.
Qed.

Section decoded_fields.
Context `{!Collaborators}.

(** The fields that are not indexed, with their types, in the order of
    their declaration. *)
Lemma EventSignature_init_nonindexed parameters indexed (sig : EventSignature.t) :
  EventSignature.__init__ parameters indexed = Ok sig →
  dict_keys (EventSignature._types_nonindexed sig)
  = filter (λ name, name ∉ EventSignature._indexed sig)
      (dict_keys (EventSignature._types sig))
  ∧ mapM (λ name, dict_getitem name (EventSignature._types sig))
      (dict_keys (EventSignature._types_nonindexed sig))
    = Ok (dict_values (EventSignature._types_nonindexed sig)).
Proof.
  unfold EventSignature.__init__.
  set (parameters' := dict_of_pairs _). set (indexed' := set_map _ _ : gset string).
  intros Hinit.
  apply bind_Ok in Hinit as (ps & _ & Hinit).
  apply bind_Ok in Hinit as (sig' & _ & Hinit).
  apply bind_Ok in Hinit as (tn & Htn & [= <-]). simpl.
  assert (Hnodup : NoDup (filter (λ name, name ∉ indexed') (dict_keys parameters'))).
  { apply NoDup_filter, dict_keys_of_pairs. }
  revert Hnodup Htn. generalize (filter (λ name, name ∉ indexed') (dict_keys parameters')).
  intros names Hnodup Htn.
  apply mapM_Ok_Forall2 in Htn.
  assert (Hfst : map fst tn = names
                 ∧ mapM (λ name, dict_getitem name parameters') names = Ok (map snd tn)).
  { clear Hnodup. induction Htn as [|name [name' tp] names tn Hpair _ [IHfst IHsnd]].
    - split; reflexivity.
    - apply bind_Ok in Hpair as (tp' & Htp & [= -> ->]). cbn [map fst snd]. split.
      + f_equal. exact IHfst.
      + rewrite mapM_cons, Htp, bind_ret, IHsnd. reflexivity. }
  destruct Hfst as [Hfst Hsnd].
  rewrite dict_of_pairs_NoDup by (rewrite Hfst; exact Hnodup).
  unfold dict_keys, dict_values. rewrite Hfst. split; [reflexivity | exact Hsnd].
Qed.

(** X14. What [decode_log_entry] of a constructed [EventSignature] returns
    has all fields of the event as keys, in the order of their declaration.
    The value of the [i]-th indexed field is decoded from the [i]-th topic
    with the type of the field, the value of the [j]-th other field is the
    [j]-th value decoded from the data. *)
Theorem decode_log_entry_fields parameters indexed (sig : EventSignature.t)
    (topics : list bytes) (data : bytes) (decoded : dict string Value) :
  EventSignature.__init__ parameters indexed = Ok sig →
  EventSignature.decode_log_entry sig topics data = Ok decoded →
  dict_keys decoded = dict_keys (EventSignature._types sig)
  ∧ (∀ i name,
       filter (λ name, name ∈ EventSignature._indexed sig)
         (dict_keys (EventSignature._types sig)) !! i = Some name →
       ∃ topic tp v,
         topics !! i = Some topic
         ∧ dict_get name (EventSignature._types sig) = Some tp
         ∧ decode_from_topic tp topic = Ok v
         ∧ dict_get name decoded = Some v)
  ∧ ∃ decoded_data,
      decode_args (dict_values (EventSignature._types_nonindexed sig)) data
      = Ok decoded_data
      ∧ ∀ j name,
          filter (λ name, name ∉ EventSignature._indexed sig)
            (dict_keys (EventSignature._types sig)) !! j = Some name →
          ∃ v, decoded_data !! j = Some v ∧ dict_get name decoded = Some v.
Proof.
  intros Hinit Hdecode.
  pose proof (EventSignature_init_length _ _ _ Hinit) as (Hlen & _ & Hnodup & Hkeys).
  pose proof (EventSignature_init_nonindexed _ _ _ Hinit) as (Hnon & _).
  apply EventSignature_init_signature in Hinit as (Hnames & _ & _).
  unfold EventSignature.decode_log_entry in Hdecode.
  case_bool_decide as Hcount; [discriminate|].
  apply bind_Ok in Hdecode as (pairs & Hpairs & Hdecode).
  apply bind_Ok in Hdecode as (decoded_data & Hdata & Hmerge).
  apply merge_decoded_spec in Hmerge as (Hdkeys & Hin & _);
    [|exact Hkeys|intros name _ Hname; inversion Hname].
  rewrite <- Hnames, <- Hnon.
  set (names := map Param_name (EventSignature._signature sig)) in *.
  assert (Hlen' : length names ≤ length topics).
  { unfold names. rewrite length_map. lia. }
  apply mapM_Ok_Forall2 in Hpairs.
  assert (Hfst : map fst pairs = names).
  { clear -Hpairs Hlen'. revert topics pairs Hpairs Hlen'.
    induction names as [|name names IH]; intros topics pairs Hpairs Hlen'.
    - inversion Hpairs. reflexivity.
    - destruct topics as [|topic topics]; simpl in Hlen'; [lia|].
      simpl in Hpairs. apply Forall2_cons_inv_l in Hpairs as (pair & pairs' & Hp & Hps & ->).
      apply bind_Ok in Hp as (tp & _ & Hp). apply bind_Ok in Hp as (v & _ & [= <-]).
      simpl. f_equal. apply (IH topics); [exact Hps | lia]. }
  assert (Hpairs_nodup : dict_of_pairs pairs = pairs).
  { apply dict_of_pairs_NoDup. rewrite Hfst. exact Hnodup. }
  rewrite Hpairs_nodup in Hin.
  split; [exact Hdkeys|split].
  - intros i name Hi.
    destruct (lookup_lt_is_Some_2 topics i) as [topic Htopic].
    { apply lookup_lt_Some in Hi. lia. }
    assert (Hzip : zip names topics !! i = Some (name, topic)).
    { rewrite lookup_zip_with, Hi. simpl. rewrite Htopic. reflexivity. }
    destruct (Forall2_lookup_l _ _ _ _ _ Hpairs Hzip) as ([name' v] & Hpair & Hv).
    apply bind_Ok in Hv as (tp & Htp & Hv). apply bind_Ok in Hv as (v' & Hv' & [= <- <-]).
    exists topic, tp, v'. split; [exact Htopic|].
    unfold dict_getitem in Htp.
    destruct (dict_get name (EventSignature._types sig)) as [tp'|] eqn:Htp';
      [|discriminate].
    injection Htp as ->. split; [reflexivity|]. split; [exact Hv'|].
    assert (Hname : name ∈ dict_keys (EventSignature._types sig)).
    { assert (Hn : name ∈ names) by (eapply list_elem_of_lookup_2; exact Hi).
      rewrite Hnames in Hn.
      apply list_elem_of_filter in Hn as [_ Hn]. exact Hn. }
    destruct (Hin name Hname) as (v & Hget & Htopics).
    rewrite (dict_get_elem_NoDup name v' pairs) in Htopics.
    + subst v. exact Hget.
    + unfold dict_keys. rewrite Hfst. exact Hnodup.
    + eapply list_elem_of_lookup_2. exact Hpair.
  - exists decoded_data. split; [exact Hdata|].
    intros j name Hj.
    assert (Hname : name ∈ dict_keys (EventSignature._types sig)
                    ∧ name ∉ EventSignature._indexed sig).
    { assert (Hn : name ∈ dict_keys (EventSignature._types_nonindexed sig))
        by (eapply list_elem_of_lookup_2; exact Hj).
      rewrite Hnon in Hn. apply list_elem_of_filter in Hn as [Hn1 Hn2]. auto. }
    destruct Hname as [Hname Hnotindexed].
    destruct (Hin name Hname) as (v & Hget & Htopics).
    rewrite (proj2 (dict_get_None name pairs)) in Htopics.
    + exists v. split; [|exact Hget].
      rewrite dict_of_pairs_NoDup in Htopics.
      * rewrite <- Htopics. symmetry. apply dict_get_zip_NoDup; [|exact Hj].
        rewrite Hnon. apply NoDup_filter. exact Hkeys.
      * rewrite map_fst_zip_take. apply NoDup_take_prefix.
        rewrite Hnon. apply NoDup_filter. exact Hkeys.
    + intros v' Hv'. apply Hnotindexed.
      assert (Hn : name ∈ names).
      { rewrite <- Hfst. apply elem_of_map. exists (name, v'). auto. }
      rewrite Hnames in Hn.
      apply list_elem_of_filter in Hn as [Hn _]. exact Hn.
Qed.

End decoded_fields.

(** ** Binding the arguments of a call *)

Lemma dict_get_filter_ne {V} (k k' : string) (d : dict string V) :
  k ≠ k' → dict_get k (filter (λ kv, kv.1 ≠ k') d) = dict_get k d.
Proof.
  intros Hne. unfold dict in *. induction d as [|[k0 v0] d IH]; [reflexivity|].
  rewrite filter_cons. cbn [fst]. destruct (decide (k0 ≠ k')) as [Hk0|Hk0]; simpl.
  - rewrite IH. reflexivity.
  - apply dec_stable in Hk0 as ->. rewrite decide_False by exact Hne. exact IH.
Qed.

Lemma filter_notin_cons {V} (k : string) (l : list string) (d : dict string V) :
  filter (λ kv, kv.1 ∉ l) (filter (λ kv, kv.1 ≠ k) d) = filter (λ kv, kv.1 ∉ k :: l) d.
Proof.
  unfold dict in *. induction d as [|[k0 v0] d IH]; [reflexivity|].
  rewrite (filter_cons (λ kv, kv.1 ≠ k)), (filter_cons (λ kv, kv.1 ∉ k :: l)).
  cbn [fst]. destruct (decide (k0 ≠ k)) as [Hk0|Hk0].
  - rewrite filter_cons. cbn [fst].
    destruct (decide (k0 ∉ l)) as [Hl|Hl], (decide (k0 ∉ k :: l)) as [Hkl|Hkl].
    + rewrite IH. reflexivity.
    + destruct Hkl. intros Hin. apply elem_of_cons in Hin as [->|Hin]; auto.
    + destruct Hl. intros Hin. apply Hkl. right. exact Hin.
    + exact IH.
  - apply dec_stable in Hk0 as ->.
    rewrite decide_False by (intros Hk; apply Hk; left). exact IH.
Qed.

Lemma filter_all_in {V} (l : list string) (d : dict string V) :
  (∀ k, k ∈ dict_keys d → k ∈ l) → filter (λ kv, kv.1 ∉ l) d = [].
Proof.
  unfold dict_keys, dict in *. induction d as [|[k0 v0] d IH]; intros Hkeys;
    [reflexivity|].
  rewrite filter_cons. cbn [fst]. rewrite decide_False.
  - apply IH. intros k Hk. apply Hkeys. right. exact Hk.
  - intros Hk0. apply Hk0, Hkeys. left.
Qed.

Lemma bind_args_spec {V} parameters (args : list V) kwargs arguments :
  length args ≤ length parameters →
  (∀ p, p ∈ take (length args) parameters →
        Param_kind p = POSITIONAL_ONLY ∨ dict_get (Param_name p) kwargs = None) →
  bind_args parameters args kwargs arguments
  = Ok (fold_left (λ d kv, dict_setitem kv.1 kv.2 d)
          (zip (map Param_name parameters) args) arguments,
        drop (length args) parameters).
Proof.
  revert parameters arguments.
  induction args as [|a args IH]; intros parameters arguments Hlen Hfree.
  - destruct parameters; reflexivity.
  - destruct parameters as [|p parameters]; simpl in Hlen; [lia|].
    simpl. replace (dict_contains (Param_name p) kwargs && _) with false.
    + apply IH; [lia|]. intros q Hq. apply Hfree. right. exact Hq.
    + symmetry. destruct (Hfree p) as [Hkind|Hget]; [left| |].
      * rewrite Hkind. apply andb_false_r.
      * unfold dict_contains. rewrite Hget. reflexivity.
Qed.


Lemma Forall2_impl_elem {A B} (P Q : A → B → Prop) (l : list A) (k : list B) :
  Forall2 P l k → (∀ x y, x ∈ l → P x y → Q x y) → Forall2 Q l k.
Proof.
  induction 1 as [|x y l k Hxy _ IH]; intros Himpl; constructor.
  - apply Himpl; [left | exact Hxy].
  - apply IH. intros x' y' Hin. apply Himpl. right. exact Hin.
Qed.

Lemma bind_kwargs_spec {V} parameters (kwargs : dict string V) arguments vals :
  Forall (λ p, Param_kind p = POSITIONAL_OR_KEYWORD) parameters →
  NoDup (map Param_name parameters) →
  Forall2 (λ p v, dict_get (Param_name p) kwargs = Some v) parameters vals →
  bind_kwargs parameters kwargs arguments
  = Ok (fold_left (λ d kv, dict_setitem kv.1 kv.2 d)
          (zip (map Param_name parameters) vals) arguments,
        filter (λ kv, kv.1 ∉ map Param_name parameters) kwargs).
Proof.
  revert kwargs arguments vals.
  induction parameters as [|p parameters IH]; intros kwargs arguments vals Hkinds Hnodup Hvals.
  - apply Forall2_nil_inv_l in Hvals as ->. simpl. f_equal. f_equal.
    unfold dict in *. clear. induction kwargs as [|kv kwargs IH]; [reflexivity|].
    rewrite filter_cons, decide_True by (intros Hin; inversion Hin).
    f_equal. exact IH.
  - apply Forall2_cons_inv_l in Hvals as (v & vals' & Hv & Hvals & ->).
    apply Forall_cons in Hkinds as [Hkind Hkinds].
    cbn [map] in Hnodup. apply NoDup_cons in Hnodup as [Hp Hnodup].
    simpl. rewrite Hv, Hkind.
    rewrite (IH _ _ vals' Hkinds Hnodup).
    + rewrite filter_notin_cons. reflexivity.
    + apply (Forall2_impl_elem _ _ _ _ Hvals). intros q w Hq Hw.
      rewrite dict_get_filter_ne; [exact Hw|].
      intros Heq. apply Hp. rewrite <- Heq. apply elem_of_map. exists q. auto.
Qed.

Lemma BoundArguments_args_all {V} parameters (arguments : dict string V) args :
  length args = length parameters →
  (∀ i p, parameters !! i = Some p → dict_get (Param_name p) arguments = args !! i) →
  BoundArguments_args parameters arguments = args.
Proof.
  revert args. induction parameters as [|p parameters IH]; intros args Hlen Hbound.
  - destruct args; [reflexivity | discriminate].
  - destruct args as [|a args]; [discriminate|].
    simpl. rewrite (Hbound 0 p eq_refl). simpl. f_equal.
    apply IH; [simpl in Hlen; lia|].
    intros i q Hq. exact (Hbound (S i) q Hq).
Qed.

Lemma zip_app_drop {A B} (l : list A) (k1 k2 : list B) :
  length k1 ≤ length l →
  zip l k1 ++ zip (drop (length k1) l) k2 = zip l (k1 ++ k2).
Proof.
  revert k1. induction l as [|x l IH]; intros [|y k1] Hlen; simpl in *;
    try reflexivity; try lia.
  f_equal. apply IH. lia.
Qed.

(** Binding positional arguments followed by keyword arguments for exactly
    the remaining parameters. *)
Lemma bind_mixed {V} parameters (args : list V) kwargs vals :
  NoDup (map Param_name parameters) →
  Forall (λ p, Param_kind p = POSITIONAL_OR_KEYWORD) (drop (length args) parameters) →
  length args ≤ length parameters →
  Forall2 (λ p v, dict_get (Param_name p) kwargs = Some v)
    (drop (length args) parameters) vals →
  (∀ k, k ∈ dict_keys kwargs →
        k ∈ map Param_name (drop (length args) parameters)) →
  bind parameters args kwargs
  = Ok (zip (map Param_name parameters) (args ++ vals)).
Proof.
  intros Hnodup Hkinds Hlen Hvals Hkeys. unfold bind.
  pose proof Hnodup as Hsplit.
  rewrite <- (take_drop (length args) parameters), map_app in Hsplit.
  apply NoDup_app in Hsplit as (_ & Hdisjoint & Hrest).
  rewrite bind_args_spec.
  - rewrite bind_ret, (bind_kwargs_spec _ _ _ vals Hkinds Hrest Hvals), bind_ret.
    rewrite filter_all_in by exact Hkeys.
    rewrite <- fold_left_app.
    change (fold_left _ ?l []) with (dict_of_pairs l).
    rewrite <- skipn_map, zip_app_drop by (rewrite length_map; exact Hlen).
    f_equal. apply dict_of_pairs_NoDup.
    rewrite map_fst_zip_take. apply NoDup_take_prefix. exact Hnodup.
  - exact Hlen.
  - intros p Hp. right. apply dict_get_None. intros v Hv.
    apply (Hdisjoint (Param_name p)).
    + apply elem_of_map. exists p. auto.
    + apply Hkeys. unfold dict_keys. apply elem_of_map. exists (Param_name p, v). auto.
Qed.

Section encode_binding.
Context `{!Collaborators, !Encoder}.

Lemma Signature_init_kinds (parameters : Params ABIType) (sig : Signature.t) :
  Signature.__init__ parameters = Ok sig →
  Forall (λ p, Param_kind p = if Signature._named_parameters sig
                              then POSITIONAL_OR_KEYWORD else POSITIONAL_ONLY)
    (Signature._signature sig).
Proof.
  assert (Hkinds : ∀ {A} (g : A → result Param) kind (l : list A) ps,
    (∀ x p, g x = Ok p → Param_kind p = kind) →
    mapM g l = Ok ps → Forall (λ p, Param_kind p = kind) ps).
  { intros A g kind l ps Hg Hps. apply mapM_Ok_Forall2 in Hps.
    induction Hps as [|x p l ps Hp _ IH]; constructor; [|exact IH].
    exact (Hg x p Hp). }
  destruct parameters as [m|ts]; simpl; intros Hinit;
    apply bind_Ok in Hinit as (ps & Hps & Hinit);
    apply bind_Ok in Hinit as (sig' & Hsig & [= <-]); simpl;
    unfold inspect_Signature in Hsig; apply bind_Ok in Hsig as ([] & _ & [= <-]);
    apply (Hkinds _ _ _ _ _) with (2 := Hps).
  - intros [name tp] p Hp. apply inspect_Parameter_Ok in Hp as (-> & _). reflexivity.
  - intros i p Hp. apply inspect_Parameter_Ok in Hp as (-> & _). reflexivity.
Qed.

Lemma encode_bound (sig : Signature.t) args kwargs all :
  NoDup (map Param_name (Signature._signature sig)) →
  length all = length (Signature._signature sig) →
  bind (Signature._signature sig) args kwargs
  = Ok (zip (map Param_name (Signature._signature sig)) all) →
  Signature.encode sig args kwargs = encode_args (zip (Signature._types sig) all).
Proof.
  intros Hnodup Hlen Hbind. unfold Signature.encode. rewrite Hbind, bind_ret.
  rewrite (BoundArguments_args_all _ _ all Hlen); [reflexivity|].
  intros i p Hp. apply dict_get_zip_NoDup; [exact Hnodup|].
  rewrite list_lookup_fmap_Some. exists p. split; [|exact Hp]. reflexivity.
Qed.

Lemma Signature_encode_positional (parameters : Params ABIType) (sig : Signature.t)
    (args : list Value) :
  Signature.__init__ parameters = Ok sig →
  length args = length (Signature._types sig) →
  Signature.encode sig args [] = encode_args (zip (Signature._types sig) args).
Proof.
  intros Hinit Hlen.
  pose proof (Signature_init_kinds _ _ Hinit) as Hkinds.
  apply Signature_init_NoDup in Hinit as [Hnodup Hlength].
  rewrite <- Hlength in Hlen.
  apply encode_bound; [exact Hnodup | exact Hlen|].
  rewrite <- (app_nil_r args) at 2. apply bind_mixed; auto.
  - rewrite Hlen, drop_all. constructor.
  - lia.
  - rewrite Hlen, drop_all. constructor.
  - intros k Hk. inversion Hk.
Qed.


(** X16. The data of a method call are the selector of the method followed
    by the input bytes of the call of a constructor with the same inputs.
    With as many positional arguments as the inputs have types, these are
    the arguments encoded with the types of the inputs in order. *)
Theorem call_data name mutability (inputs : Params ABIType) outputs payable
    (m : Method.t) (c : Constructor.t) (args : list Value) (kwargs : dict string Value) :
  Method.__init__ name mutability inputs outputs = Ok m →
  Constructor.__init__ inputs payable = Ok c →
  Method.__call__ m args kwargs
  = (call ← Constructor.__call__ c args kwargs;
     Ok {| MethodCall.data_bytes :=
             Method.selector m ++ ConstructorCall.input_bytes call |})
  ∧ Method.selector m
    = take 4 (keccak (encode name
                      ++ encode ("(" +:+ String.concat ","
                                   (map canonical_form (Params_types inputs)) +:+ ")")))
  ∧ (length args = length (Params_types inputs) →
     Constructor.__call__ c args []
     = (input_bytes ← encode_args (zip (Params_types inputs) args);
        Ok {| ConstructorCall.input_bytes := input_bytes |})).
Proof.
  unfold Method.__init__, Constructor.__init__. intros Hm Hc.
  apply bind_Ok in Hm as (sig & Hsig & Hm).
  apply bind_Ok in Hc as (sig' & Hsig' & [= <-]).
  rewrite Hsig in Hsig'. injection Hsig' as <-.
  assert (Hinputs : Method._inputs m = sig ∧ Method._name m = name).
  { destruct outputs as [|tp|ps]; cbn beta iota zeta in Hm;
      apply bind_Ok in Hm as (out & _ & [= <-]); auto. }
  destruct Hinputs as [Hinputs Hname].
  pose proof (Signature_types _ _ Hsig) as Htypes.
  split; [|split].
  - unfold Method.__call__, Method._encode_call, Constructor.__call__, Method.inputs.
    rewrite Hinputs. simpl.
    destruct (Signature.encode sig args kwargs); reflexivity.
  - unfold Method.selector, Method.inputs, Method.name, Signature.canonical_form.
    rewrite Hinputs, Hname, Htypes. reflexivity.
  - intros Hlen. unfold Constructor.__call__. simpl.
    rewrite (Signature_encode_positional _ _ args Hsig), Htypes;
      [reflexivity | rewrite Htypes; exact Hlen].
Qed.

End encode_binding.

(** ** Examples of the further properties *)

Section further_examples.
Import Reference.


Lemma decode_into_dict_tuple_witness :
  ∃ d, Signature.decode_into_dict (Error.fields Examples.insufficient_balance)
         Examples.word_17 = Ok d
       ∧ d = [("needed", VInt 17)]
       ∧ dict_keys d = ["needed"]
       ∧ dict_values d = [VInt 17].
Proof.
  pose proof (decode_into_dict_tuple (Named [("needed", uint 256)])) as Hdecode.
  apply (Hdecode (Error.fields Examples.insufficient_balance) Examples.word_17
           [VInt 17]);
    vm_compute; reflexivity.
Defined.

Lemma selector_of_name_and_types_witness :
  Method.selector Examples.transfer_method = Method.selector Examples.transfer_bare
  ∧ Method.selector Examples.transfer_method = Error.selector Examples.transfer_error
  ∧ Method.selector Examples.transfer_method = fromhex "a9059cbb"
  ∧ length (Method.selector Examples.transfer_method) = 4.
Proof.
  pose proof (selector_of_name_and_types "transfer"
                (Named Examples.transfer_inputs) (Positional [address; uint 256]))
    as Hselectors.
  destruct (Hselectors Mutability.NONPAYABLE Mutability.VIEW OutputsNone
              (OutputsType bool_) Examples.transfer_method Examples.transfer_bare
              [("a", address); ("b", uint 256)] Examples.transfer_error)
    as (Hsame & Herror & Hselector & _ & Hlen);
    try (vm_compute; reflexivity).
  split; [exact Hsame|]. split; [exact Herror|]. split.
  - rewrite Hselector. vm_compute. reflexivity.
  - apply Hlen. vm_compute. lia.
Defined.

Lemma Mutability_from_json_value_witness :
  Mutability.from_json (JStr "view") = Ok Mutability.VIEW
  ∧ JStr "payable" = JStr (Mutability.value Mutability.PAYABLE)
  ∧ Mutability.mutating Mutability.PAYABLE = true.
Proof.
  destruct Mutability_from_json_value as (Hvalue & Hback & Hpayable).
  split; [exact (Hvalue Mutability.VIEW)|]. split.
  - apply Hback. vm_compute. reflexivity.
  - apply Hpayable. reflexivity.
Defined.

Lemma Method_from_json_flags_witness :
  ∃ name stateMutability,
    dict_get "type" Examples.balance_entry = Some (JStr "function")
    ∧ dict_get "name" Examples.balance_entry = Some (JStr name)
    ∧ dict_get "stateMutability" Examples.balance_entry = Some (JStr stateMutability)
    ∧ Method.name Examples.balance_method = name
    ∧ Method.payable Examples.balance_method = String.eqb stateMutability "payable"
    ∧ Method.mutating Examples.balance_method
      = (String.eqb stateMutability "payable"
         || String.eqb stateMutability "nonpayable").
Proof.
  apply (Method_from_json_flags Examples.balance_entry Examples.balance_method).
  vm_compute. reflexivity.
Defined.

Lemma payable_from_json_witness :
  (dict_get "name" Examples.constructor_entry = None
   ∧ ∃ s, dict_get "stateMutability" Examples.constructor_entry = Some (JStr s)
          ∧ (s = "nonpayable" ∨ s = "payable")
          ∧ Constructor.payable Examples.owner_constructor = String.eqb s "payable")
  ∧ (∃ s, dict_get "stateMutability" Examples.fallback_entry = Some (JStr s)
          ∧ (s = "nonpayable" ∨ s = "payable")
          ∧ Fallback.payable {| Fallback.payable := true |} = String.eqb s "payable")
  ∧ (∃ s, dict_get "stateMutability" Examples.receive_entry = Some (JStr s)
          ∧ (s = "nonpayable" ∨ s = "payable")
          ∧ Receive.payable {| Receive.payable := true |} = String.eqb s "payable").
Proof.
  split; [|split].
  - destruct (proj1 (payable_from_json Examples.constructor_entry)
                Examples.owner_constructor) as (_ & Hname & _ & Hpayable & _);
      [vm_compute; reflexivity|].
    split; [exact Hname | exact Hpayable].
  - apply (proj1 (proj2 (payable_from_json Examples.fallback_entry))
             {| Fallback.payable := true |}).
    vm_compute. reflexivity.
  - apply (proj2 (proj2 (payable_from_json Examples.receive_entry))
             {| Receive.payable := true |}).
    vm_compute. reflexivity.
Defined.


Lemma from_json_classifies_witness :
  mapM Method.from_json
    (List.filter
       (λ entry, match dict_get "type" entry with
                 | Some type => json_eq_str type "function"
                 | None => false
                 end)
       [Examples.fallback_entry; Examples.balance_entry])
  = Ok [Examples.balance_method]
  ∧ mapM Fallback.from_json
      (List.filter
         (λ entry, match dict_get "type" entry with
                   | Some type => json_eq_str type "fallback"
                   | None => false
                   end)
         [Examples.fallback_entry; Examples.balance_entry])
    = Ok [{| Fallback.payable := true |}]
  ∧ ContractABI.constructor Examples.fallback_balance_abi = default_constructor.
Proof.
  destruct (from_json_classifies [Examples.fallback_entry; Examples.balance_entry]
              Examples.fallback_balance_abi)
    as (_ & (constructor & Hnone & Hconstructor) & Hfallback & _ & (Hmethods & _) & _);
    [vm_compute; reflexivity|].
  split; [exact Hmethods|]. split; [exact Hfallback|].
  rewrite Hconstructor. destruct constructor; [discriminate|reflexivity].
Defined.

Lemma from_json_rejects_witness :
  is_ok (ContractABI.from_json [Examples.balance_entry; Examples.balance_entry]) = false
  ∧ is_ok (ContractABI.from_json
             [Examples.fallback_entry; Examples.balance_entry; Examples.fallback_entry])
    = false
  ∧ is_ok (ContractABI.from_json [Examples.balance_entry; Examples.struct_entry])
    = false.
Proof.
  split; [|split].
  - apply (proj1 (from_json_rejects [] Examples.balance_entry [] Examples.balance_entry [])).
    right. exists "balance". vm_compute. auto.
  - apply (proj1 (from_json_rejects [] Examples.fallback_entry [Examples.balance_entry]
                    Examples.fallback_entry [])).
    left. vm_compute. reflexivity.
  - apply (proj2 (from_json_rejects [Examples.balance_entry] Examples.struct_entry []
                    Examples.struct_entry [])).
    vm_compute. reflexivity.
Defined.

Lemma resolve_error_registered_witness :
  ContractABI.resolve_error Examples.custom_abi
    (fromhex "92665351" ++ Examples.word_17)
  = Ok (Examples.insufficient_balance, [("needed", VInt 17)]).
Proof.
  change (fromhex "92665351") with (Error.selector Examples.insufficient_balance).
  rewrite (resolve_error_registered None None None None None
             (Some [Examples.insufficient_balance]) Examples.custom_abi
             [] Examples.insufficient_balance [] Examples.word_17).
  - vm_compute. reflexivity.
  - vm_compute. reflexivity.
  - vm_compute. reflexivity.
  - intros e He. inversion He.
  - vm_compute. reflexivity.
Defined.

Lemma encode_to_topics_positional_witness :
  EventSignature.encode_to_topics Examples.transfer_signature
    [Plain (VAddress Examples.alice);
     Either [VAddress Examples.alice; VAddress Examples.bob]] []
  = Ok [Some [Examples.alice_topic]; Some [Examples.alice_topic; Examples.bob_topic]]
  ∧ EventSignature.encode_to_topics Examples.transfer_signature
      [Plain (VAddress Examples.alice); Plain (VAddress Examples.bob);
       Plain (VInt 17)] []
    = Raise (TypeError "too many positional arguments").
Proof.
  split.
  - rewrite (proj1 (encode_to_topics_positional Examples.transfer_fields
                      Examples.transfer_indexed Examples.transfer_signature
                      [Plain (VAddress Examples.alice);
                       Either [VAddress Examples.alice; VAddress Examples.bob]]
                      ltac:(vm_compute; reflexivity)));
      [vm_compute; reflexivity | vm_compute; lia].
  - apply (proj1 (proj2 (encode_to_topics_positional Examples.transfer_fields
                           Examples.transfer_indexed Examples.transfer_signature
                           [Plain (VAddress Examples.alice); Plain (VAddress Examples.bob);
                            Plain (VInt 17)]
                           ltac:(vm_compute; reflexivity)))).
    vm_compute. lia.
Defined.

Lemma Event_filter_size_witness :
  ∃ filter : EventFilter.t,
    Event.__call__ Examples.transfer_event [] [("to", Plain (VAddress Examples.bob))]
    = Ok filter
    ∧ length (EventFilter.topics filter) ≤ 1 + size Examples.transfer_indexed
    ∧ length (EventFilter.topics filter) ≤ 4
    ∧ 1 ≤ length (EventFilter.topics filter).
Proof.
  exists {| EventFilter.topics :=
              [ Some [Examples.transfer_topic]; None;
                Some [Build_LogTopic Examples.bob_topic] ] |}.
  assert (Hcall :
    Event.__call__ Examples.transfer_event [] [("to", Plain (VAddress Examples.bob))]
    = Ok {| EventFilter.topics :=
              [ Some [Examples.transfer_topic]; None;
                Some [Build_LogTopic Examples.bob_topic] ] |})
    by (vm_compute; reflexivity).
  split; [exact Hcall|].
  apply (Event_filter_size "Transfer" Examples.transfer_fields Examples.transfer_indexed
           false Examples.transfer_event []
           [("to", Plain (VAddress Examples.bob))]);
    [vm_compute; reflexivity | exact Hcall].
Defined.

Lemma decode_log_entry_fields_witness :
  EventSignature.decode_log_entry Examples.transfer_signature
    [Examples.alice_topic; Examples.bob_topic] Examples.word_17
  = Ok [("from_", VAddress Examples.alice); ("to", VAddress Examples.bob);
        ("value", VInt 17)]
  ∧ dict_keys [("from_", VAddress Examples.alice); ("to", VAddress Examples.bob);
               ("value", VInt 17)]
    = dict_keys (EventSignature._types Examples.transfer_signature).
Proof.
  assert (Hdecode :
    EventSignature.decode_log_entry Examples.transfer_signature
      [Examples.alice_topic; Examples.bob_topic] Examples.word_17
    = Ok [("from_", VAddress Examples.alice); ("to", VAddress Examples.bob);
          ("value", VInt 17)]) by (vm_compute; reflexivity).
  split; [exact Hdecode|].
  apply (decode_log_entry_fields Examples.transfer_fields Examples.transfer_indexed
           Examples.transfer_signature [Examples.alice_topic; Examples.bob_topic]
           Examples.word_17);
    [vm_compute; reflexivity | exact Hdecode].
Defined.


Lemma call_data_witness :
  Method.__call__ Examples.transfer_method [VAddress Examples.alice; VInt 17] []
  = Ok {| MethodCall.data_bytes :=
            fromhex "a9059cbb" ++ Examples.alice_topic ++ Examples.word_17 |}
  ∧ Constructor.__call__ Examples.transfer_constructor
      [VAddress Examples.alice; VInt 17] []
    = Ok {| ConstructorCall.input_bytes := Examples.alice_topic ++ Examples.word_17 |}.
Proof.
  destruct (call_data "transfer" Mutability.NONPAYABLE (Named Examples.transfer_inputs)
              OutputsNone true Examples.transfer_method Examples.transfer_constructor
              [VAddress Examples.alice; VInt 17] [])
    as (Hcall & Hselector & Hinputs); try (vm_compute; reflexivity).
  assert (Hconstructor :
    Constructor.__call__ Examples.transfer_constructor
      [VAddress Examples.alice; VInt 17] []
    = Ok {| ConstructorCall.input_bytes := Examples.alice_topic ++ Examples.word_17 |}).
  { rewrite Hinputs by reflexivity. vm_compute. reflexivity. }
  split; [|exact Hconstructor].
  rewrite Hcall, Hconstructor, Hselector. vm_compute. reflexivity.
Defined.

End further_examples.
